(** * taskcat: parameter materializer, stack polling, client cache, CLI checks

    A shallow embedding of the parts of [taskcat/taskcat.py] and
    [taskcat/utils.py] that decide the specified behaviour, and the theorems
    that settle each specified property against that embedding.

    Conventions.
    - Python exceptions are values of [exn]; a computation that may raise
      returns a [result].
    - Python dicts are [gmap]s, Python lists are [list]s.
    - The remote services (CloudFormation, boto3 constructors) and the random
      number generator are oracles passed as section variables; the state
      they consume (number of calls made, draws used) is threaded explicitly.
    - [print] and [time.sleep] have no influence on control flow; sleeps are
      recorded in the state, prints only where a property speaks about
      them. A call of [self.logger.debug] raises AttributeError when the
      factory was built without a logger, and is silent otherwise. *)

From Stdlib Require Import Ascii String ZArith Lia.
From stdpp Require Import base option list gmap strings fin_maps.

Local Open Scope string_scope.

(** ** Exceptions and results *)

Inductive exn :=
  | KeyError
  | TypeError
  | ValueError
  | IndexError
  | AttributeError
  | RemoteError
  | SystemExit (status : Z).

Inductive result (A : Type) :=
  | Ok (a : A)
  | Raise (e : exn).
Arguments Ok {A} a.
Arguments Raise {A} e.

#[global] Instance result_bind : MBind result := fun A B k r =>
  match r with
  | Ok a => k a
  | Raise e => Raise e
  end.

(** ** The fragment of [re] the program uses

    Every pattern in the program is a sequence of single-character classes,
    each with a greedy repetition count, optionally between a literal
    look-behind and a literal look-ahead. [search] scans start positions from
    the left and explores repetition counts longest first, as the backtracking
    matcher of [re] does. *)

Module Re.

Inductive cclass :=
  | Lit (c : ascii)   (* the character itself, escaped or not *)
  | Word              (* \w : [a-zA-Z0-9_] *)
  | Digit             (* \d : [0-9] *)
  | Dot.              (* .  : anything but a newline *)

Definition code (a : ascii) : nat := nat_of_ascii a.

Definition is_digit (a : ascii) : bool :=
  ((48 <=? code a) && (code a <=? 57))%nat.

Definition is_upper (a : ascii) : bool :=
  ((65 <=? code a) && (code a <=? 90))%nat.

Definition is_lower (a : ascii) : bool :=
  ((97 <=? code a) && (code a <=? 122))%nat.

Definition accepts (c : cclass) (a : ascii) : bool :=
  match c with
  | Lit x => Ascii.eqb x a
  | Word => is_digit a || is_upper a || is_lower a || (code a =? 95)%nat
  | Digit => is_digit a
  | Dot => negb (code a =? 10)%nat
  end.

(** [Atom c lo hi] is [c{lo,hi}]; [hi = None] is an unbounded repetition. *)
Record atom := Atom { a_class : cclass; a_min : nat; a_max : option nat }.

Record regex := Regex {
  lookbehind : list ascii;   (* (?<=...) *)
  body : list atom;
  lookahead : list ascii     (* (?=...) *)
}.

Definition one (c : cclass) : atom := Atom c 1 (Some 1).
Definition plus (c : cclass) : atom := Atom c 1 None.
Definition star (c : cclass) : atom := Atom c 0 None.
Definition lit (s : string) : list atom :=
  map (fun c => one (Lit c)) (list_ascii_of_string s).

Definition extra (a : atom) : option nat :=
  match a_max a with
  | None => None
  | Some hi => Some (hi - a_min a)
  end.

Definition allows (more : option nat) : bool :=
  match more with
  | None => true
  | Some n => (0 <? n)%nat
  end.

Definition spend (more : option nat) : option nat :=
  match more with
  | None => None
  | Some n => Some (Nat.pred n)
  end.

(** Consume exactly [n] characters of class [c]. *)
Fixpoint exactly (c : cclass) (n : nat) (s : list ascii) : option (list ascii) :=
  match n with
  | 0 => Some s
  | S n' =>
      match s with
      | a :: s' => if accepts c a then exactly c n' s' else None
      | [] => None
      end
  end.

(** Greedy repetition: take one more character when possible, and fall back
    to the continuation on the current position when the longer attempt
    fails. *)
Fixpoint greedy {R} (c : cclass) (more : option nat) (s : list ascii)
    (k : list ascii -> option R) : option R :=
  match s with
  | a :: s' =>
      if accepts c a && allows more then
        match greedy c (spend more) s' k with
        | Some r => Some r
        | None => k s
        end
      else k s
  | [] => k s
  end.

Fixpoint match_atoms {R} (p : list atom) (s : list ascii)
    (k : list ascii -> option R) : option R :=
  match p with
  | [] => k s
  | a :: p' =>
      match exactly (a_class a) (a_min a) s with
      | Some s1 =>
          greedy (a_class a) (extra a) s1 (fun s2 => match_atoms p' s2 k)
      | None => None
      end
  end.

Fixpoint starts_with (p s : list ascii) : bool :=
  match p, s with
  | [], _ => true
  | x :: p', y :: s' => Ascii.eqb x y && starts_with p' s'
  | _ :: _, [] => false
  end.

(** A match that starts right here: the text before the position, reversed,
    is [before]; the result is the text left after the match. *)
Definition match_at (r : regex) (before s : list ascii) : option (list ascii) :=
  if starts_with (rev (lookbehind r)) before then
    match_atoms (body r) s
      (fun rest => if starts_with (lookahead r) rest then Some rest else None)
  else None.

Fixpoint search_from (r : regex) (before s : list ascii) : option (list ascii) :=
  match match_at r before s with
  | Some rest => Some (take (length s - length rest) s)
  | None =>
      match s with
      | [] => None
      | a :: s' => search_from r (a :: before) s'
      end
  end.

(** [re.search(r, s)], reduced to the text of [group()] when there is a
    match. *)
Definition search (r : regex) (s : string) : option string :=
  string_of_list_ascii <$> search_from r [] (list_ascii_of_string s).

(** [re.sub('[^0-9]', '', s)] : drop everything that is not a digit. The
    class [0-9] in a character set is the same set as [\d]. *)
Definition sub_nondigits (s : string) : string :=
  string_of_list_ascii (filter (fun a => is_digit a = true) (list_ascii_of_string s)).

End Re.

(** ** Random sampling

    [random.sample(population, k)] chooses [k] distinct positions of the
    population. The generator is an oracle [rand : nat -> nat] (the n-th
    draw), and the number of draws used so far is the generator state. *)

Section Random.

Variable rand : nat -> nat.

Fixpoint sample_pool {A} (pos : nat) (pool : list A) (k : nat) : list A :=
  match k with
  | 0 => []
  | S k' =>
      let j := rand pos mod length pool in
      match pool !! j with
      | Some x => x :: sample_pool (S pos) (delete j pool) k'
      | None => []
      end
  end.

(** [random.sample] raises ValueError when the sample is negative or larger
    than the population. The draws counted are those of the selection from
    a pool, one per character, which is what the library does on the
    population of [genpassword] for a sample of more than 5 characters (the
    only call site asks for 8); for a smaller sample it draws again when it
    hits a position already taken, and can use more draws than counted
    here. *)
Definition random_sample {A} (pos : nat) (population : list A) (k : Z)
    : result (list A * nat) :=
  if ((k <? 0) || (Z.of_nat (length population) <? k))%Z then Raise ValueError
  else Ok (sample_pool pos population (Z.to_nat k), pos + Z.to_nat k).

(** [range(a, b)] and [chr]. *)
Definition range (a b : nat) : list nat := seq a (b - a).
Definition chr (n : nat) : ascii := ascii_of_nat n.

(** [TaskCat.genpassword], taskcat.py lines 248-252. [passlength] is an
    integer at the only call site, so [int(passlength)] is the identity. *)
Definition genpassword_population : list ascii :=
  map chr (range 48 57 ++ range 65 90 ++ range 97 120).

Definition genpassword (pos : nat) (passlength : Z) : result (string * nat) :=
  let plen := passlength in
  '(chars, pos') ← random_sample pos genpassword_population plen;
  Ok (string_of_list_ascii chars, pos').

End Random.

(** ** Parameter documents and their materialization (taskcat.py 325-333) *)

(** A JSON value as [json.loads] returns it, as far as the program looks. *)
Inductive jvalue :=
  | JString (s : string)
  | JNumber (z : Z)
  | JBool (b : bool)
  | JNull.

(** One element of the parameter file: a dict from field name to value. *)
Abbreviation parmdict := (gmap string jvalue).

(** '\$\[\w+_genpass_\d{1,2}]' *)
Definition genpass_re : Re.regex :=
  Re.Regex []
    (Re.lit "$[" ++ [Re.plus Re.Word] ++ Re.lit "_genpass_"
       ++ [Re.Atom Re.Digit 1 (Some 2)] ++ Re.lit "]")
    [].

Definition is_match (m : option string) : bool :=
  match m with Some _ => true | None => false end.

Fixpoint for_range {S} (n : nat) (body : S -> result S) (s : S) : result S :=
  match n with
  | 0 => Ok s
  | S n' => s' ← body s; for_range n' body s'
  end.

Section Materializer.

Variable rand : nat -> nat.

(** The body of [for keys in parmdict]; the loop variable is not used. The
    result of [re.sub] is computed and dropped, and the password length is
    the literal 8. *)
Definition genpass_step (st : parmdict * nat) : result (parmdict * nat) :=
  let '(d, pos) := st in
  match d !! "ParameterValue" with
  | None => Raise KeyError
  | Some (JString v) =>
      if is_match (Re.search genpass_re v) then
        let _ := Re.sub_nondigits v in
        '(pw, pos') ← genpassword rand pos 8;
        Ok (<["ParameterValue" := JString pw]> d, pos')
      else Ok (d, pos)
  | Some _ => Raise TypeError
  end.

(** [for keys in parmdict: ...] runs the body once per key of the dict; the
    body only reassigns an existing key, so the number of keys is fixed. *)
Definition materialize_entry (d : parmdict) (pos : nat) : result (parmdict * nat) :=
  for_range (size d) genpass_step (d, pos).

(** [for parmdict in s_parms: ...] : the list is updated in place, entry by
    entry, in list order. An exception raised here reaches the [except
    Exception] of [stackcreate], which ends the program. *)
Fixpoint materialize (s_parms : list parmdict) (pos : nat)
    : result (list parmdict * nat) :=
  match s_parms with
  | [] => Ok ([], pos)
  | d :: rest =>
      '(d', pos') ← materialize_entry d pos;
      '(rest', pos'') ← materialize rest pos';
      Ok (d' :: rest', pos'')
  end.

(** The password that replaces a token when [pos] draws have been used:
    the value of [genpassword(8)] at that generator state. *)
Definition password_at (pos : nat) : string :=
  string_of_list_ascii (sample_pool rand pos genpassword_population 8).

End Materializer.

(** An entry the key loop can process: no fields at all, or a string under
    ['ParameterValue']. *)
Definition well_formed (d : parmdict) : Prop :=
  d = ∅ \/ exists v, d !! "ParameterValue" = Some (JString v).

(** An entry whose value holds a generation token. *)
Definition has_token (d : parmdict) : Prop :=
  exists v, d !! "ParameterValue" = Some (JString v)
    /\ is_match (Re.search genpass_re v) = true.

Definition entry (k v : string) : parmdict :=
  <["ParameterKey" := JString k]> (<["ParameterValue" := JString v]> ∅).

(** An entry whose value is a number, as in
    [{"ParameterKey": "Port", "ParameterValue": 8080}]. *)
Definition numeric_entry : parmdict :=
  <["ParameterKey" := JString "Port"]> (<["ParameterValue" := JNumber 8080]> ∅).

Definition region_re : Re.regex :=
  Re.Regex (list_ascii_of_string ":")
    ([Re.one Re.Dot; Re.one Re.Word] ++ Re.lit "-" ++ [Re.plus Re.Dot; Re.star Re.Word]
       ++ Re.lit "-" ++ [Re.one Re.Digit])
    (list_ascii_of_string ":").

Definition stack_name_re : Re.regex :=
  Re.Regex (list_ascii_of_string ":stack/")
    (Re.lit "tCaT" ++ [Re.star Re.Dot; Re.one Re.Dot])
    (list_ascii_of_string "/").

(** ** Stack status polling (taskcat.py 407-452) *)

(** The answer of [describe_stacks]: an exception, or the list under
    ['Stacks'], each element reduced to [result.get('StackStatus')]. *)
Inductive describe_response :=
  | DescribeRaises
  | DescribeStacks (stacks : list (option string)).

(** The cells of the list [test_info]. *)
Inductive pyval :=
  | PStr (s : string)
  | PNone
  | PInt (z : Z).

(** The state of the remote side seen by the poller: how often each stack
    (region, stack name) has been described, and the seconds slept. *)
Record remote := Remote {
  calls : gmap (string * string) nat;
  slept : Z
}.

(** An element of [stackids]: the answer of [create_stack]. *)
Record stackdata := StackData { StackId : string }.

(** The final state of [get_stackstatus], which itself returns nothing. *)
Record poll_end := PollEnd {
  passes : nat;          (* iterations of the while loop *)
  active_tests : Z;      (* the counter that ended the loop *)
  world : remote
}.

Definition regxfind (reobj : Re.regex) (dataline : string) : string :=
  match Re.search reobj dataline with
  | Some sg => sg
  | None => "Not-found"
  end.

Definition status_cell (st : option string) : pyval :=
  match st with
  | Some s => PStr s
  | None => PNone
  end.

(** [result.get('StackStatus') == 'CREATE_IN_PROGRESS' or ... ==
    'DELETE_IN_PROGRESS'], as the appended 1 or 0. *)
Definition in_progress_flag (st : option string) : Z :=
  match st with
  | Some s =>
      if String.eqb s "CREATE_IN_PROGRESS" || String.eqb s "DELETE_IN_PROGRESS"
      then 1%Z else 0%Z
  | None => 0%Z
  end.

(** The region and the stack name [stackcheck] reads off a stack id: the
    stack it asks about. *)
Definition stack_key (stack_id : string) : string * string :=
  (regxfind region_re stack_id, regxfind stack_name_re stack_id).

Section Polling.

(** [describe_stacks region stack_name n] is the answer to the call made
    after [n] earlier calls for the same stack. *)
Variable describe_stacks : string -> string -> nat -> describe_response.

Definition calls_made (w : remote) (key : string * string) : nat :=
  default 0 (calls w !! key).

(** [TaskCat.stackcheck], lines 421-452, when the client of the region can
    be made: [boto3.client] at line 433 stands before the [try], and the
    answer of [describe_stacks] is that of this client. *)
Definition stackcheck (stack_id : string) (w : remote) : list pyval * remote :=
  let region := regxfind region_re stack_id in
  let stack_name := regxfind stack_name_re stack_id in
  let n := calls_made w (region, stack_name) in
  let w' := Remote (<[(region, stack_name) := S n]> (calls w)) (slept w) in
  match describe_stacks region stack_name n with
  | DescribeStacks stacks =>
      (flat_map (fun st => [PStr stack_name; PStr region; status_cell st;
                            PInt (in_progress_flag st)]) stacks, w')
  | DescribeRaises =>
      ([PStr stack_name; PStr region; PStr "USER_DELETED"; PInt 0], w')
  end.

(** [time.sleep(speed)], for a speed it accepts: on a negative speed
    [time.sleep] raises, which the model leaves out. *)
Definition sleep (speed : Z) (w : remote) : remote :=
  Remote (calls w) (slept w + speed).

(** [for stack in stackids: ...], threading [current_active_tests] and
    [active_tests]; [stackquery[3]] raises IndexError on a short list. *)
Fixpoint for_stacks (stackids : list stackdata) (speed : Z)
    (current_active_tests active_tests : Z) (w : remote)
    : result (Z * Z * remote) :=
  match stackids with
  | [] => Ok (current_active_tests, active_tests, w)
  | stack :: rest =>
      let '(stackquery, w1) := stackcheck (StackId stack) w in
      match stackquery !! 3%nat with
      | None => Raise IndexError
      | Some (PInt flag) =>
          let current := (flag + current_active_tests)%Z in
          for_stacks rest speed current current (sleep speed w1)
      | Some _ => Raise TypeError
      end
  end.

(** [while (active_tests > 0): ...]; [None] when the fuel is used up before
    the loop ends. *)
Fixpoint while_active (fuel : nat) (stackids : list stackdata) (speed : Z)
    (active : Z) (done : nat) (w : remote) : option (result poll_end) :=
  if (0 <? active)%Z then
    match fuel with
    | 0 => None
    | S fuel' =>
        match for_stacks stackids speed 0 active w with
        | Ok (_, active', w') =>
            while_active fuel' stackids speed active' (S done) w'
        | Raise e => Some (Raise e)
        end
    end
  else Some (Ok (PollEnd done active w)).

Definition get_stackstatus (fuel : nat) (stackids : list stackdata) (speed : Z)
    (w : remote) : option (result poll_end) :=
  while_active fuel stackids speed 1 0 w.

End Polling.

(** Python's [needle in haystack] on strings. *)
Fixpoint contains (needle haystack : list ascii) : bool :=
  Re.starts_with needle haystack ||
  match haystack with
  | [] => false
  | _ :: rest => contains needle rest
  end.

Definition str_contains (needle haystack : string) : bool :=
  contains (list_ascii_of_string needle) (list_ascii_of_string haystack).

(** *** Vocabulary for the polling properties *)

(** What a describe answer adds to the count of active stacks through
    [stackquery[3]]: nothing to read when ['Stacks'] is empty. *)
Definition answer_flag (r : describe_response) : option Z :=
  match r with
  | DescribeRaises => Some 0%Z
  | DescribeStacks [] => None
  | DescribeStacks (st :: _) => Some (in_progress_flag st)
  end.

Definition terminal_answer (r : describe_response) : Prop :=
  answer_flag r = Some 0%Z.

Definition key_of (stack : stackdata) : string * string :=
  stack_key (StackId stack).

(** A stack id as [create_stack] returns it, for the examples. *)
Definition sample_stack_id : string :=
  "arn:aws:cloudformation:us-east-1:123456789012:stack/tCaT-tag-demo-ab12/51af3dc0-da77-11e4-872e-1234567db123".

(** A stack that is being created during its first two describe calls and
    complete from the third on. *)
Definition completes_at_third_call (region stack_name : string) (n : nat)
    : describe_response :=
  if (n <? 2)%nat then DescribeStacks [Some "CREATE_IN_PROGRESS"]
  else DescribeStacks [Some "CREATE_COMPLETE"].

Section PollingVocabulary.

Variable describe_stacks : string -> string -> nat -> describe_response.

Definition answer (stack : stackdata) (n : nat) : describe_response :=
  describe_stacks (key_of stack).1 (key_of stack).2 n.

(** Every tracked stack answers with a terminal status from its [N]-th
    describe call on. *)
Definition settles_within (stackids : list stackdata) (N : nat) : Prop :=
  forall stack, stack ∈ stackids -> forall n, N <= S n ->
    terminal_answer (answer stack n).

(** No tracked stack ever answers with an empty ['Stacks'] list. *)
Definition always_answers (stackids : list stackdata) : Prop :=
  forall stack, stack ∈ stackids -> forall n, answer_flag (answer stack n) <> None.

(** The polling loop returns after at most [N] iterations, with no active
    stack left. *)
Definition converges_within (stackids : list stackdata) (speed : Z)
    (w : remote) (N : nat) : Prop :=
  exists fuel e,
    get_stackstatus describe_stacks fuel stackids speed w = Some (Ok e)
    /\ passes e <= N /\ active_tests e = 0%Z.

End PollingVocabulary.

(** ** The client cache (utils.py, class ClientFactory) *)

Module ClientFactory.

(** A [boto3.session.Session]: [session_access_key] is what
    [get_credentials().access_key] gives, [None] when [get_credentials()]
    is [None]. Objects carry an identity. *)
Record session := Session {
  session_id : nat;
  session_region : string;
  session_access_key : option string
}.

Record client := Client {
  client_id : nat;
  client_service : string;
  client_signature : string;
  client_session : session
}.

(** [self._clients[role][region]] holds the session under the key
    ['session'] and one dict of clients per service name. *)
Inductive slot :=
  | SlotSession (s : session)
  | SlotClients (m : gmap string client).

Abbreviation region_dict := (gmap string slot).
Abbreviation role_dict := (gmap string (gmap string slot)).
Abbreviation clients_dict := (gmap string (gmap string (gmap string slot))).

(** The instance: [logger] tells whether the attribute [self.logger] was
    set, which [__init__] does only when a logger is passed in. *)
Record factory := Factory {
  _clients : clients_dict;
  logger : bool
}.

(** [ClientFactory.__init__] *)
Definition init (with_logger : bool) : factory :=
  Factory (<["default_role" := ∅]> ∅) with_logger.

(** The boto3 side: constructor calls made, objects allocated, and the
    sequence of [sleep] arguments. *)
Record boto := Boto {
  attempts : nat;
  next_id : nat;
  sleeps : list Z
}.

Definition max_retries : nat := 4.

Definition truthy (o : option string) : bool :=
  match o with
  | Some s => negb (String.eqb s "")
  | None => false
  end.

Definition set_clients (f : factory) (c : clients_dict) : factory :=
  Factory c (logger f).

(** [self.logger.debug(...)] *)
Definition log_debug (f : factory) : result unit :=
  if logger f then Ok tt else Raise AttributeError.

Definition sleep (seconds : Z) (b : boto) : boto :=
  Boto (attempts b) (next_id b) (sleeps b ++ [seconds]).

(** [d[k]] on a dict *)
Definition getitem {V} (d : gmap string V) (k : string) : result V :=
  match d !! k with
  | Some v => Ok v
  | None => Raise KeyError
  end.

(** [d[k]] where [d] is a slot: a session object cannot be subscripted. *)
Definition slot_getitem (sl : slot) (k : string) : result client :=
  match sl with
  | SlotClients m => getitem m k
  | SlotSession _ => Raise TypeError
  end.

Section Boto.

(** [constructor_fails n]: the constructor call number [n] raises.
    [env_access_key]: the access key of the ambient credentials. *)
Variable constructor_fails : nat -> bool.
Variable env_access_key : option string.

(** [boto3.session.Session(...)] *)
Definition new_session (region : string) (creds : option string) (b : boto)
    : result session * boto :=
  if constructor_fails (attempts b)
  then (Raise RemoteError, Boto (S (attempts b)) (next_id b) (sleeps b))
  else (Ok (Session (next_id b) region creds),
        Boto (S (attempts b)) (S (next_id b)) (sleeps b)).

(** [session.client(service, ...)] *)
Definition new_client (s : session) (service sig : string) (b : boto)
    : result client * boto :=
  if constructor_fails (attempts b)
  then (Raise RemoteError, Boto (S (attempts b)) (next_id b) (sleeps b))
  else (Ok (Client (next_id b) service sig s),
        Boto (S (attempts b)) (S (next_id b)) (sleeps b)).

(** [5*(retry**2)], the argument of [sleep] in both retry loops. *)
Definition backoff (retry : nat) : Z := (5 * Z.of_nat retry ^ 2)%Z.

(** [_create_session], lines 94-124. The [except Exception] handler logs,
    counts, re-raises at [max_retries] and sleeps otherwise. [None]: the fuel
    did not suffice. *)
Fixpoint create_session_loop (fuel : nat) (f : factory) (region : string)
    (access_key secret_key session_token : option string) (retry : nat)
    (b : boto) : option (result session * boto) :=
  match fuel with
  | 0 => None
  | S fuel' =>
      let attempt :=
        if truthy access_key && truthy secret_key && truthy session_token
        then new_session region access_key b
        else new_session region env_access_key b in
      match attempt with
      | (Ok session, b1) => Some (Ok session, b1)
      | (Raise e, b1) =>
          match log_debug f with
          | Raise e' => Some (Raise e', b1)
          | Ok _ =>
              let retry := S retry in
              if (max_retries <=? retry)%nat then Some (Raise e, b1)
              else create_session_loop fuel' f region access_key secret_key
                     session_token retry (sleep (backoff retry) b1)
          end
      end
  end.

Definition _create_session (fuel : nat) (f : factory) (region : string)
    (access_key secret_key session_token : option string) (b : boto)
    : option (result session * boto) :=
  create_session_loop fuel f region access_key secret_key session_token 0 b.

(** [self._clients[role][region]['session'].client(...)]: each subscript
    may raise KeyError, and a dict under ['session'] has no [client]. *)
Definition session_client (f : factory) (role region service s3v4 : string)
    (b : boto) : result client * boto :=
  match getitem (_clients f) role with
  | Raise e => (Raise e, b)
  | Ok rd =>
      match getitem rd region with
      | Raise e => (Raise e, b)
      | Ok gd =>
          match getitem gd "session" with
          | Raise e => (Raise e, b)
          | Ok (SlotClients _) => (Raise AttributeError, b)
          | Ok (SlotSession s) => new_client s service s3v4 b
          end
      end
  end.

(** [_create_client], lines 126-154. *)
Fixpoint create_client_loop (fuel : nat) (f : factory)
    (role region service s3v4 : string) (retry : nat) (b : boto)
    : option (result client * boto) :=
  match fuel with
  | 0 => None
  | S fuel' =>
      match session_client f role region service s3v4 b with
      | (Ok client, b1) => Some (Ok client, b1)
      | (Raise e, b1) =>
          match log_debug f with
          | Raise e' => Some (Raise e', b1)
          | Ok _ =>
              let retry := S retry in
              if (max_retries <=? retry)%nat then Some (Raise e, b1)
              else create_client_loop fuel' f role region service s3v4 retry
                     (sleep (backoff retry) b1)
          end
      end
  end.

Definition _create_client (fuel : nat) (f : factory)
    (role region service s3v4 : string) (b : boto)
    : option (result client * boto) :=
  create_client_loop fuel f role region service s3v4 0 b.

(** [os.environ] *)
Variable environ : gmap string string.

(** The [try] block of [get], lines 72-79. *)
Definition cached (f : factory) (role region service s3v4 : string)
    (access_key : option string) : result client :=
  _ ← log_debug f;
  rd ← getitem (_clients f) role;
  gd ← getitem rd region;
  sl ← getitem gd service;
  client ← slot_getitem sl s3v4;
  if truthy access_key then
    held ← getitem gd "session";
    match held with
    | SlotClients _ => Raise AttributeError
    | SlotSession s =>
        match session_access_key s with
        | None => Raise AttributeError
        | Some k =>
            if negb (String.eqb k (default "" access_key))
            then (_ ← log_debug f; Raise KeyError)
            else Ok client
        end
    end
  else Ok client.

Definition role_entry (c : clients_dict) (role : string) : role_dict :=
  default ∅ (c !! role).

Definition region_entry (c : clients_dict) (role region : string) : region_dict :=
  default ∅ (role_entry c role !! region).

(** [self._clients[role][region][key] = v] *)
Definition set_slot (c : clients_dict) (role region key : string) (v : slot)
    : clients_dict :=
  <[role := <[region := <[key := v]> (region_entry c role region)]>
              (role_entry c role)]> c.

(** The [except KeyError] handler of [get], lines 80-92. The third test
    looks [service] up among the keys of [self._clients[role]]. *)
Definition rebuild (fuel : nat) (f : factory) (role region service s3v4 : string)
    (access_key secret_key session_token : option string) (b : boto)
    : option (result client * factory * boto) :=
  match log_debug f with
  | Raise e => Some (Raise e, f, b)
  | Ok _ =>
      let c := _clients f in
      let c := match c !! role with
               | None => <[role := ∅]> c
               | Some _ => c
               end in
      let c := match role_entry c role !! region with
               | None => <[role := <[region := ∅]> (role_entry c role)]> c
               | Some _ => c
               end in
      let c := match role_entry c role !! service with
               | None => set_slot c role region service (SlotClients ∅)
               | Some _ => c
               end in
      let with_session : option (result unit * factory * boto) :=
        match region_entry c role region !! "session" with
        | None =>
            match _create_session fuel (set_clients f c) region access_key
                    secret_key session_token b with
            | None => None
            | Some (Ok s, b1) =>
                Some (Ok tt,
                      set_clients f (set_slot c role region "session" (SlotSession s)),
                      b1)
            | Some (Raise e, b1) => Some (Raise e, set_clients f c, b1)
            end
        | Some _ => Some (Ok tt, set_clients f c, b)
        end in
      match with_session with
      | None => None
      | Some (Raise e, f1, b1) => Some (Raise e, f1, b1)
      | Some (Ok _, f1, b1) =>
          match _create_client fuel f1 role region service s3v4 b1 with
          | None => None
          | Some (Raise e, b2) => Some (Raise e, f1, b2)
          | Some (Ok client, b2) =>
              match region_entry (_clients f1) role region !! service with
              | None => Some (Raise KeyError, f1, b2)
              | Some (SlotSession _) => Some (Raise TypeError, f1, b2)
              | Some (SlotClients m) =>
                  Some (Ok client,
                        set_clients f1
                          (set_slot (_clients f1) role region service
                             (SlotClients (<[s3v4 := client]> m))),
                        b2)
              end
          end
      end
  end.

(** Lines 68-70: [if not region: ... region = os.environ[...]]. *)
Definition effective_region (f : factory) (region : option string)
    : result string :=
  if truthy region then Ok (default "" region)
  else (_ ← log_debug f; getitem environ "AWS_DEFAULT_REGION").

(** [ClientFactory.get], lines 51-92. *)
Definition get (fuel : nat) (f : factory) (service : string)
    (region : option string) (role : string)
    (access_key secret_key session_token : option string) (s3v4 : bool)
    (b : boto) : option (result client * factory * boto) :=
  match effective_region f region with
  | Raise e => Some (Raise e, f, b)
  | Ok region =>
      let s3v4 := if s3v4 then "s3v4" else "default_sig_version" in
      match cached f role region service s3v4 access_key with
      | Ok client => Some (Ok client, f, b)
      | Raise KeyError =>
          rebuild fuel f role region service s3v4 access_key secret_key
            session_token b
      | Raise e => Some (Raise e, f, b)
      end
  end.

(** *** Vocabulary for the retry properties *)

(** How many constructor calls in a row raise, from call number [start] on,
    among at most [n]. *)
Fixpoint failures_in_a_row (n start : nat) : nat :=
  match n with
  | 0 => 0
  | S n' =>
      if constructor_fails start then S (failures_in_a_row n' (S start)) else 0
  end.

End Boto.

(** What a retry loop leaves behind after [j] failures in a row: one more
    attempt than failures and at most 4, a sleep of 5, 20 and 45 seconds
    after the first, second and third failure, the error of the fourth
    failure, and a result otherwise. *)
Definition retry_outcome {A} (b b' : boto) (r : result A) (j : nat) : Prop :=
  attempts b' = attempts b + Nat.min (S j) 4
  /\ sleeps b' = (sleeps b ++ take (Nat.min j 3) [5; 20; 45]%Z)%list
  /\ (j = 4 -> r = Raise RemoteError)
  /\ (j < 4 -> exists a, r = Ok a).

(** A factory whose cache holds a session for [role] and [region]. *)
Definition has_session (f : factory) (role region : string) (s : session) : Prop :=
  region_entry (_clients f) role region !! "session" = Some (SlotSession s).

(** No credential change: no access key is supplied, or it is the access
    key of the cached session. *)
Definition credentials_unchanged (f : factory) (role region : string)
    (access_key : option string) : Prop :=
  truthy access_key = false
  \/ exists s, has_session f role region s /\ session_access_key s = access_key.

(** No constructor call ever raises. *)
Definition never_fails (n : nat) : bool := false.

(** A factory with a logger whose cache holds one session, for the
    examples. *)
Definition cached_session : session := Session 0 "us-east-1" (Some "AKIAOLD").

Definition factory_with_session : factory :=
  Factory (<["default_role" :=
             <["us-east-1" := <["session" := SlotSession cached_session]> ∅]> ∅]> ∅)
          true.

(** Constructor calls 0 and 1 raise, all later ones succeed. *)
Definition fails_twice (n : nat) : bool := (n <? 2)%nat.

End ClientFactory.

(** ** The command line (taskcat.py 583-642 and 496-537, tcat.py) *)

Module Cli.

(** The namespace [parser.parse_args()] returns. *)
Record args := Args {
  config_yml : option string;
  boto_profile : option string;
  aws_access_key : option string;
  aws_secret_key : option string;
  example_yaml : bool;
  verbose : bool
}.

(** What the process does that the outside can see. *)
Inductive event :=
  | Print (line : string)
  | PrintHelp
  | ParserError (message : string)
  | SetupDefaultSession
  | NetworkCall (service operation : string).

Definition is_network (e : event) : bool :=
  match e with
  | NetworkCall _ _ => true
  | _ => false
  end.

(** A computation with its trace. [sys.exit(n)] raises [SystemExit n];
    [parser.error] prints the message and exits with status 2. *)
Definition io (A : Type) : Type := list event * result A.

Definition is_some {A} (o : option A) : bool :=
  match o with Some _ => true | None => false end.

(** The command line as [parse_args] reads it. [Rejected]: a line the
    parser cannot read (an unknown option, an option without its value).
    [Given help a]: the options given, [help] telling whether [-h] or
    [--help] is among them. *)
Inductive command_line :=
  | Rejected (message : string)
  | Given (help : bool) (a : args).

(** [parser.parse_args()], line 620. The parser itself ends the program:
    for the help option it prints the help and exits with status 0, for a
    line it cannot read it prints the usage error and exits with status
    2. *)
Definition parse_args (c : command_line) : io args :=
  match c with
  | Rejected message => ([ParserError message], Raise (SystemExit 2))
  | Given true _ => ([PrintHelp], Raise (SystemExit 0))
  | Given false a => ([], Ok a)
  end.

(** The property [TaskCat.interface]. [argc] is [len(sys.argv)]; the
    result carries the new [self.verbose]. *)
Definition interface (argc : nat) (c : command_line) (self_verbose : bool)
    : io (args * bool) :=
  match parse_args c with
  | (tr, Raise e) => (tr, Raise e)
  | (tr, Ok a) =>
      if (argc =? 1)%nat then
        ((tr ++ [PrintHelp; Print "None"])%list, Raise (SystemExit 0))
      else if example_yaml a then
        ((tr ++ [Print "#An example: config.yml file to be used with <__name__> ";
                 Print "<yaml_cfg>"])%list, Raise (SystemExit 0))
      else
        let self_verbose := if verbose a then true else self_verbose in
        if is_some (boto_profile a) then
          if is_some (aws_access_key a) || is_some (aws_secret_key a) then
            ((tr ++ [ParserError
                       "Cannot use boto profile -P (--boto_profile)with --aws_access_key or --aws_secret_key"])%list,
             Raise (SystemExit 2))
          else (tr, Ok (a, self_verbose))
        else (tr, Ok (a, self_verbose))
  end.

(** [TaskCat.__init__] ends by evaluating [self.interface]. *)
Definition TaskCat_init (argc : nat) (c : command_line) : io bool :=
  match interface argc c false with
  | (tr, Ok (_, v)) => (tr, Ok v)
  | (tr, Raise e) => (tr, Raise e)
  end.

(** [TaskCat.aws_api_init]: each branch sets up the default session and asks
    STS for the caller identity; [sts_ok] tells whether that call succeeds. *)
Definition aws_api_init (sts_ok : bool) (a : args) : io unit :=
  let check (auth failure : string) : io unit :=
    if sts_ok
    then ([SetupDefaultSession; NetworkCall "sts" "get_caller_identity";
           Print "AWS AccountNumber"; Print auth], Ok tt)
    else ([SetupDefaultSession; NetworkCall "sts" "get_caller_identity";
           Print failure], Raise (SystemExit 1)) in
  if ClientFactory.truthy (boto_profile a) then
    check "Authenticated via: [boto-profile]"
          "Credential Error - Please check you profile!"
  else if ClientFactory.truthy (aws_access_key a)
          && ClientFactory.truthy (aws_secret_key a) then
    check "Authenticated via: [role]" "Credential Error - Please check you keys!"
  else
    check "Authenticated via: [role]" "Credential Error - Cannot assume role!".

(** [main] of tcat.py, up to its first use of the arguments. The constructor
    evaluates the property once; [tcat_obj.interface()] evaluates it again
    and then calls the namespace it returned, which is not callable. *)
Definition main (argc : nat) (c : command_line) : io unit :=
  match TaskCat_init argc c with
  | (tr, Raise e) => (tr, Raise e)
  | (tr, Ok v) =>
      let welcome := [Print "<banner>"; Print "version 0.1.16"] in
      match interface argc c v with
      | (tr', Raise e) => ((tr ++ welcome ++ tr')%list, Raise e)
      | (tr', Ok _) => ((tr ++ welcome ++ tr')%list, Raise TypeError)
      end
  end.

(** A command line with a profile, an access key and the request for the
    example configuration: [taskcat -P dev -A AKIA -ey]. *)
Definition conflicting_with_example : args :=
  Args None (Some "dev") (Some "AKIA") None true false.

(** The same without the request for the example. *)
Definition conflicting : args :=
  Args None (Some "dev") (Some "AKIA") None false false.

Definition no_network (tr : list event) : Prop :=
  forallb (fun e => negb (is_network e)) tr = true.

End Cli.

(** * Further vocabulary *)

(** ** Parameter documents *)

(** [has_token], as a test. *)
Definition has_token_b (d : parmdict) : bool :=
  match d !! "ParameterValue" with
  | Some (JString v) => is_match (Re.search genpass_re v)
  | _ => false
  end.

(** The number of entries of a document that hold a token. *)
Definition token_entries (s_parms : list parmdict) : nat :=
  length (filter (fun d => has_token_b d = true) s_parms).

(** The characters of a string. *)
Definition chars (s : string) : list ascii := list_ascii_of_string s.

(** ** Polling *)

(** How often a stack (region, stack name) occurs among the tracked ones. *)
Definition occurrences (k : string * string) (stackids : list stackdata) : nat :=
  length (filter (fun s => key_of s = k) stackids).

(** A second stack id, and a remote side on which the stack of
    [sample_stack_id] is gone, so that every describe call for it raises,
    while every other stack completes at its third call. *)
Definition second_stack_id : string :=
  "arn:aws:cloudformation:us-west-2:123456789012:stack/tCaT-tag-other-cd34/7b1e9a52-da77-11e4-9c1f-50d5ca6e60ae".

(** A remote side on which the stack of [sample_stack_id] is complete and
    every other describe call answers with an empty list of stacks. *)
Definition sample_is_empty (region stack_name : string) (n : nat)
    : describe_response :=
  if String.eqb stack_name "tCaT-tag-demo-ab12"
  then DescribeStacks [Some "CREATE_COMPLETE"]
  else DescribeStacks [].


(** ** The client cache *)

Module CacheVocabulary.

Import ClientFactory.

(** The first three tests of the [except KeyError] handler of [get], lines
    82-87: the cache after the dicts for the role, the region and the
    service have been put in place. *)
Definition prepare (c : clients_dict) (role region service : string)
    : clients_dict :=
  let c := match c !! role with
           | None => <[role := ∅]> c
           | Some _ => c
           end in
  let c := match role_entry c role !! region with
           | None => <[role := <[region := ∅]> (role_entry c role)]> c
           | Some _ => c
           end in
  match role_entry c role !! service with
  | None => set_slot c role region service (SlotClients ∅)
  | Some _ => c
  end.

(** Everything cached under another role, or under another region of the
    same role, is the same in [c'] as in [c]. *)
Definition untouched_elsewhere (c c' : clients_dict) (role region : string) : Prop :=
  (forall role', role' <> role -> c' !! role' = c !! role')
  /\ (forall region', region' <> region ->
        role_entry c' role !! region' = role_entry c role !! region').

(** The seconds of a sequence of sleeps. *)
Definition seconds (l : list Z) : Z := foldr Z.add 0%Z l.

(** The sleeps of one retry loop: 5, 20 and 45 seconds, in this order, as
    far as the loop gets. *)
Definition backoffs : list Z := [5; 20; 45]%Z.

(** The factory and the boto3 side after one [get] for an S3 client with
    the default signature in us-east-1, for the examples. *)
Definition after_first_get : factory * boto :=
  match get never_fails None ∅ 4 (init true) "s3" (Some "us-east-1")
          "default_role" None None None false (Boto 0 0 []) with
  | Some (_, f1, b1) => (f1, b1)
  | None => (init true, Boto 0 0 [])
  end.

End CacheVocabulary.

(** ** Stack names (taskcat.py 40 and 315-317) *)

(** [base64.b64decode] on well-padded input: four characters give three
    bytes, and one or two [=] at the end take one or two bytes away. Other
    input ends the decoding. *)
Definition b64_value (a : ascii) : option N :=
  let n := N_of_ascii a in
  if Re.is_upper a then Some (n - 65)%N
  else if Re.is_lower a then Some (n - 97 + 26)%N
  else if Re.is_digit a then Some (n - 48 + 52)%N
  else if Ascii.eqb a "+" then Some 62%N
  else if Ascii.eqb a "/" then Some 63%N
  else None.

Definition b64_group (v1 v2 v3 v4 : N) : N :=
  (v1 * 262144 + v2 * 4096 + v3 * 64 + v4)%N.

Definition byte (n : N) : ascii := ascii_of_N (n mod 256).

Fixpoint b64_chars (fuel : nat) (s : list ascii) : list ascii :=
  match fuel with
  | 0 => []
  | S fuel' =>
      match s with
      | c1 :: c2 :: c3 :: c4 :: rest =>
          match b64_value c1, b64_value c2 with
          | Some v1, Some v2 =>
              match b64_value c3, b64_value c4 with
              | Some v3, Some v4 =>
                  let n := b64_group v1 v2 v3 v4 in
                  byte (n / 65536) :: byte (n / 256) :: byte n
                    :: b64_chars fuel' rest
              | Some v3, None =>
                  if Ascii.eqb c4 "=" then
                    let n := b64_group v1 v2 v3 0 in
                    [byte (n / 65536); byte (n / 256)]
                  else []
              | None, _ =>
                  if Ascii.eqb c3 "=" && Ascii.eqb c4 "=" then
                    [byte (b64_group v1 v2 0 0 / 65536)]
                  else []
              end
          | _, _ => []
          end
      | _ => []
      end
  end.

Definition b64decode (s : string) : string :=
  string_of_list_ascii (b64_chars (String.length s) (list_ascii_of_string s)).

(** [sig = base64.b64decode("dENhVA==")] *)
Definition sig : string := b64decode "dENhVA==".

(** [id[:4]] *)
Definition first_four (id : string) : string := substring 0 4 id.

(** [stackname = sname + '-' + sprefix + '-' + test + '-' + id[:4]], with
    [sname = str(sig)] and [id] a fresh uuid. *)
Definition stackname (sprefix test id : string) : string :=
  sig ++ "-" ++ sprefix ++ "-" ++ test ++ "-" ++ first_four id.

(** The identifier CloudFormation gives to a stack: the ARN of the region
    and account, then [:stack/], the stack name, [/] and a uuid. *)
Definition stack_arn (arn_prefix name uuid : string) : string :=
  arn_prefix ++ ":stack/" ++ name ++ "/" ++ uuid.

Definition newline : ascii := ascii_of_nat 10.

(** ** Configuration documents (taskcat.py 262-276 and 539-581) *)

Module Config.

(** What [yaml.load] returns. A mapping is the list of its items in the
    order in which the dict iterates; its keys are strings. *)
#[local] Unset Elimination Schemes.
Inductive yaml :=
  | YNull
  | YBool (b : bool)
  | YInt (z : Z)
  | YStr (s : string)
  | YSeq (items : list yaml)
  | YMap (fields : list (string * yaml)).
#[local] Set Elimination Schemes.

Fixpoint assoc (k : string) (fields : list (string * yaml)) : option yaml :=
  match fields with
  | [] => None
  | (k', v) :: rest => if String.eqb k k' then Some v else assoc k rest
  end.

(** [v[k]] with a string [k]: only a mapping can be subscripted so. *)
Definition subscript (v : yaml) (k : string) : result yaml :=
  match v with
  | YMap fields =>
      match assoc k fields with
      | Some x => Ok x
      | None => Raise KeyError
      end
  | _ => Raise TypeError
  end.

(** [v.keys()] *)
Definition keys (v : yaml) : result (list string) :=
  match v with
  | YMap fields => Ok (map fst fields)
  | _ => Raise AttributeError
  end.

(** [k in l] for a list of strings. *)
Definition mem (k : string) (l : list string) : bool :=
  existsb (String.eqb k) l.

(** [for x in l: body] *)
Fixpoint for_each {A} (l : list A) (body : A -> result unit) : result unit :=
  match l with
  | [] => Ok tt
  | x :: rest => _ ← body x; for_each rest body
  end.

Definition required_global_keys : list string :=
  ["s3bucket"; "project"; "owner"; "reporting"; "regions"].

Definition required_test_parameters : list string :=
  ["template_file"; "parameter_input"].

(** Lines 555-560, for one [key]. *)
Definition check_global_key (cfg_yml : yaml) (key : string) : result unit :=
  g ← subscript cfg_yml "global";
  ks ← keys g;
  if mem key ks then Ok tt else Raise (SystemExit 1).

(** Lines 566-572, for one required [key] of the test [defined]. *)
Definition check_test_key (cfg_yml : yaml) (defined key : string) : result unit :=
  tests ← subscript cfg_yml "tests";
  t ← subscript tests defined;
  ks ← keys t;
  if mem key ks then Ok tt else Raise (SystemExit 1).

(** Lines 563-572, for one test: the required keys are looked for once for
    every key the test has. *)
Definition check_test (cfg_yml : yaml) (defined : string) : result unit :=
  tests ← subscript cfg_yml "tests";
  t ← subscript tests defined;
  parms ← keys t;
  for_each parms (fun _ =>
    for_each required_test_parameters (check_test_key cfg_yml defined)).

(** The body of the [try], once the file is read: lines 555-572. *)
Definition check_config (cfg_yml : yaml) : result (list string) :=
  _ ← for_each required_global_keys (check_global_key cfg_yml);
  tests ← subscript cfg_yml "tests";
  run_tests ← keys tests;
  _ ← for_each run_tests (check_test cfg_yml);
  Ok run_tests.

(** The file [validate_yaml] is given: missing, not readable as YAML, or
    a document. *)
Inductive config_file :=
  | NoFile
  | Malformed
  | Parsed (cfg_yml : yaml).

(** [TaskCat.validate_yaml]. [sys.exit] passes the [except Exception];
    every other exception ends in its [sys.exit(1)]. *)
Definition validate_yaml (yaml_file : config_file) : result (list string) :=
  match yaml_file with
  | NoFile => Raise (SystemExit 1)
  | Malformed => Raise (SystemExit 1)
  | Parsed cfg_yml =>
      match check_config cfg_yml with
      | Ok run_tests => Ok run_tests
      | Raise (SystemExit status) => Raise (SystemExit status)
      | Raise _ => Raise (SystemExit 1)
      end
  end.

(** An exception that leaves [validate_yaml] as an exit with status 1: no
    exit with another status. *)
Definition exits_with_one (e : exn) : Prop :=
  forall n, e = SystemExit n -> n = 1%Z.

(** A test [validate_yaml] lets through: a mapping that is empty or has
    both required keys. *)
Definition acceptable_test (t : yaml) : Prop :=
  exists fields, t = YMap fields
    /\ (fields = []
        \/ ("template_file" ∈ map fst fields /\ "parameter_input" ∈ map fst fields)).

(** A document [validate_yaml] lets through, with the names it returns. *)
Definition accepted (cfg_yml : yaml) (names : list string) : Prop :=
  exists top g tests,
    cfg_yml = YMap top
    /\ assoc "global" top = Some (YMap g)
    /\ (forall k, k ∈ required_global_keys -> k ∈ map fst g)
    /\ assoc "tests" top = Some (YMap tests)
    /\ names = map fst tests
    /\ forall name, name ∈ names ->
         exists t, assoc name tests = Some t /\ acceptable_test t.

(** A computation that can also end in UnboundLocalError, the error of
    reading a local variable that was never assigned. *)
Inductive outcome (A : Type) :=
  | Returns (a : A)
  | Throws (e : exn)
  | ThrowsUnboundLocalError.
Arguments Returns {A} a.
Arguments Throws {A} e.
Arguments ThrowsUnboundLocalError {A}.

(** [iter(v)] and [for x in v]: a sequence gives its items, a string its
    characters, a mapping its keys; nothing else can be iterated. *)
Definition iter_items (v : yaml) : result (list yaml) :=
  match v with
  | YSeq items => Ok items
  | YStr s => Ok (map (fun c => YStr (String c EmptyString)) (chars s))
  | YMap fields => Ok (map (fun kv => YStr kv.1) fields)
  | _ => Raise TypeError
  end.

(** The loop of [get_global_region] over the keys of [yamlcfg['global']],
    with [g_regions] and [self._use_global]. A missing ['regions'] is a
    KeyError, which [except TypeError] lets pass; when [iter] raises
    TypeError the handler prints [namespace], which is assigned only after
    a successful [iter]. *)
Fixpoint global_region_loop (g : yaml) (ks : list string)
    (g_regions : list yaml) (use_global : bool)
    : outcome (list yaml * bool) :=
  match ks with
  | [] => Returns (g_regions, use_global)
  | key :: rest =>
      if str_contains "region" key then
        match subscript g "regions" with
        | Raise e => Throws e
        | Ok regions =>
            match iter_items regions with
            | Raise _ => ThrowsUnboundLocalError
            | Ok items =>
                global_region_loop g rest (g_regions ++ items)
                  (match items with [] => use_global | _ :: _ => true end)
            end
        end
      else global_region_loop g rest g_regions use_global
  end.

(** [TaskCat.get_global_region], lines 262-276. *)
Definition get_global_region (yamlcfg : yaml) (use_global : bool)
    : outcome (list yaml * bool) :=
  match subscript yamlcfg "global" with
  | Raise e => Throws e
  | Ok g =>
      match keys g with
      | Raise e => Throws e
      | Ok ks => global_region_loop g ks [] use_global
      end
  end.

(** The number of keys that contain the text [region]. *)
Definition region_keys (ks : list string) : nat :=
  length (filter (fun k => str_contains "region" k = true) ks).

(** [l] repeated [n] times. *)
Fixpoint repeated {A} (n : nat) (l : list A) : list A :=
  match n with
  | 0 => []
  | S n' => l ++ repeated n' l
  end.

(** [TaskCat.if_stackexists], lines 396-405: [exists] is assigned ["no"]
    inside [if self.verbose] only. *)
Definition if_stackexists (verbose : bool) (answer : describe_response)
    : outcome string :=
  match answer with
  | DescribeStacks _ => Returns "yes"
  | DescribeRaises => if verbose then Returns "no" else ThrowsUnboundLocalError
  end.

End Config.

(** ** Published assets (taskcat.py 220-246) *)

Module Assets.

(** What S3 answers about the bucket: the ['LocationConstraint'] of
    [get_bucket_location] and the ['Contents'] of [list_objects], which is
    missing when nothing is listed; an object is a dict of its metadata. *)
Record bucket := Bucket {
  location_constraint : option string;
  contents : option (list (gmap string string))
}.

(** The two [format] calls. *)
Definition object_url (location : option string) (s3bucket key : string) : string :=
  match location with
  | Some l => "https://s3-" ++ l ++ "." ++ "amazonaws.com" ++ "/" ++ s3bucket ++ "/" ++ key
  | None => "https://s3.amazonaws.com/" ++ s3bucket ++ "/" ++ key
  end.

(** The loops over the listed objects and their metadata: the first object
    whose ['Key'] contains [key] decides. *)
Fixpoint first_url (location : option string) (s3bucket key : string)
    (objs : list (gmap string string)) : option string :=
  match objs with
  | [] => None
  | s3obj :: rest =>
      match s3obj !! "Key" with
      | Some k =>
          if str_contains key k then Some (object_url location s3bucket k)
          else first_url location s3bucket key rest
      | None => first_url location s3bucket key rest
      end
  end.

(** [TaskCat.get_s3_url]; [None] is Python's [None], the value of a
    function that ends without [return]. Iterating a missing ['Contents']
    raises TypeError. *)
Definition get_s3_url (s3 : bucket) (s3bucket key : string)
    : result (option string) :=
  match contents s3 with
  | None => Raise TypeError
  | Some objs => Ok (first_url (location_constraint s3) s3bucket key objs)
  end.

End Assets.

(** The example configuration the program prints ([yaml_cfg], lines
    50-74), as a document: first the mappings under [global] and under
    [tests]. *)
Definition example_global : list (string * Config.yaml) :=
  [("notification", Config.YBool true);
   ("owner", Config.YStr "avattathil@gmail.com");
   ("project", Config.YStr "projectx");
   ("reporting", Config.YBool true);
   ("regions",
    Config.YSeq [Config.YStr "us-east-1"; Config.YStr "us-west-1";
                 Config.YStr "us-west-2"]);
   ("report_email-to-owner", Config.YBool true);
   ("report_publish-to-s3", Config.YBool true);
   ("report_s3bucket", Config.YStr "taskcat-reports");
   ("s3bucket", Config.YStr "projectx-templates")].

Definition example_tests : list (string * Config.yaml) :=
  [("projectx-senario-1",
    Config.YMap
      [("parameter_input", Config.YStr "projectx-senario-1.json");
       ("regions",
        Config.YSeq [Config.YStr "us-west-1"; Config.YStr "us-east-1"]);
       ("template_file", Config.YStr "projectx.template")]);
   ("projetx-main-senario-all-regions",
    Config.YMap
      [("parameter_input", Config.YStr "projectx-senario-all-regions.json");
       ("template_file", Config.YStr "projectx.template")])].

Definition example_config : Config.yaml :=
  Config.YMap
    [("global", Config.YMap example_global);
     ("tests", Config.YMap example_tests)].

(** ** Test definitions and stack launch (taskcat.py 310-361 and 454-493) *)

Module Launch.

Import Config.

(** A request to [create_stack], with the region of the client that sends
    it. *)
Record request := Request {
  Region : yaml;
  StackName : string;
  DisableRollback : bool;
  TemplateURL : option string;
  Parameters : list parmdict;
  Capabilities : list string
}.

(** The fields of a [TaskCat] object that [define_tests] and [stackcreate]
    and the validations read or write, then the use made so far of the
    random generator, of S3 and of [uuid.uuid4], the launch requests sent,
    the validation calls made, each with the region of its client and its
    template URL, and the number of URLs opened. [_parameter_file] is not
    set by [__init__]. *)
Record taskcat := TaskCat {
  project : yaml;
  capabilities : list string;
  verbose : bool;
  test_region : list yaml;
  s3bucket : yaml;
  template_path : option string;
  parameter_path : option string;
  defult_region : string;
  _template_file : yaml;
  _parameter_file : option yaml;
  _use_global : bool;
  draws : nat;
  s3_calls : nat;
  requests : list request;
  uuids : nat;
  validations : list (string * option string);
  opened : nat
}.

(** [TaskCat.__init__], lines 101-118. *)
Definition init : taskcat :=
  TaskCat (YStr "not set") [] false [] (YStr "not set") (Some "not set")
    (Some "not set") "us-west-2" (YStr "not set") None false 0 0 [] 0 [] 0.

Definition set_project (project : yaml) (self : taskcat) : taskcat :=
  TaskCat project (capabilities self) (verbose self) (test_region self)
    (s3bucket self) (template_path self) (parameter_path self)
    (defult_region self) (_template_file self) (_parameter_file self)
    (_use_global self) (draws self) (s3_calls self) (requests self)
    (uuids self) (validations self) (opened self).

(** [self.capabilities.append(ability)] *)
Definition set_capabilities (ability : string) (self : taskcat) : taskcat :=
  TaskCat (project self) (capabilities self ++ [ability]) (verbose self)
    (test_region self) (s3bucket self) (template_path self)
    (parameter_path self) (defult_region self) (_template_file self)
    (_parameter_file self) (_use_global self) (draws self) (s3_calls self)
    (requests self) (uuids self) (validations self) (opened self).

(** [TaskCat.set_test_region], lines 257-260: a new list with the items of
    [region_list]. *)
Definition set_test_region (region_list : list yaml) (self : taskcat)
    : taskcat :=
  TaskCat (project self) (capabilities self) (verbose self) region_list
    (s3bucket self) (template_path self) (parameter_path self)
    (defult_region self) (_template_file self) (_parameter_file self)
    (_use_global self) (draws self) (s3_calls self) (requests self)
    (uuids self) (validations self) (opened self).

Definition set_s3bucket (bucket : yaml) (self : taskcat) : taskcat :=
  TaskCat (project self) (capabilities self) (verbose self)
    (test_region self) bucket (template_path self) (parameter_path self)
    (defult_region self) (_template_file self) (_parameter_file self)
    (_use_global self) (draws self) (s3_calls self) (requests self)
    (uuids self) (validations self) (opened self).

Definition set_template_path (template : option string) (self : taskcat)
    : taskcat :=
  TaskCat (project self) (capabilities self) (verbose self)
    (test_region self) (s3bucket self) template (parameter_path self)
    (defult_region self) (_template_file self) (_parameter_file self)
    (_use_global self) (draws self) (s3_calls self) (requests self)
    (uuids self) (validations self) (opened self).

Definition set_parameter_path (parameter : option string) (self : taskcat)
    : taskcat :=
  TaskCat (project self) (capabilities self) (verbose self)
    (test_region self) (s3bucket self) (template_path self) parameter
    (defult_region self) (_template_file self) (_parameter_file self)
    (_use_global self) (draws self) (s3_calls self) (requests self)
    (uuids self) (validations self) (opened self).

Definition set_template_file (template : yaml) (self : taskcat) : taskcat :=
  TaskCat (project self) (capabilities self) (verbose self)
    (test_region self) (s3bucket self) (template_path self)
    (parameter_path self) (defult_region self) template
    (_parameter_file self) (_use_global self) (draws self) (s3_calls self)
    (requests self) (uuids self) (validations self) (opened self).

Definition set_parameter_file (parameter : yaml) (self : taskcat) : taskcat :=
  TaskCat (project self) (capabilities self) (verbose self)
    (test_region self) (s3bucket self) (template_path self)
    (parameter_path self) (defult_region self) (_template_file self)
    (Some parameter) (_use_global self) (draws self) (s3_calls self)
    (requests self) (uuids self) (validations self) (opened self).

(** The assignment to [self._use_global] in [get_global_region]. *)
Definition set_use_global (flag : bool) (self : taskcat) : taskcat :=
  TaskCat (project self) (capabilities self) (verbose self)
    (test_region self) (s3bucket self) (template_path self)
    (parameter_path self) (defult_region self) (_template_file self)
    (_parameter_file self) flag (draws self) (s3_calls self) (requests self)
    (uuids self) (validations self) (opened self).

(** The assignment to [self.verbose] in [interface]. *)
Definition set_verbose (flag : bool) (self : taskcat) : taskcat :=
  TaskCat (project self) (capabilities self) flag (test_region self)
    (s3bucket self) (template_path self) (parameter_path self)
    (defult_region self) (_template_file self) (_parameter_file self)
    (_use_global self) (draws self) (s3_calls self) (requests self)
    (uuids self) (validations self) (opened self).

Definition set_draws (pos : nat) (self : taskcat) : taskcat :=
  TaskCat (project self) (capabilities self) (verbose self)
    (test_region self) (s3bucket self) (template_path self)
    (parameter_path self) (defult_region self) (_template_file self)
    (_parameter_file self) (_use_global self) pos (s3_calls self)
    (requests self) (uuids self) (validations self) (opened self).

Definition s3_called (self : taskcat) : taskcat :=
  TaskCat (project self) (capabilities self) (verbose self)
    (test_region self) (s3bucket self) (template_path self)
    (parameter_path self) (defult_region self) (_template_file self)
    (_parameter_file self) (_use_global self) (draws self)
    (S (s3_calls self)) (requests self) (uuids self) (validations self)
    (opened self).

Definition launched (req : request) (self : taskcat) : taskcat :=
  TaskCat (project self) (capabilities self) (verbose self)
    (test_region self) (s3bucket self) (template_path self)
    (parameter_path self) (defult_region self) (_template_file self)
    (_parameter_file self) (_use_global self) (draws self) (s3_calls self)
    (requests self ++ [req]) (uuids self) (validations self) (opened self).

Definition uuid_taken (self : taskcat) : taskcat :=
  TaskCat (project self) (capabilities self) (verbose self)
    (test_region self) (s3bucket self) (template_path self)
    (parameter_path self) (defult_region self) (_template_file self)
    (_parameter_file self) (_use_global self) (draws self) (s3_calls self)
    (requests self) (S (uuids self)) (validations self) (opened self).

Definition validated (call : string * option string) (self : taskcat)
    : taskcat :=
  TaskCat (project self) (capabilities self) (verbose self)
    (test_region self) (s3bucket self) (template_path self)
    (parameter_path self) (defult_region self) (_template_file self)
    (_parameter_file self) (_use_global self) (draws self) (s3_calls self)
    (requests self) (uuids self) (validations self ++ [call]) (opened self).

Definition url_opened (self : taskcat) : taskcat :=
  TaskCat (project self) (capabilities self) (verbose self)
    (test_region self) (s3bucket self) (template_path self)
    (parameter_path self) (defult_region self) (_template_file self)
    (_parameter_file self) (_use_global self) (draws self) (s3_calls self)
    (requests self) (uuids self) (validations self) (S (opened self)).

(** The number of launches tried so far. *)
Definition launches (self : taskcat) : nat := length (requests self).

Definition lift {A} (r : result A) : outcome A :=
  match r with
  | Ok a => Returns a
  | Raise e => Throws e
  end.

#[global] Instance outcome_bind : MBind outcome := fun A B k r =>
  match r with
  | Returns a => k a
  | Throws e => Throws e
  | ThrowsUnboundLocalError => ThrowsUnboundLocalError
  end.

(** [k in v]: a key of a mapping, an item of a sequence, a part of a
    string; nothing else has members. *)
Definition contains_key (k : string) (v : yaml) : result bool :=
  match v with
  | YMap fields => Ok (mem k (map fst fields))
  | YSeq items =>
      Ok (existsb (fun x => match x with
                            | YStr s => String.eqb s k
                            | _ => false
                            end) items)
  | YStr s => Ok (str_contains k s)
  | _ => Raise TypeError
  end.

Section Remote.

Variable rand : nat -> nat.

(** [str(v)] for a value that is no string. *)
Variable repr : yaml -> string.

(** What S3 answers to the calls of the [n]-th [get_s3_url], made for a
    bucket name and a prefix; [Raise] when a call fails. *)
Variable s3 : string -> yaml -> nat -> result Assets.bucket.

(** The [n]-th result of [uuid.uuid4], as text. *)
Variable uuid4 : nat -> string.

(** The parameter document behind a URL at the [n]-th launch:
    [json.loads(urllib.urlopen(path).read())]; [Raise] when this fails or
    when what is read is no list of objects. *)
Variable fetch : option string -> nat -> result (list parmdict).

(** The answer to the [n]-th launch request; [Raise] also when the client
    of the region cannot be made. *)
Variable create_stack : request -> nat -> result stackdata.

Definition str (v : yaml) : string :=
  match v with
  | YStr s => s
  | _ => repr v
  end.

(** [TaskCat.get_s3bucket], lines 135-136. *)
Definition get_s3bucket (self : taskcat) : string := str (s3bucket self).

(** [TaskCat.get_s3_url] on the object, lines 220-246. [key in metadata[1]]
    raises TypeError for a [key] that is no string, at the first listed
    object that has a ['Key']. *)
Definition get_s3_url (self : taskcat) (key : yaml)
    : result (option string * taskcat) :=
  answer ← s3 (get_s3bucket self) (project self) (s3_calls self);
  o_url ← match key with
          | YStr k => Assets.get_s3_url answer (get_s3bucket self) k
          | _ =>
              match Assets.contents answer with
              | None => Raise TypeError
              | Some objs =>
                  if existsb (fun s3obj : gmap string string =>
                                bool_decide (is_Some (s3obj !! "Key"))) objs
                  then Raise TypeError else Ok None
              end
          end;
  Ok (o_url, s3_called self).

(** The body of the loop of [define_tests] for the key that equals [test],
    lines 458-493. *)
Definition define_test (yamlc : yaml) (test : string) (self : taskcat)
    : outcome taskcat :=
  tests ← lift (subscript yamlc "tests");
  tdef ← lift (subscript tests test);
  t ← lift (subscript tdef "template_file");
  p ← lift (subscript tdef "parameter_input");
  g ← lift (subscript yamlc "global");
  n ← lift (subscript g "project");
  b ← lift (subscript g "s3bucket");
  let self := set_s3bucket b self in
  let self := set_project n self in
  let self := set_template_file t self in
  let self := set_parameter_file p self in
  '(o_url, self) ← lift (get_s3_url self t);
  let self := set_template_path o_url self in
  '(o_url, self) ← lift (get_s3_url self p);
  let self := set_parameter_path o_url self in
  has_regions ← lift (contains_key "regions" tdef);
  if has_regions : bool then
    r ← lift (subscript tdef "regions");
    match r with
    | YNull => Returns self
    | _ =>
        region_list ← lift (iter_items r);
        Returns (set_test_region region_list self)
    end
  else
    '(global_regions, use_global) ← get_global_region yamlc (_use_global self);
    Returns (set_test_region global_regions (set_use_global use_global self)).

(** [for tdefs in yamlc['tests'].keys(): if tdefs == test: ...] *)
Fixpoint for_tdefs (ks : list string) (yamlc : yaml) (test : string)
    (self : taskcat) : outcome taskcat :=
  match ks with
  | [] => Returns self
  | tdefs :: rest =>
      if String.eqb tdefs test then
        self ← define_test yamlc test self;
        for_tdefs rest yamlc test self
      else for_tdefs rest yamlc test self
  end.

(** [TaskCat.define_tests], lines 454-493. *)
Definition define_tests (yamlc : yaml) (test : string) (self : taskcat)
    : outcome taskcat :=
  tests ← lift (subscript yamlc "tests");
  ks ← lift (keys tests);
  for_tdefs ks yamlc test self.

(** The body of the [try] of [stackcreate], lines 322-349. *)
Definition launch (stackname : string) (region : yaml) (self : taskcat)
    : result (stackdata * taskcat) :=
  s_parms ← fetch (parameter_path self) (launches self);
  '(s_parms, pos) ← materialize rand s_parms (draws self);
  let req := Request region stackname true (template_path self) s_parms
               (capabilities self) in
  stackdata ← create_stack req (launches self);
  Ok (stackdata, launched req (set_draws pos self)).

(** [for region in self.get_test_region(): try: ... except Exception:
    sys.exit(F + ...)]: an exit with a message has status 1. *)
Fixpoint for_regions (regions : list yaml) (stackname : string)
    (stackids : list stackdata) (self : taskcat)
    : result (list stackdata * taskcat) :=
  match regions with
  | [] => Ok (stackids, self)
  | region :: rest =>
      match launch stackname region self with
      | Ok (stackdata, self) =>
          for_regions rest stackname (stackids ++ [stackdata]) self
      | Raise (SystemExit status) => Raise (SystemExit status)
      | Raise _ => Raise (SystemExit 1)
      end
  end.

(** [for test in test_list: ...], lines 313-355. *)
Fixpoint for_tests (test_list : list string) (taskcat_cfg : yaml)
    (sprefix : string) (stackids : list stackdata) (self : taskcat)
    : outcome (list stackdata * taskcat) :=
  match test_list with
  | [] => Returns (stackids, self)
  | test :: rest =>
      let id := uuid4 (uuids self) in
      let self := uuid_taken self in
      let stackname := stackname sprefix test id in
      self ← define_tests taskcat_cfg test self;
      '(stackids, self) ← lift (for_regions (test_region self) stackname
                                   stackids self);
      for_tests rest taskcat_cfg sprefix stackids self
  end.

(** [TaskCat.stackcreate], lines 310-361. *)
Definition stackcreate (taskcat_cfg : yaml) (test_list : list string)
    (sprefix : string) (self : taskcat) : outcome (list stackdata * taskcat) :=
  let self := set_capabilities "CAPABILITY_IAM" self in
  for_tests test_list taskcat_cfg sprefix [] self.

End Remote.

(** The regions a test is launched in: the sequence its definition gives
    under [regions]; without that key, the sequence under [regions] of
    [global], once for every key of [global] whose name contains the text
    [region]. *)
Definition regions_of (g fields : list (string * yaml)) : option (list yaml) :=
  match assoc "regions" fields with
  | Some (YSeq items) => Some items
  | Some _ => None
  | None =>
      match assoc "regions" g with
      | Some (YSeq items) => Some (repeated (region_keys (map fst g)) items)
      | _ => None
      end
  end.

(** A test definition with its template and its parameter file given as
    text, launched in [regions]. *)
Definition launchable (g : list (string * yaml)) (tdef : yaml)
    (regions : list yaml) : Prop :=
  exists fields ts ps,
    tdef = YMap fields
    /\ assoc "template_file" fields = Some (YStr ts)
    /\ assoc "parameter_input" fields = Some (YStr ps)
    /\ regions_of g fields = Some regions.

(** The launches of a run over [test_list]: the number of the uuid, the
    test and the region of each. *)
Fixpoint plan (g tests : list (string * yaml)) (test_list : list string)
    (i : nat) : list (nat * string * yaml) :=
  match test_list with
  | [] => []
  | test :: rest =>
      map (fun region => (i, test, region))
        (default [] (tdef ← assoc test tests;
                     match tdef with
                     | YMap fields => regions_of g fields
                     | _ => None
                     end))
        ++ plan g tests rest (S i)
  end.

(** What a launch request for the test and region of a planned launch
    looks like, with the capabilities [caps] of the object. *)
Definition sent (sprefix : string) (uuid4 : nat -> string) (caps : list string)
    (req : request) (planned : nat * string * yaml) : Prop :=
  Region req = planned.2
  /\ StackName req = stackname sprefix planned.1.2 (uuid4 planned.1.1)
  /\ DisableRollback req = true
  /\ Capabilities req = caps.

(** [stackids] holds the answers to the requests [reqs], sent from launch
    number [k] on. *)
Fixpoint answered (create_stack : request -> nat -> result stackdata)
    (k : nat) (reqs : list request) (stackids : list stackdata) : Prop :=
  match reqs, stackids with
  | [], [] => True
  | req :: reqs, stackdata :: stackids =>
      create_stack req k = Ok stackdata
      /\ answered create_stack (S k) reqs stackids
  | _, _ => False
  end.


End Launch.

(** ** Validation of templates and parameter files (taskcat.py 278-308 and
    363-394) *)

Module Validation.

Import Config Launch.

(** The answer of [validate_template], as far as the program reads it:
    what is under ['Description'] and under ['Parameters'], if anything. *)
Record answer := Answer {
  Description : option string;
  Parameters : option (list parmdict)
}.

(** [d[k]] for a key that may be missing. *)
Definition getitem {A} (field : option A) : result A :=
  match field with
  | Some x => Ok x
  | None => Raise KeyError
  end.

(** [TaskCat.get_parameter_file], lines 157-158: the attribute is there
    once [set_parameter_file] has run. *)
Definition get_parameter_file (self : taskcat) : result yaml :=
  match _parameter_file self with
  | Some parameter => Ok parameter
  | None => Raise AttributeError
  end.

Section Remote.

Variable repr : yaml -> string.
Variable s3 : string -> yaml -> nat -> result Assets.bucket.

(** The answer to the [n]-th validation call, made by a client of a region
    for a template URL; [Raise] when the template is rejected or the client
    cannot be made. *)
Variable validate : string -> option string -> nat -> result answer.

(** What [urllib.urlopen] gives for the [n]-th URL opened: the text behind
    it, or an exception. *)
Variable urlopen : option string -> nat -> result string.

(** [json.load] on a text: ValueError when it is no JSON. *)
Variable json_load : string -> result unit.

(** [cfnconnect.validate_template(TemplateURL=self.get_s3_url(
    self.get_template_file()))], with the client of
    [self.get_default_region()]. *)
Definition validate_call (self : taskcat) : result (answer * taskcat) :=
  '(url, self) ← get_s3_url repr s3 self (_template_file self);
  result ← validate (defult_region self) url (length (validations self));
  Ok (result, validated (defult_region self, url) self).

(** The body of the [try] of [validate_template], lines 285-301: the call
    is made twice, and the answer of the second is read. *)
Definition validate_one (self : taskcat) : result taskcat :=
  '(_, self) ← validate_call self;
  '(result, self) ← validate_call self;
  cfn_result ← getitem (Description result);
  if verbose self then
    cfn_parms ← getitem (Parameters result);
    Ok self
  else Ok self.

(** [for test in test_list: ...], lines 281-306; [sys.exit] with a message
    has status 1. *)
Fixpoint for_templates (test_list : list string) (taskcat_cfg : yaml)
    (self : taskcat) : outcome taskcat :=
  match test_list with
  | [] => Returns self
  | test :: rest =>
      self ← define_tests repr s3 taskcat_cfg test self;
      match validate_one self with
      | Ok self => for_templates rest taskcat_cfg self
      | Raise (SystemExit status) => Throws (SystemExit status)
      | Raise _ => Throws (SystemExit 1)
      end
  end.

(** [TaskCat.validate_template], lines 278-308. *)
Definition validate_template (taskcat_cfg : yaml) (test_list : list string)
    (self : taskcat) : outcome (bool * taskcat) :=
  '(g_regions, use_global) ← get_global_region taskcat_cfg (_use_global self);
  let self := set_test_region g_regions (set_use_global use_global self) in
  self ← for_templates test_list taskcat_cfg self;
  Returns (true, self).

(** [TaskCat.validate_json], lines 363-371: only ValueError is caught. *)
Definition validate_json (jsonin : string) : result bool :=
  match json_load jsonin with
  | Ok _ => Ok true
  | Raise ValueError => Ok false
  | Raise e => Raise e
  end.

(** [for test in test_list: ...], lines 374-392. Both branches print
    [self.get_parameter_file()] first. *)
Fixpoint for_parameters (test_list : list string) (taskcat_cfg : yaml)
    (self : taskcat) : outcome taskcat :=
  match test_list with
  | [] => Returns self
  | test :: rest =>
      self ← define_tests repr s3 taskcat_cfg test self;
      inputparms ← lift (urlopen (parameter_path self) (opened self));
      let self := url_opened self in
      jsonstatus ← lift (validate_json inputparms);
      _ ← lift (get_parameter_file self);
      if jsonstatus : bool then for_parameters rest taskcat_cfg self
      else Throws (SystemExit 1)
  end.

(** [TaskCat.validate_parameters], lines 373-394. *)
Definition validate_parameters (taskcat_cfg : yaml) (test_list : list string)
    (self : taskcat) : outcome (bool * taskcat) :=
  self ← for_parameters test_list taskcat_cfg self;
  Returns (true, self).

(** The object as [validate_parameters] has it after [define_tests], for
    each test of the list in turn, on a run that gets as far. *)
Fixpoint defined_objects (test_list : list string) (taskcat_cfg : yaml)
    (self : taskcat) : list taskcat :=
  match test_list with
  | [] => []
  | test :: rest =>
      match define_tests repr s3 taskcat_cfg test self with
      | Returns o => o :: defined_objects rest taskcat_cfg (url_opened o)
      | _ => []
      end
  end.

(** The parameter file of the object is opened and read as JSON. *)
Definition accepts_parameters (o : taskcat) : Prop :=
  exists text,
    urlopen (parameter_path o) (opened o) = Ok text
    /\ json_load text = Ok tt.

(** The parameter file of the object ends the run with [e]: it cannot be
    opened, or its text is no JSON, which is an exit with status 1, or
    [json.load] raises something else. *)
Definition rejects_parameters (o : taskcat) (e : exn) : Prop :=
  urlopen (parameter_path o) (opened o) = Raise e
  \/ exists text,
       urlopen (parameter_path o) (opened o) = Ok text
       /\ ((json_load text = Raise ValueError /\ e = SystemExit 1)
           \/ (json_load text = Raise e /\ e <> ValueError)).

End Remote.

End Validation.

(** *** Examples for the launch properties *)

(** A configuration whose second test has a [regions] key without a
    value. *)
Definition empty_regions_tests : list (string * Config.yaml) :=
  [("first",
    Config.YMap
      [("parameter_input", Config.YStr "first.json");
       ("regions", Config.YSeq [Config.YStr "eu-west-1"]);
       ("template_file", Config.YStr "first.template")]);
   ("second",
    Config.YMap
      [("parameter_input", Config.YStr "second.json");
       ("regions", Config.YNull);
       ("template_file", Config.YStr "second.template")])].

Definition empty_regions_config : Config.yaml :=
  Config.YMap
    [("global", Config.YMap example_global);
     ("tests", Config.YMap empty_regions_tests)].

(** A bucket in us-west-2 with the files of the example. *)
Definition example_s3 (bucket : string) (prefix : Config.yaml) (k : nat)
    : result Assets.bucket :=
  Ok (Assets.Bucket (Some "us-west-2")
        (Some [ {[ "Key" := "projectx/projectx-senario-1.json" ]};
                {[ "Key" := "projectx/projectx-senario-all-regions.json" ]};
                {[ "Key" := "projectx/projectx.template" ]} ])).

Definition example_uuid4 (k : nat) : string :=
  match k with
  | 0 => "9f3c2a10-5d1b-4c7e-8a3f-0b6d2e4c1a77"
  | _ => "c41d77aa-0e52-4b0f-9d3a-7e1f5a2b8c90"
  end.

(** A parameter document with one generation token. *)
Definition example_fetch (path : option string) (k : nat)
    : result (list parmdict) :=
  Ok [entry "KeyName" "mykey"; entry "Pwd" "$[alpha_genpass_8]"].

Definition example_create_stack (req : Launch.request) (k : nat)
    : result stackdata :=
  Ok (StackData
        (stack_arn "arn:aws:cloudformation:us-east-1:123456789012"
           (Launch.StackName req) "51af3dc0-da77-11e4-872e-1234567db123")).

(** A service that refuses every request. *)
Definition refusing_create_stack (req : Launch.request) (k : nat)
    : result stackdata :=
  Raise RemoteError.

(** *** Examples for the validation properties *)


(** A service that accepts every template; the templates have no
    description. *)
Definition undescribed_validate (region : string) (url : option string)
    (k : nat) : result Validation.answer :=
  Ok (Validation.Answer None (Some [])).

(** Every URL gives the text of an empty list. *)
Definition example_urlopen (path : option string) (k : nat) : result string :=
  Ok "[]".

(** A [json.load] that knows the empty list and the empty object. *)
Definition example_json_load (text : string) : result unit :=
  if String.eqb text "[]" || String.eqb text "{}" then Ok tt
  else Raise ValueError.

(** * Properties *)

(** ** Sampling and [genpassword] *)

Section RandomFacts.

Variable rand : nat -> nat.

Lemma sample_pool_length {A} (k : nat) : forall (pos : nat) (pool : list A),
  k <= length pool -> length (sample_pool rand pos pool k) = k.
Proof.
  induction k as [|k IH]; intros pos pool Hk; [reflexivity|].
  cbn [sample_pool].
  assert (Hlt : rand pos mod length pool < length pool)
    by (apply Nat.mod_upper_bound; lia).
  destruct (lookup_lt_is_Some_2 pool _ Hlt) as [x Hx].
  rewrite Hx. cbn [length]. f_equal. apply IH.
  rewrite length_delete by eauto. lia.
Qed.

Lemma sample_pool_subset {A} (k : nat) : forall (pos : nat) (pool : list A) (x : A),
  x ∈ sample_pool rand pos pool k -> x ∈ pool.
Proof.
  induction k as [|k IH]; intros pos pool x; cbn [sample_pool].
  - intros H. inversion H.
  - destruct (pool !! (rand pos mod length pool)) as [y|] eqn:Hy.
    + intros [->|Hin]%elem_of_cons.
      * eapply list_elem_of_lookup_2; eauto.
      * apply IH in Hin. eapply elem_of_sublist; [exact Hin|apply sublist_delete].
    + intros H. inversion H.
Qed.

Lemma sample_pool_NoDup {A} (k : nat) : forall (pos : nat) (pool : list A),
  NoDup pool -> NoDup (sample_pool rand pos pool k).
Proof.
  induction k as [|k IH]; intros pos pool Hnd; cbn [sample_pool].
  - constructor.
  - destruct (pool !! (rand pos mod length pool)) as [y|] eqn:Hy; [|constructor].
    constructor.
    + intros Hin%sample_pool_subset.
      rewrite <- (take_drop_middle pool _ y Hy) in Hnd.
      rewrite delete_take_drop in Hin.
      apply NoDup_app in Hnd as (_ & Hdis & Htl).
      apply NoDup_cons in Htl as [Hny _].
      apply elem_of_app in Hin as [Hin|Hin]; [|tauto].
      apply (Hdis _ Hin). left.
    + apply IH. eapply sublist_NoDup; [exact Hnd|apply sublist_delete].
Qed.

End RandomFacts.

Lemma string_length_of_list (l : list ascii) :
  String.length (string_of_list_ascii l) = length l.
Proof. induction l as [|a l IH]; cbn; [reflexivity|now rewrite IH]. Qed.

Lemma genpassword_population_length : length genpassword_population = 57.
Proof. reflexivity. Qed.

Lemma genpassword_population_NoDup : NoDup genpassword_population.
Proof. apply (bool_decide_unpack _). vm_compute. exact I. Qed.

Lemma genpassword_in_range (rand : nat -> nat) (pos : nat) (k : Z) :
  (0 <= k <= 57)%Z ->
  genpassword rand pos k =
    Ok (string_of_list_ascii
          (sample_pool rand pos genpassword_population (Z.to_nat k)),
        pos + Z.to_nat k).
Proof.
  intros Hk. unfold genpassword, random_sample.
  rewrite genpassword_population_length.
  destruct (Z.ltb_spec k 0); [lia|].
  destruct (Z.ltb_spec (Z.of_nat 57) k); [lia|]. reflexivity.
Qed.

Lemma genpassword_out_of_range (rand : nat -> nat) (pos : nat) (k : Z) :
  (k < 0 \/ 57 < k)%Z -> genpassword rand pos k = Raise ValueError.
Proof.
  intros Hk. unfold genpassword, random_sample.
  rewrite genpassword_population_length.
  destruct (Z.ltb_spec k 0); [reflexivity|].
  destruct (Z.ltb_spec (Z.of_nat 57) k); [reflexivity|lia].
Qed.

(** What [genpassword] really guarantees: any length from 0 to 57 gives that
    many pairwise distinct characters of its 57-character population. *)
Lemma genpassword_contract (rand : nat -> nat) (pos : nat) (k : Z) :
  (0 <= k <= 57)%Z ->
  exists pw, genpassword rand pos k = Ok (pw, pos + Z.to_nat k)
    /\ String.length pw = Z.to_nat k
    /\ NoDup (list_ascii_of_string pw)
    /\ (forall c, c ∈ list_ascii_of_string pw -> c ∈ genpassword_population).
Proof.
  intros Hk. eexists. split; [apply genpassword_in_range; exact Hk|].
  rewrite string_length_of_list, list_ascii_of_string_of_list_ascii.
  split; [|split].
  - apply sample_pool_length. rewrite genpassword_population_length. lia.
  - apply sample_pool_NoDup, genpassword_population_NoDup.
  - intros c. apply sample_pool_subset.
Qed.

(** ** The token pattern needs a dollar sign *)

Lemma match_atoms_lit_mismatch {R} (c a : ascii) (p : list Re.atom)
    (s : list ascii) (k : list ascii -> option R) :
  Ascii.eqb c a = false ->
  Re.match_atoms (Re.one (Re.Lit c) :: p) (a :: s) k = None.
Proof.
  intros Hne.
  cbn [Re.match_atoms Re.a_class Re.a_min Re.one Re.exactly Re.accepts].
  now rewrite Hne.
Qed.

Lemma search_from_genpass_no_dollar (s : list ascii) : forall before,
  "$"%char ∉ s -> Re.search_from genpass_re before s = None.
Proof.
  induction s as [|a s IH]; intros before Hno.
  - reflexivity.
  - cbn [Re.search_from].
    assert (Hat : Re.match_at genpass_re before (a :: s) = None).
    { unfold Re.match_at.
      change (Re.lookbehind genpass_re) with (@nil ascii).
      change (Re.body genpass_re)
        with (Re.one (Re.Lit "$"%char) :: tail (Re.body genpass_re)).
      cbn [rev Re.starts_with].
      apply match_atoms_lit_mismatch.
      destruct (Ascii.eqb_spec "$"%char a) as [<-|Hne]; [|reflexivity].
      exfalso. apply Hno. left. }
    rewrite Hat. apply IH. intros Hin. apply Hno. now right.
Qed.

Lemma search_genpass_no_dollar (s : string) :
  "$"%char ∉ list_ascii_of_string s -> Re.search genpass_re s = None.
Proof.
  intros Hno. unfold Re.search.
  now rewrite search_from_genpass_no_dollar.
Qed.

Lemma dollar_not_in_population : "$"%char ∉ genpassword_population.
Proof.
  intros Hin. apply (bool_decide_pack _) in Hin. vm_compute in Hin. exact Hin.
Qed.

Lemma search_genpass_password (rand : nat -> nat) (pos k : nat) :
  Re.search genpass_re
    (string_of_list_ascii (sample_pool rand pos genpassword_population k)) = None.
Proof.
  apply search_genpass_no_dollar.
  rewrite list_ascii_of_string_of_list_ascii.
  intros Hin%sample_pool_subset. exact (dollar_not_in_population Hin).
Qed.

(** ** The materializer *)

Section MaterializerFacts.

Variable rand : nat -> nat.

Lemma password_at_length (pos : nat) : String.length (password_at rand pos) = 8.
Proof.
  unfold password_at. rewrite string_length_of_list.
  apply sample_pool_length. rewrite genpassword_population_length. lia.
Qed.

Lemma for_range_fixed {S} (body : S -> result S) (s : S) (n : nat) :
  body s = Ok s -> for_range n body s = Ok s.
Proof.
  intros Hs. induction n as [|n IH]; [reflexivity|].
  cbn [for_range]. rewrite Hs. exact IH.
Qed.

Lemma genpass_step_plain (d : parmdict) (pos : nat) (v : string) :
  d !! "ParameterValue" = Some (JString v) ->
  Re.search genpass_re v = None ->
  genpass_step rand (d, pos) = Ok (d, pos).
Proof.
  intros Hv Hno. unfold genpass_step. now rewrite Hv, Hno.
Qed.

Lemma genpass_step_token (d : parmdict) (pos : nat) (v : string) :
  d !! "ParameterValue" = Some (JString v) ->
  is_match (Re.search genpass_re v) = true ->
  genpass_step rand (d, pos) =
    Ok (<["ParameterValue" := JString (password_at rand pos)]> d, pos + 8).
Proof.
  intros Hv Hm. unfold genpass_step. rewrite Hv, Hm.
  rewrite genpassword_in_range by lia. reflexivity.
Qed.

Lemma size_pos_of_lookup (d : parmdict) (k : string) (x : jvalue) :
  d !! k = Some x -> exists n, size d = S n.
Proof.
  intros Hk. destruct (size d) as [|n] eqn:Hsz; [|eauto].
  apply map_size_empty_iff in Hsz. subst d. now rewrite lookup_empty in Hk.
Qed.

Lemma materialize_entry_plain (d : parmdict) (pos : nat) (v : string) :
  d !! "ParameterValue" = Some (JString v) ->
  Re.search genpass_re v = None ->
  materialize_entry rand d pos = Ok (d, pos).
Proof.
  intros Hv Hno. unfold materialize_entry.
  apply for_range_fixed. eapply genpass_step_plain; eauto.
Qed.

(** Whatever the token says, the value becomes eight freshly drawn
    characters, and the later rounds of the key loop leave them alone. *)
Lemma materialize_entry_token (d : parmdict) (pos : nat) (v : string) :
  d !! "ParameterValue" = Some (JString v) ->
  is_match (Re.search genpass_re v) = true ->
  materialize_entry rand d pos =
    Ok (<["ParameterValue" := JString (password_at rand pos)]> d, pos + 8).
Proof.
  intros Hv Hm. unfold materialize_entry.
  destruct (size_pos_of_lookup _ _ _ Hv) as [n ->].
  cbn [for_range]. rewrite (genpass_step_token _ _ _ Hv Hm).
  change (for_range n (genpass_step rand)
            (<["ParameterValue" := JString (password_at rand pos)]> d, pos + 8) =
          Ok (<["ParameterValue" := JString (password_at rand pos)]> d, pos + 8)).
  apply for_range_fixed.
  eapply genpass_step_plain; [apply lookup_insert_eq|].
  apply search_genpass_password.
Qed.

Lemma materialize_entry_empty (pos : nat) :
  materialize_entry rand ∅ pos = Ok (∅, pos).
Proof. reflexivity. Qed.

Lemma materialize_entry_frame (d : parmdict) (pos : nat) :
  well_formed d ->
  exists d' pos', materialize_entry rand d pos = Ok (d', pos')
    /\ (forall k, k <> "ParameterValue" -> d' !! k = d !! k)
    /\ (~ has_token d -> d' = d /\ pos' = pos).
Proof.
  intros [->|[v Hv]].
  - exists ∅, pos. repeat split; auto using materialize_entry_empty.
  - destruct (Re.search genpass_re v) as [g|] eqn:Hs.
    + eexists _, _. split; [|split].
      * eapply materialize_entry_token; [exact Hv|now rewrite Hs].
      * intros k Hk. now rewrite lookup_insert_ne.
      * intros Hno. exfalso. apply Hno. exists v. now rewrite Hs.
    + exists d, pos. split; [|split]; try tauto.
      eapply materialize_entry_plain; eauto.
Qed.

(** The key loop gets through an entry only when it is well formed. *)
Lemma materialize_entry_ok_well_formed (d d' : parmdict) (pos pos' : nat) :
  materialize_entry rand d pos = Ok (d', pos') -> well_formed d.
Proof.
  unfold materialize_entry.
  destruct (size d) as [|n] eqn:Hsz.
  - intros _. left. apply map_size_empty_iff. exact Hsz.
  - cbn [for_range]. intros Hrun.
    destruct (d !! "ParameterValue") as [[v| | |]|] eqn:Hv;
      [right; now exists v|exfalso..];
      unfold genpass_step in Hrun; rewrite Hv in Hrun;
      cbn [mbind result_bind] in Hrun; discriminate.
Qed.

Lemma materialize_ok_well_formed (s_parms : list parmdict) :
  forall (pos pos' : nat) (out : list parmdict),
  materialize rand s_parms pos = Ok (out, pos') -> Forall well_formed s_parms.
Proof.
  induction s_parms as [|d rest IH]; intros pos pos' out Hrun; [constructor|].
  cbn [materialize] in Hrun.
  destruct (materialize_entry rand d pos) as [[d1 pos1]|e] eqn:Hd;
    [|discriminate].
  cbn in Hrun.
  destruct (materialize rand rest pos1) as [[rest1 pos2]|e] eqn:Hrest;
    [|discriminate].
  constructor.
  - eapply materialize_entry_ok_well_formed, Hd.
  - eapply IH, Hrest.
Qed.

End MaterializerFacts.

(** C8 (as amended). In a document whose entries all have a string under
    ['ParameterValue'] (or no field at all), the entries whose value does
    not match the token pattern come out of the materializer as they went
    in, key and value, and every entry keeps its position: the output has
    the length of the input, position by position all fields other than the
    value are those of the input, and an entry without a token is
    identical. *)
Theorem materialize_identity_on_plain_entries
    (rand : nat -> nat) (s_parms : list parmdict) : forall (pos : nat),
  Forall well_formed s_parms ->
  exists out pos', materialize rand s_parms pos = Ok (out, pos')
    /\ length out = length s_parms
    /\ forall (i : nat) (d : parmdict), s_parms !! i = Some d ->
         exists d', out !! i = Some d'
           /\ (forall k, k <> "ParameterValue" -> d' !! k = d !! k)
           /\ (~ has_token d -> d' = d).
Proof.
  induction s_parms as [|d rest IH]; intros pos Hwf.
  - exists [], pos. repeat split. intros i d Hi. now rewrite lookup_nil in Hi.
  - apply Forall_cons in Hwf as [Hd Hrest].
    destruct (materialize_entry_frame rand d pos Hd) as (d' & pos1 & He & Hk & Hv).
    destruct (IH pos1 Hrest) as (out & pos2 & Hm & Hlen & Hall).
    exists (d' :: out), pos2. cbn [materialize]. rewrite He. cbn.
    rewrite Hm. cbn. split; [reflexivity|]. split; [now rewrite Hlen|].
    intros [|i] e Hi; cbn in Hi.
    + injection Hi as <-. exists d'. repeat split; auto. intros Hno. now apply Hv.
    + apply Hall, Hi.
Qed.

Lemma materialize_identity_on_plain_entries_witness :
  exists out pos',
    materialize (fun n => 7 * n + 3)
      [entry "KeyName" "deploy"; entry "Pwd" "$[alpha_genpass_8]"] 0
      = Ok (out, pos')
    /\ length out = 2
    /\ forall (i : nat) (d : parmdict),
         [entry "KeyName" "deploy"; entry "Pwd" "$[alpha_genpass_8]"] !! i = Some d ->
         exists d', out !! i = Some d'
           /\ (forall k, k <> "ParameterValue" -> d' !! k = d !! k)
           /\ (~ has_token d -> d' = d).
Proof.
  apply (materialize_identity_on_plain_entries (fun n => 7 * n + 3)
           [entry "KeyName" "deploy"; entry "Pwd" "$[alpha_genpass_8]"] 0).
  apply Forall_cons; split; [right; eexists; vm_compute; reflexivity|].
  apply Forall_cons; split; [right; eexists; vm_compute; reflexivity|].
  apply Forall_nil. exact I.
Defined.

(** C8 (as stated) fails: an entry whose value is a number matches no
    token pattern, yet it does not pass through. [re.search] raises
    TypeError on it, no document is returned, and the plain entry beside it
    is lost with it. *)
Lemma numeric_value_stops_materialization :
  ~ has_token numeric_entry
  /\ ~ has_token (entry "KeyName" "deploy")
  /\ materialize (fun n => 7 * n + 3)
       [entry "KeyName" "deploy"; numeric_entry] 0 = Raise TypeError
  /\ ~ exists out pos',
        materialize (fun n => 7 * n + 3)
          [entry "KeyName" "deploy"; numeric_entry] 0 = Ok (out, pos').
Proof.
  assert (Hrun : materialize (fun n => 7 * n + 3)
                   [entry "KeyName" "deploy"; numeric_entry] 0 = Raise TypeError)
    by (vm_compute; reflexivity).
  split; [|split; [|split; [exact Hrun|]]].
  - intros (v & Hv & _). vm_compute in Hv. discriminate.
  - intros (v & Hv & Hm). vm_compute in Hv. injection Hv as <-.
    vm_compute in Hm. discriminate.
  - intros (out & pos' & Hok). rewrite Hrun in Hok. discriminate.
Qed.

(** The scenario of the specification: the plain entry is returned as it
    is, and the token of length 8 becomes 8 characters under the same key. *)
Example materialize_scenario :
  exists pw,
    materialize (fun n => 7 * n + 3)
      [entry "KeyName" "deploy"; entry "Pwd" "$[alpha_genpass_8]"] 0
      = Ok ([entry "KeyName" "deploy"; entry "Pwd" pw], 8)
    /\ String.length pw = 8.
Proof. eexists. split; vm_compute; reflexivity. Qed.

(** C1. At the token [$[alpha_genpass_12]], which asks for 12 characters,
    the materializer stores the value of [genpassword(8)]: the entry keeps
    its key and its value becomes a string of 8 characters, whatever the
    random draws are. *)
Theorem materialize_ignores_requested_length (rand : nat -> nat) (pos : nat) :
  exists d',
    materialize rand [entry "Pwd" "$[alpha_genpass_12]"] pos = Ok ([d'], pos + 8)
    /\ d' !! "ParameterKey" = Some (JString "Pwd")
    /\ d' !! "ParameterValue" = Some (JString (password_at rand pos))
    /\ String.length (password_at rand pos) = 8
    /\ Re.sub_nondigits "$[alpha_genpass_12]" = "12".
Proof.
  eexists. split; [|split; [|split; [|split]]].
  - cbn [materialize].
    rewrite (materialize_entry_token rand _ pos "$[alpha_genpass_12]");
      [reflexivity| |]; vm_compute; reflexivity.
  - rewrite lookup_insert_ne by discriminate. vm_compute. reflexivity.
  - apply lookup_insert_eq.
  - apply password_at_length.
  - vm_compute. reflexivity.
Qed.

(** C6. The population [genpassword] samples from has 57 characters, not 62:
    the digit 9 and the letters Z, x, y and z are missing, so every length
    from 58 to 62 raises ValueError for every state of the generator. *)
Theorem genpassword_population_is_short :
  length genpassword_population = 57
  /\ Forall (fun c => c ∉ genpassword_population) ["9"; "Z"; "x"; "y"; "z"]%char
  /\ forall (rand : nat -> nat) (pos : nat),
       Forall (fun k => genpassword rand pos k = Raise ValueError)
         [58; 59; 60; 61; 62]%Z.
Proof.
  split; [reflexivity|]. split.
  - repeat (apply Forall_cons; split;
      [intros Hin; apply (bool_decide_pack _) in Hin; vm_compute in Hin; exact Hin|]).
    now apply Forall_nil.
  - intros rand pos.
    repeat (apply Forall_cons; split; [apply genpassword_out_of_range; lia|]).
    now apply Forall_nil.
Qed.

(** ** Stack status polling *)

Section PollingFacts.

Variable describe_stacks : string -> string -> nat -> describe_response.

Lemma stackcheck_flag (stack : stackdata) (w : remote) :
  (stackcheck describe_stacks (StackId stack) w).1 !! 3%nat =
    PInt <$> answer_flag (answer describe_stacks stack (calls_made w (key_of stack))).
Proof.
  unfold stackcheck, answer, key_of, stack_key. cbn [fst snd].
  destruct (describe_stacks _ _ _) as [|[|st rest]]; reflexivity.
Qed.

Lemma stackcheck_world (stack : stackdata) (w : remote) :
  (stackcheck describe_stacks (StackId stack) w).2 =
    Remote (<[key_of stack := S (calls_made w (key_of stack))]> (calls w)) (slept w).
Proof.
  unfold stackcheck, key_of, stack_key.
  destruct (describe_stacks _ _ _); reflexivity.
Qed.

Lemma in_progress_flag_cases (st : option string) :
  (in_progress_flag st = 1%Z
     /\ (st = Some "CREATE_IN_PROGRESS" \/ st = Some "DELETE_IN_PROGRESS"))
  \/ (in_progress_flag st = 0%Z
     /\ st <> Some "CREATE_IN_PROGRESS" /\ st <> Some "DELETE_IN_PROGRESS").
Proof.
  destruct st as [s|]; cbn [in_progress_flag].
  - destruct (String.eqb_spec s "CREATE_IN_PROGRESS") as [->|Hc];
      [left; cbn; auto|].
    destruct (String.eqb_spec s "DELETE_IN_PROGRESS") as [->|Hd];
      [left; cbn; auto|].
    right. cbn. repeat split; congruence.
  - right. repeat split; discriminate.
Qed.

End PollingFacts.

(** C2 (as amended). The fourth cell of the list [stackcheck] returns, the
    contribution to the count of active stacks, is 1 exactly when the status
    of the described stack is the string CREATE_IN_PROGRESS or the string
    DELETE_IN_PROGRESS, and 0 for every other status. *)
Theorem stackcheck_counts_two_statuses
    (describe_stacks : string -> string -> nat -> describe_response)
    (stack_id : string) (w : remote) (st : option string)
    (others : list (option string)) :
  describe_stacks (regxfind region_re stack_id) (regxfind stack_name_re stack_id)
    (calls_made w (stack_key stack_id)) = DescribeStacks (st :: others) ->
  exists flag : Z,
    (stackcheck describe_stacks stack_id w).1 !! 3%nat = Some (PInt flag)
    /\ (stackcheck describe_stacks stack_id w).1 !! 2%nat = Some (status_cell st)
    /\ (flag = 1%Z \/ flag = 0%Z)
    /\ (flag = 1%Z <->
          st = Some "CREATE_IN_PROGRESS" \/ st = Some "DELETE_IN_PROGRESS").
Proof.
  intros Hd. exists (in_progress_flag st).
  unfold stackcheck, stack_key in *. rewrite Hd. cbn [fst flat_map].
  split; [reflexivity|]. split; [reflexivity|].
  destruct (in_progress_flag_cases st) as [[-> Hst]|[-> [Hc Hdl]]].
  - split; [now left|]. tauto.
  - split; [now right|]. split; [discriminate|]. tauto.
Qed.

Lemma stackcheck_counts_two_statuses_witness :
  exists flag : Z,
    (stackcheck (fun _ _ _ => DescribeStacks [Some "CREATE_IN_PROGRESS"])
       sample_stack_id (Remote ∅ 0)).1 !! 3%nat = Some (PInt flag)
    /\ (stackcheck (fun _ _ _ => DescribeStacks [Some "CREATE_IN_PROGRESS"])
       sample_stack_id (Remote ∅ 0)).1 !! 2%nat
         = Some (status_cell (Some "CREATE_IN_PROGRESS"))
    /\ (flag = 1%Z \/ flag = 0%Z)
    /\ (flag = 1%Z <->
          Some "CREATE_IN_PROGRESS" = Some "CREATE_IN_PROGRESS"
          \/ Some "CREATE_IN_PROGRESS" = Some "DELETE_IN_PROGRESS").
Proof.
  apply (stackcheck_counts_two_statuses
           (fun _ _ _ => DescribeStacks [Some "CREATE_IN_PROGRESS"])
           sample_stack_id (Remote ∅ 0) (Some "CREATE_IN_PROGRESS") []).
  reflexivity.
Defined.

(** C2 (as stated) fails: UPDATE_IN_PROGRESS contains IN_PROGRESS, and a
    stack in that status is reported with the flag 0. *)
Lemma update_in_progress_counts_as_terminal :
  str_contains "IN_PROGRESS" "UPDATE_IN_PROGRESS" = true
  /\ (stackcheck (fun _ _ _ => DescribeStacks [Some "UPDATE_IN_PROGRESS"])
        sample_stack_id (Remote ∅ 0)).1
     = [PStr "tCaT-tag-demo-ab12"; PStr "us-east-1";
        PStr "UPDATE_IN_PROGRESS"; PInt 0].
Proof. split; vm_compute; reflexivity. Qed.

Section LoopFacts.

Variable describe_stacks : string -> string -> nat -> describe_response.

Lemma while_active_idle (fuel : nat) (stackids : list stackdata) (speed active : Z)
    (done : nat) (w : remote) :
  (active <= 0)%Z ->
  while_active describe_stacks fuel stackids speed active done w =
    Some (Ok (PollEnd done active w)).
Proof.
  intros Ha. destruct fuel; cbn [while_active];
    destruct (Z.ltb_spec 0 active); (lia || reflexivity).
Qed.

Lemma while_active_empty (fuel : nat) : forall (speed active : Z) (done : nat) (w : remote),
  (0 < active)%Z ->
  while_active describe_stacks fuel [] speed active done w = None.
Proof.
  induction fuel as [|fuel IH]; intros speed active done w Ha; cbn [while_active];
    destruct (Z.ltb_spec 0 active); try lia; [reflexivity|].
  cbn [for_stacks]. now apply IH.
Qed.

End LoopFacts.

(** C10. With no tracked stack the polling loop does not end: the counter
    starts at 1 and only the body of the loop over the stacks assigns it, so
    whatever the fuel, [get_stackstatus] uses it up without returning. *)
Theorem get_stackstatus_empty_never_returns
    (describe_stacks : string -> string -> nat -> describe_response)
    (fuel : nat) (speed : Z) (w : remote) :
  get_stackstatus describe_stacks fuel [] speed w = None.
Proof. unfold get_stackstatus. now apply while_active_empty. Qed.

(** C3. The empty tracked set meets the premise of polling convergence for
    every bound [N], and the loop does not converge on it: no amount of fuel
    makes [get_stackstatus] return. *)
Theorem polling_does_not_converge_on_empty_set
    (describe_stacks : string -> string -> nat -> describe_response)
    (speed : Z) (w : remote) (N : nat) :
  settles_within describe_stacks [] N
  /\ always_answers describe_stacks []
  /\ ~ converges_within describe_stacks [] speed w N.
Proof.
  split; [|split].
  - intros stack Hin. inversion Hin.
  - intros stack Hin. inversion Hin.
  - intros (fuel & e & Hrun & _).
    unfold get_stackstatus in Hrun.
    rewrite while_active_empty in Hrun by lia. discriminate.
Qed.

(** ** Convergence of the polling loop on a non-empty tracked set *)

Section Convergence.

Variable describe_stacks : string -> string -> nat -> describe_response.
Variable speed : Z.

Lemma answer_flag_range (r : describe_response) (flag : Z) :
  answer_flag r = Some flag -> (0 <= flag <= 1)%Z.
Proof.
  destruct r as [|[|st rest]]; cbn [answer_flag]; intros [= <-]; try lia.
  destruct (in_progress_flag_cases st) as [[-> _]|[-> _]]; lia.
Qed.

Lemma calls_made_after_check (stack : stackdata) (w : remote) (k : string * string) :
  calls_made (sleep speed (stackcheck describe_stacks (StackId stack) w).2) k =
    if decide (k = key_of stack) then S (calls_made w k) else calls_made w k.
Proof.
  rewrite stackcheck_world. unfold sleep, calls_made. cbn [calls].
  destruct (decide (k = key_of stack)) as [->|Hne].
  - now rewrite lookup_insert_eq.
  - now rewrite lookup_insert_ne.
Qed.

(** One pass of the loop over the tracked stacks. *)
Lemma for_stacks_pass (l : list stackdata) : forall (cur act : Z) (w : remote),
  always_answers describe_stacks l ->
  exists cur' act' w',
    for_stacks describe_stacks l speed cur act w = Ok (cur', act', w')
    /\ (cur <= cur')%Z
    /\ (l <> [] \/ act = cur -> act' = cur')
    /\ (forall k, calls_made w k <= calls_made w' k)
    /\ (forall s, s ∈ l -> calls_made w (key_of s) < calls_made w' (key_of s))
    /\ ((forall s, s ∈ l -> forall n, calls_made w (key_of s) <= n ->
           terminal_answer (answer describe_stacks s n)) -> cur' = cur).
Proof.
  induction l as [|stack rest IH]; intros cur act w Hans.
  - exists cur, act, w. cbn [for_stacks]. repeat split; auto; try lia.
    + intros [Hne|Heq]; congruence.
    + intros s Hin. inversion Hin.
  - cbn [for_stacks].
    pose proof (stackcheck_flag describe_stacks stack w) as Hflag.
    pose proof (calls_made_after_check stack w) as Hcalls.
    destruct (stackcheck describe_stacks (StackId stack) w) as [query w1].
    cbn [fst snd] in Hflag, Hcalls.
    destruct (answer_flag (answer describe_stacks stack (calls_made w (key_of stack))))
      as [flag|] eqn:Hanswer;
      [|exfalso; eapply Hans; [left|exact Hanswer]].
    rewrite Hflag. cbn [fmap option_fmap option_map].
    pose proof (answer_flag_range _ _ Hanswer) as Hrange.
    destruct (IH (flag + cur)%Z (flag + cur)%Z (sleep speed w1)) as
      (cur' & act' & w' & Hrun & Hle & Hact & Hmono & Hstrict & Hterm).
    { intros s Hin. apply Hans. now right. }
    exists cur', act', w'. rewrite Hrun.
    assert (Hstep : forall k, calls_made w k <= calls_made (sleep speed w1) k).
    { intros k. rewrite Hcalls. destruct (decide _); lia. }
    split; [reflexivity|]. split; [lia|]. split; [auto|]. split; [|split].
    + intros k. specialize (Hmono k). specialize (Hstep k). lia.
    + intros s [->|Hin]%elem_of_cons.
      * specialize (Hmono (key_of stack)). rewrite Hcalls in Hmono.
        destruct (decide _); [lia|congruence].
      * specialize (Hstrict s Hin). specialize (Hstep (key_of s)). lia.
    + intros Hall.
      assert (flag = 0%Z) as ->.
      { assert (Ht : terminal_answer
                       (answer describe_stacks stack (calls_made w (key_of stack))))
          by (apply Hall; [left|lia]).
        unfold terminal_answer in Ht. congruence. }
      rewrite Hterm; [lia|].
      intros s Hin n Hn. apply Hall; [now right|].
      specialize (Hstep (key_of s)). lia.
Qed.

(** The loop from any iteration on: when every tracked stack has been
    described at least [p] times and [k] more iterations reach the bound. *)
Lemma while_active_converges (stackids : list stackdata) (N : nat) :
  stackids <> [] ->
  always_answers describe_stacks stackids ->
  settles_within describe_stacks stackids N ->
  forall (k p done : nat) (active : Z) (w : remote),
    1 <= k -> N <= p + k -> (0 < active)%Z ->
    (forall s, s ∈ stackids -> p <= calls_made w (key_of s)) ->
    exists e, passes e <= done + k /\ active_tests e = 0%Z
      /\ forall fuel, k <= fuel ->
           while_active describe_stacks fuel stackids speed active done w
             = Some (Ok e).
Proof.
  intros Hne Hans Hsettle.
  induction k as [|k IH]; intros p done active w Hk HN Hactive Hinv; [lia|].
  destruct (for_stacks_pass stackids 0%Z active w Hans) as
    (cur' & act' & w' & Hrun & Hle & Hact & Hmono & Hstrict & Hterm).
  rewrite (Hact (or_introl Hne)) in Hrun.
  assert (Hinv' : forall s, s ∈ stackids -> S p <= calls_made w' (key_of s)).
  { intros s Hin. specialize (Hinv s Hin). specialize (Hstrict s Hin). lia. }
  assert (Hunfold : forall fuel,
    while_active describe_stacks (S fuel) stackids speed active done w =
    while_active describe_stacks fuel stackids speed cur' (S done) w').
  { intros fuel. cbn [while_active].
    destruct (Z.ltb_spec 0 active); [|lia]. now rewrite Hrun. }
  destruct (Z.eq_dec cur' 0%Z) as [->|Hpos].
  - exists (PollEnd (S done) 0%Z w'). cbn [passes active_tests].
    split; [lia|]. split; [reflexivity|].
    intros [|fuel] Hfuel; [lia|].
    rewrite Hunfold. apply while_active_idle. lia.
  - destruct k as [|k].
    + exfalso. apply Hpos, Hterm.
      intros s Hin n Hn. apply Hsettle; [exact Hin|].
      specialize (Hinv s Hin). lia.
    + destruct (IH (S p) (S done) cur' w') as (e & Hpasses & Hzero & Hfuel);
        [lia|lia|lia|exact Hinv'|].
      exists e. split; [lia|]. split; [exact Hzero|].
      intros [|fuel] Hf; [lia|].
      rewrite Hunfold. apply Hfuel. lia.
Qed.

End Convergence.

(** Polling convergence on a non-empty tracked set: when no describe call
    answers with an empty list and every tracked stack answers with a
    terminal status from its [N]-th call on, [get_stackstatus] returns after
    at most [N] iterations with the counter at 0, for every fuel of at least
    [N]. *)
Theorem polling_converges_on_nonempty_set
    (describe_stacks : string -> string -> nat -> describe_response)
    (stackids : list stackdata) (speed : Z) (w : remote) (N : nat) :
  stackids <> [] -> 1 <= N ->
  always_answers describe_stacks stackids ->
  settles_within describe_stacks stackids N ->
  exists e, passes e <= N /\ active_tests e = 0%Z
    /\ forall fuel, N <= fuel ->
         get_stackstatus describe_stacks fuel stackids speed w = Some (Ok e).
Proof.
  intros Hne HN Hans Hsettle.
  destruct (while_active_converges describe_stacks speed stackids N Hne Hans Hsettle
              N 0 0 1%Z w) as (e & Hp & Hz & Hfuel); [lia|lia|lia|intros; lia|].
  exists e. split; [lia|]. split; [exact Hz|].
  intros fuel Hf. now apply Hfuel.
Qed.

Lemma polling_converges_on_nonempty_set_witness :
  exists e, passes e <= 3 /\ active_tests e = 0%Z
    /\ forall fuel, 3 <= fuel ->
         get_stackstatus completes_at_third_call fuel
           [StackData sample_stack_id] 5 (Remote ∅ 0) = Some (Ok e).
Proof.
  apply (polling_converges_on_nonempty_set completes_at_third_call
           [StackData sample_stack_id] 5 (Remote ∅ 0) 3).
  - discriminate.
  - lia.
  - intros stack _ n. unfold answer, completes_at_third_call.
    destruct (n <? 2)%nat; discriminate.
  - intros stack _ n Hn. unfold terminal_answer, answer, completes_at_third_call.
    destruct (Nat.ltb_spec n 2); [lia|reflexivity].
Defined.

(** The same run, evaluated: three iterations, three describe calls. *)
Example polling_three_rounds :
  match get_stackstatus completes_at_third_call 5 [StackData sample_stack_id] 5
          (Remote ∅ 0) with
  | Some (Ok e) =>
      (passes e, active_tests e, slept (world e),
       calls_made (world e) (stack_key sample_stack_id))
  | _ => (0, 1%Z, 0%Z, 0)
  end = (3, 0%Z, 15%Z, 3).
Proof. vm_compute. reflexivity. Qed.

(** A describe call that answers with an empty list of stacks makes
    [stackquery[3]] raise IndexError, which leaves the loop. *)
Example polling_empty_answer :
  get_stackstatus (fun _ _ _ => DescribeStacks []) 5 [StackData sample_stack_id] 5
    (Remote ∅ 0) = Some (Raise IndexError).
Proof. reflexivity. Qed.

(** ** The client cache *)

Section RetryFacts.

Import ClientFactory.

Variable constructor_fails : nat -> bool.
Variable env_access_key : option string.

Lemma session_client_cached (f : factory) (role region service s3v4 : string)
    (s : session) (b : boto) :
  _clients f !! role <> None ->
  role_entry (_clients f) role !! region <> None ->
  has_session f role region s ->
  session_client constructor_fails f role region service s3v4 b =
    new_client constructor_fails s service s3v4 b.
Proof.
  unfold has_session, region_entry, role_entry, session_client, getitem.
  intros Hrole Hregion Hs.
  destruct (_clients f !! role) as [rd|]; [|congruence]. cbn in Hregion, Hs.
  destruct (rd !! region) as [gd|]; [|congruence]. cbn in Hs.
  now rewrite Hs.
Qed.

Local Arguments session_client : simpl never.

Ltac next_attempt :=
  match goal with
  | |- context [constructor_fails ?n] =>
      destruct (constructor_fails n) eqn:?; cbn
  end.

Ltac settle_outcome :=
  eexists _, _; split; [reflexivity|]; unfold retry_outcome; cbn;
  repeat split; try lia; try (intros; discriminate); eauto;
  rewrite <- ?app_assoc, ?app_nil_r; reflexivity.

Lemma create_session_retries (fuel : nat) (f : factory) (region : string)
    (access_key secret_key session_token : option string) (b : boto) :
  logger f = true -> 4 <= fuel ->
  exists r b',
    _create_session constructor_fails env_access_key fuel f region access_key
      secret_key session_token b = Some (r, b')
    /\ retry_outcome b b' r (failures_in_a_row constructor_fails 4 (attempts b)).
Proof.
  intros Hlog Hfuel.
  do 4 (destruct fuel as [|fuel]; [lia|]). clear Hfuel.
  unfold _create_session. cbn [create_session_loop failures_in_a_row].
  unfold log_debug. rewrite Hlog.
  destruct (truthy access_key && truthy secret_key && truthy session_token);
    unfold new_session;
    (next_attempt; [|settle_outcome]);
    (next_attempt; [|settle_outcome]);
    (next_attempt; [|settle_outcome]);
    (next_attempt; settle_outcome).
Qed.

Lemma create_client_retries (fuel : nat) (f : factory)
    (role region service s3v4 : string) (s : session) (b : boto) :
  logger f = true -> 4 <= fuel ->
  _clients f !! role <> None ->
  role_entry (_clients f) role !! region <> None ->
  has_session f role region s ->
  exists r b',
    _create_client constructor_fails fuel f role region service s3v4 b
      = Some (r, b')
    /\ retry_outcome b b' r (failures_in_a_row constructor_fails 4 (attempts b)).
Proof.
  intros Hlog Hfuel Hrole Hregion Hs.
  do 4 (destruct fuel as [|fuel]; [lia|]). clear Hfuel.
  pose proof (session_client_cached f role region service s3v4 s) as Hcached.
  unfold _create_client. cbn [create_client_loop failures_in_a_row].
  unfold log_debug. rewrite Hlog.
  do 3 (rewrite Hcached by assumption; unfold new_client; cbn;
        next_attempt; [|settle_outcome]).
  rewrite Hcached by assumption; unfold new_client; cbn; next_attempt;
    settle_outcome.
Qed.

End RetryFacts.

(** C7. In a factory with a logger, building a session and building a client
    from the cached session each make at most 4 attempts: with [j] failures
    in a row from the first attempt on, [min (j+1) 4] constructor calls are
    made, the sleeps are the first [min j 3] of 5, 20 and 45 seconds (that
    is 5 times the square of the number of failures so far), the fourth
    failure is raised to the caller, and fewer failures give the object. *)
Theorem construction_is_retried_with_backoff
    (constructor_fails : nat -> bool) (env_access_key : option string)
    (fuel : nat) (f : ClientFactory.factory)
    (role region service s3v4 : string)
    (access_key secret_key session_token : option string)
    (s : ClientFactory.session) (b : ClientFactory.boto) :
  ClientFactory.logger f = true -> 4 <= fuel ->
  ClientFactory._clients f !! role <> None ->
  ClientFactory.role_entry (ClientFactory._clients f) role !! region <> None ->
  ClientFactory.has_session f role region s ->
  (exists r b',
     ClientFactory._create_session constructor_fails env_access_key fuel f
       region access_key secret_key session_token b = Some (r, b')
     /\ ClientFactory.retry_outcome b b' r
          (ClientFactory.failures_in_a_row constructor_fails 4
             (ClientFactory.attempts b)))
  /\ (exists r b',
     ClientFactory._create_client constructor_fails fuel f role region service
       s3v4 b = Some (r, b')
     /\ ClientFactory.retry_outcome b b' r
          (ClientFactory.failures_in_a_row constructor_fails 4
             (ClientFactory.attempts b)))
  /\ map ClientFactory.backoff [1; 2; 3] = [5; 20; 45]%Z.
Proof.
  intros Hlog Hfuel Hrole Hregion Hs. split; [|split].
  - now apply create_session_retries.
  - now apply (create_client_retries _ _ _ _ _ _ _ s).
  - reflexivity.
Qed.

Lemma construction_is_retried_with_backoff_witness :
  (exists r b',
     ClientFactory._create_session ClientFactory.fails_twice None 4
       ClientFactory.factory_with_session "us-east-1" None None None
       (ClientFactory.Boto 0 1 []) = Some (r, b')
     /\ ClientFactory.retry_outcome (ClientFactory.Boto 0 1 []) b' r
          (ClientFactory.failures_in_a_row ClientFactory.fails_twice 4 0))
  /\ (exists r b',
     ClientFactory._create_client ClientFactory.fails_twice 4
       ClientFactory.factory_with_session "default_role" "us-east-1" "s3"
       "default_sig_version" (ClientFactory.Boto 0 1 []) = Some (r, b')
     /\ ClientFactory.retry_outcome (ClientFactory.Boto 0 1 []) b' r
          (ClientFactory.failures_in_a_row ClientFactory.fails_twice 4 0))
  /\ map ClientFactory.backoff [1; 2; 3] = [5; 20; 45]%Z.
Proof.
  apply (construction_is_retried_with_backoff ClientFactory.fails_twice None 4
           ClientFactory.factory_with_session "default_role" "us-east-1" "s3"
           "default_sig_version" None None None ClientFactory.cached_session
           (ClientFactory.Boto 0 1 [])).
  - reflexivity.
  - lia.
  - vm_compute. discriminate.
  - vm_compute. discriminate.
  - vm_compute. reflexivity.
Defined.

(** Four failures in a row: three sleeps of 5, 20 and 45 seconds, then the
    error of the fourth attempt. *)
Example create_session_gives_up :
  ClientFactory._create_session (fun _ => true) None 4
    ClientFactory.factory_with_session "us-east-1" None None None
    (ClientFactory.Boto 0 1 [])
  = Some (Raise RemoteError, ClientFactory.Boto 4 1 [5; 20; 45]%Z).
Proof. reflexivity. Qed.

(** Two failures, then success on the third attempt. *)
Example create_client_third_attempt :
  ClientFactory._create_client ClientFactory.fails_twice 4
    ClientFactory.factory_with_session "default_role" "us-east-1" "s3"
    "default_sig_version" (ClientFactory.Boto 0 1 [])
  = Some (Ok (ClientFactory.Client 1 "s3" "default_sig_version"
                ClientFactory.cached_session),
          ClientFactory.Boto 3 2 [5; 20]%Z).
Proof. vm_compute. reflexivity. Qed.

(** No session in the cache: each of the four attempts ends in KeyError
    before any constructor is called, with the same sleeps in between. *)
Example create_client_without_session :
  ClientFactory._create_client ClientFactory.never_fails 4
    (ClientFactory.init true) "default_role" "us-east-1" "s3"
    "default_sig_version" (ClientFactory.Boto 0 0 [])
  = Some (Raise KeyError, ClientFactory.Boto 0 0 [5; 20; 45]%Z).
Proof. vm_compute. reflexivity. Qed.

(** Without a logger the handler itself raises: the first failure ends the
    loop with AttributeError and no sleep. *)
Example create_session_without_logger :
  ClientFactory._create_session (fun _ => true) None 4
    (ClientFactory.init false) "us-east-1" None None None
    (ClientFactory.Boto 0 0 [])
  = Some (Raise AttributeError, ClientFactory.Boto 1 0 []).
Proof. reflexivity. Qed.

(** C5. After a first [get] with the access key AK1, a second [get] for the
    same role, region, service and signature with the access key AK2 makes
    one constructor call, for a client: the cache still holds the session
    built with AK1, and the new client is built from that session. *)
Theorem changed_access_key_keeps_old_session :
  exists c1 f1 b1 c2 f2 b2 s,
    ClientFactory.get ClientFactory.never_fails None ∅ 4 (ClientFactory.init true)
      "s3" (Some "us-east-1") "default_role"
      (Some "AK1") (Some "SK1") (Some "T1") false (ClientFactory.Boto 0 0 [])
      = Some (Ok c1, f1, b1)
    /\ ClientFactory.get ClientFactory.never_fails None ∅ 4 f1
      "s3" (Some "us-east-1") "default_role"
      (Some "AK2") (Some "SK2") (Some "T2") false b1
      = Some (Ok c2, f2, b2)
    /\ ClientFactory.has_session f1 "default_role" "us-east-1" s
    /\ ClientFactory.has_session f2 "default_role" "us-east-1" s
    /\ ClientFactory.session_access_key s = Some "AK1"
    /\ ClientFactory.client_session c2 = s
    /\ ClientFactory.client_id c2 <> ClientFactory.client_id c1
    /\ ClientFactory.attempts b2 = ClientFactory.attempts b1 + 1.
Proof.
  do 7 eexists.
  split; [vm_compute; reflexivity|].
  split; [vm_compute; reflexivity|].
  split; [vm_compute; reflexivity|].
  split; [vm_compute; reflexivity|].
  split; [reflexivity|].
  split; [reflexivity|].
  split; [vm_compute; discriminate|reflexivity].
Qed.

Section CacheFacts.

Import ClientFactory.

Variable constructor_fails : nat -> bool.
Variable env_access_key : option string.
Variable environ : gmap string string.

(** A successful rebuild stores the client it returns under the requested
    role, region, service and signature. *)
Lemma rebuild_stores_client (fuel : nat) (f f1 : factory)
    (role region service s3v4 : string)
    (access_key secret_key session_token : option string) (b b1 : boto)
    (c : client) :
  rebuild constructor_fails env_access_key fuel f role region service s3v4
    access_key secret_key session_token b = Some (Ok c, f1, b1) ->
  logger f1 = true
  /\ exists (c0 : clients_dict) (m : gmap string client),
       _clients f1 = set_slot c0 role region service (SlotClients (<[s3v4 := c]> m)).
Proof.
  unfold rebuild, log_debug, set_clients. intros Hrun.
  destruct (logger f) eqn:Hlog; [|discriminate].
  repeat case_match; simplify_eq; cbn [logger _clients]; eauto.
Qed.

Lemma cached_after_store (f : factory) (c0 : clients_dict)
    (m : gmap string client) (role region service s3v4 : string)
    (access_key : option string) (c : client) :
  logger f = true ->
  _clients f = set_slot c0 role region service (SlotClients (<[s3v4 := c]> m)) ->
  credentials_unchanged f role region access_key ->
  cached f role region service s3v4 access_key = Ok c.
Proof.
  intros Hlog Hc Hcreds.
  assert (Hrole : _clients f !! role =
            Some (<[region := <[service := SlotClients (<[s3v4 := c]> m)]>
                                 (region_entry c0 role region)]> (role_entry c0 role)))
    by (rewrite Hc; apply lookup_insert_eq).
  unfold cached, log_debug, getitem. rewrite Hlog.
  cbn [mbind result_bind]. rewrite Hrole.
  cbn [mbind result_bind]. rewrite lookup_insert_eq.
  cbn [mbind result_bind]. rewrite lookup_insert_eq.
  cbn [mbind result_bind slot_getitem]. unfold getitem. rewrite lookup_insert_eq.
  cbn [mbind result_bind].
  destruct (truthy access_key) eqn:Hak; [|reflexivity].
  destruct Hcreds as [Hfalse|(s & Hs & Hkey)]; [congruence|].
  unfold has_session, region_entry, role_entry in Hs.
  rewrite Hrole in Hs. cbn [default from_option id] in Hs.
  rewrite lookup_insert_eq in Hs. cbn [default from_option id] in Hs.
  rewrite Hs. cbn [mbind result_bind]. rewrite Hkey.
  destruct access_key as [k|]; [|discriminate]. cbn [default from_option id].
  now rewrite String.eqb_refl.
Qed.

Lemma has_session_inv (f : factory) (role region : string) (s : session) :
  has_session f role region s ->
  exists rd gd, _clients f !! role = Some rd /\ rd !! region = Some gd
    /\ gd !! "session" = Some (SlotSession s).
Proof.
  unfold has_session, region_entry, role_entry.
  destruct (_clients f !! role) as [rd|]; cbn;
    [|rewrite !lookup_empty; cbn; rewrite lookup_empty; discriminate].
  destruct (rd !! region) as [gd|] eqn:Hr; cbn;
    [|rewrite lookup_empty; discriminate].
  intros H. exists rd, gd. auto.
Qed.

Lemma region_entry_set_slot (c : clients_dict) (role region key : string)
    (v : slot) :
  region_entry (set_slot c role region key v) role region =
    <[key := v]> (region_entry c role region).
Proof.
  unfold region_entry, role_entry, set_slot.
  rewrite lookup_insert_eq. cbn. now rewrite lookup_insert_eq.
Qed.

(** The handler builds a session only when none is cached: a cached session
    survives every rebuild. *)
Lemma rebuild_keeps_session (fuel : nat) (f f1 : factory)
    (role region service s3v4 : string)
    (access_key secret_key session_token : option string) (b b1 : boto)
    (r : result client) (s : session) :
  service <> "session" ->
  has_session f role region s ->
  rebuild constructor_fails env_access_key fuel f role region service s3v4
    access_key secret_key session_token b = Some (r, f1, b1) ->
  has_session f1 role region s.
Proof.
  intros Hsvc Hs Hrun.
  destruct (has_session_inv _ _ _ _ Hs) as (rd & gd & Hrole & Hregion & Hsess).
  unfold rebuild in Hrun.
  destruct (log_debug f); [|simplify_eq; done].
  assert (Hre : role_entry (_clients f) role = rd)
    by (unfold role_entry; now rewrite Hrole).
  cbv zeta in Hrun. rewrite Hrole in Hrun. cbv beta iota in Hrun.
  rewrite Hre, Hregion in Hrun. cbv beta iota in Hrun. rewrite ?Hre in Hrun.
  set (c3 := match rd !! service with
             | Some _ => _clients f
             | None => set_slot (_clients f) role region service (SlotClients ∅)
             end) in Hrun.
  assert (Hc3 : region_entry c3 role region !! "session" = Some (SlotSession s)).
  { subst c3. destruct (rd !! service); [exact Hs|].
    rewrite region_entry_set_slot, lookup_insert_ne; done. }
  rewrite Hc3 in Hrun.
  destruct (_create_client _ _ _ _ _ _ _ _) as [[[cl|e] b2]|]; simplify_eq.
  - cbn [_clients set_clients] in Hrun.
    destruct (region_entry c3 role region !! service) as [[s'|m]|];
      simplify_eq; try exact Hc3.
    unfold has_session. cbn [_clients set_clients].
    rewrite region_entry_set_slot, lookup_insert_ne; done.
  - exact Hc3.
Qed.

End CacheFacts.

(** Once a session is cached for a role and a region, no [get] replaces it,
    whatever access key is supplied. *)
Theorem get_never_replaces_session
    (constructor_fails : nat -> bool) (env_access_key : option string)
    (environ : gmap string string) (fuel : nat)
    (f f1 : ClientFactory.factory) (service role region : string)
    (region_arg access_key secret_key session_token : option string)
    (s3v4 : bool) (b b1 : ClientFactory.boto)
    (r : result ClientFactory.client) (s : ClientFactory.session) :
  service <> "session" ->
  ClientFactory.has_session f role region s ->
  ClientFactory.effective_region environ f region_arg = Ok region ->
  ClientFactory.get constructor_fails env_access_key environ fuel f service
    region_arg role access_key secret_key session_token s3v4 b
    = Some (r, f1, b1) ->
  ClientFactory.has_session f1 role region s.
Proof.
  intros Hsvc Hs Hregion. unfold ClientFactory.get. rewrite Hregion.
  destruct (ClientFactory.cached f role region service _ access_key) as [c|e].
  - now intros [= _ <- _].
  - destruct e; try (now intros [= _ <- _]).
    now apply rebuild_keeps_session.
Qed.

(** The cache hit of the client cache: when a [get] has returned a client
    and the credentials are unchanged, the same [get] again returns that
    very client and leaves the cache and the boto3 side as they are. *)
Theorem get_again_returns_cached_client
    (constructor_fails : nat -> bool) (env_access_key : option string)
    (environ : gmap string string) (fuel fuel' : nat)
    (f f1 : ClientFactory.factory) (service role region : string)
    (region_arg access_key secret_key session_token : option string)
    (s3v4 : bool) (b b1 : ClientFactory.boto) (c : ClientFactory.client) :
  ClientFactory.get constructor_fails env_access_key environ fuel f service
    region_arg role access_key secret_key session_token s3v4 b
    = Some (Ok c, f1, b1) ->
  ClientFactory.effective_region environ f region_arg = Ok region ->
  ClientFactory.credentials_unchanged f1 role region access_key ->
  ClientFactory.get constructor_fails env_access_key environ fuel' f1 service
    region_arg role access_key secret_key session_token s3v4 b1
    = Some (Ok c, f1, b1).
Proof.
  unfold ClientFactory.get. intros Hget Hregion Hcreds.
  rewrite Hregion in Hget.
  destruct (ClientFactory.cached f role region service _ access_key) as [c0|e] eqn:Hc.
  - injection Hget as -> -> ->. now rewrite Hregion, Hc.
  - assert (e = KeyError) as -> by (destruct e; congruence).
    destruct (rebuild_stores_client _ _ _ _ _ _ _ _ _ _ _ _ _ _ _ Hget)
      as (Hlog & c0 & m & Hstore).
    assert (Hregion' : ClientFactory.effective_region environ f1 region_arg = Ok region).
    { revert Hregion. unfold ClientFactory.effective_region, ClientFactory.log_debug.
      rewrite Hlog. destruct (ClientFactory.truthy region_arg); [auto|].
      destruct (ClientFactory.logger f); [auto|discriminate]. }
    rewrite Hregion'.
    now rewrite (cached_after_store f1 c0 m role region service _ access_key c).
Qed.

(** The same [get] twice: one session and one client are built, and the
    second call returns the client of the first. *)
Example same_get_twice :
  exists c f1 b1,
    ClientFactory.get ClientFactory.never_fails None ∅ 4 (ClientFactory.init true)
      "s3" (Some "us-east-1") "default_role"
      (Some "AK1") (Some "SK1") (Some "T1") false (ClientFactory.Boto 0 0 [])
      = Some (Ok c, f1, b1)
    /\ ClientFactory.get ClientFactory.never_fails None ∅ 4 f1
      "s3" (Some "us-east-1") "default_role"
      (Some "AK1") (Some "SK1") (Some "T1") false b1
      = Some (Ok c, f1, b1)
    /\ ClientFactory.attempts b1 = 2.
Proof.
  do 3 eexists. split; [vm_compute; reflexivity|].
  split; [vm_compute; reflexivity|reflexivity].
Qed.

(** ** The command line *)

(** C9 (as amended). When the command line can be read, asks neither for
    the help nor for the example configuration, and gives a profile together
    with an access key or a secret key, evaluating the arguments ends the
    program with the parser's error message and exit status 2, in the
    constructor already, and the trace up to there has no network call. *)
Theorem conflicting_credentials_are_rejected
    (argc : nat) (a : Cli.args) (self_verbose : bool) :
  argc <> 1 ->
  Cli.example_yaml a = false ->
  Cli.boto_profile a <> None ->
  Cli.aws_access_key a <> None \/ Cli.aws_secret_key a <> None ->
  exists message,
    Cli.interface argc (Cli.Given false a) self_verbose
      = ([Cli.ParserError message], Raise (SystemExit 2))
    /\ Cli.TaskCat_init argc (Cli.Given false a)
        = ([Cli.ParserError message], Raise (SystemExit 2))
    /\ Cli.main argc (Cli.Given false a)
        = ([Cli.ParserError message], Raise (SystemExit 2))
    /\ Cli.no_network (Cli.main argc (Cli.Given false a)).1.
Proof.
  intros Hargc Hex Hprofile Hkeys.
  assert (Hrun : forall v, Cli.interface argc (Cli.Given false a) v =
            ([Cli.ParserError
                "Cannot use boto profile -P (--boto_profile)with --aws_access_key or --aws_secret_key"],
             Raise (SystemExit 2))).
  { intros v. unfold Cli.interface. cbn [Cli.parse_args].
    destruct (Nat.eqb_spec argc 1) as [|_]; [contradiction|].
    rewrite Hex.
    destruct (Cli.boto_profile a); [|contradiction]. cbn [Cli.is_some].
    destruct (Cli.aws_access_key a), (Cli.aws_secret_key a);
      try reflexivity.
    destruct Hkeys; contradiction. }
  eexists. split; [apply Hrun|].
  unfold Cli.main, Cli.TaskCat_init. rewrite Hrun.
  repeat split; reflexivity.
Qed.

Lemma conflicting_credentials_are_rejected_witness :
  exists message,
    Cli.interface 5 (Cli.Given false Cli.conflicting) false
      = ([Cli.ParserError message], Raise (SystemExit 2))
    /\ Cli.TaskCat_init 5 (Cli.Given false Cli.conflicting)
      = ([Cli.ParserError message], Raise (SystemExit 2))
    /\ Cli.main 5 (Cli.Given false Cli.conflicting)
      = ([Cli.ParserError message], Raise (SystemExit 2))
    /\ Cli.no_network (Cli.main 5 (Cli.Given false Cli.conflicting)).1.
Proof.
  apply (conflicting_credentials_are_rejected 5 Cli.conflicting false).
  - lia.
  - reflexivity.
  - discriminate.
  - left. discriminate.
Defined.

(** C9 (as stated) fails: with the request for the example configuration on
    the same command line, the program prints the example and exits with
    status 0, and no error is reported. *)
Lemma conflicting_credentials_with_example_exit_zero :
  Cli.boto_profile Cli.conflicting_with_example <> None
  /\ Cli.aws_access_key Cli.conflicting_with_example <> None
  /\ Cli.main 6 (Cli.Given false Cli.conflicting_with_example) =
       ([Cli.Print "#An example: config.yml file to be used with <__name__> ";
         Cli.Print "<yaml_cfg>"], Raise (SystemExit 0)).
Proof. repeat split; (discriminate || reflexivity). Qed.

(** The same happens with the help option, [taskcat -P dev -A AKIA -h]: the
    parser prints the help and exits with status 0 before the credentials
    are compared. *)
Example conflicting_credentials_with_help_exit_zero :
  Cli.main 6 (Cli.Given true Cli.conflicting)
  = ([Cli.PrintHelp], Raise (SystemExit 0)).
Proof. reflexivity. Qed.

(** A line the parser cannot read ends with a usage error and status 2,
    whatever else is on it. *)
Example unreadable_command_line_exit_two (argc : nat) (message : string) :
  Cli.main argc (Cli.Rejected message)
  = ([Cli.ParserError message], Raise (SystemExit 2)).
Proof. reflexivity. Qed.

(** * Further properties *)

(** ** [genpassword] and the materializer *)

(** X1. [genpassword] returns only for the lengths 0 to 57, and then
    gives that many pairwise distinct characters of its population; for the
    lengths 6 to 57, for which [random.sample] selects from a pool, it uses
    exactly as many draws as the length; every other length raises
    ValueError. *)
Theorem genpassword_outcomes (rand : nat -> nat) (pos : nat) (k : Z) :
  match genpassword rand pos k with
  | Ok (pw, pos') =>
      (0 <= k <= 57)%Z
      /\ ((6 <= k)%Z -> pos' = pos + Z.to_nat k)
      /\ String.length pw = Z.to_nat k
      /\ NoDup (chars pw)
      /\ (forall c, c ∈ chars pw -> c ∈ genpassword_population)
  | Raise e => e = ValueError /\ (k < 0 \/ 57 < k)%Z
  end.
Proof.
  destruct (Z_le_dec 0 k) as [Hlo|Hlo]; [destruct (Z_le_dec k 57) as [Hhi|Hhi]|].
  - rewrite genpassword_in_range by lia. unfold chars.
    rewrite string_length_of_list, list_ascii_of_string_of_list_ascii.
    split; [lia|]. split; [reflexivity|]. split; [|split].
    + apply sample_pool_length. rewrite genpassword_population_length. lia.
    + apply sample_pool_NoDup, genpassword_population_NoDup.
    + intros c. apply sample_pool_subset.
  - rewrite genpassword_out_of_range by lia. split; [reflexivity|lia].
  - rewrite genpassword_out_of_range by lia. split; [reflexivity|lia].
Qed.

Section MoreMaterializerFacts.

Variable rand : nat -> nat.

Lemma has_token_b_spec (d : parmdict) : has_token_b d = true <-> has_token d.
Proof.
  unfold has_token_b, has_token. split.
  - destruct (d !! "ParameterValue") as [[v| | |]|]; try discriminate. eauto.
  - intros (v & -> & Hm). exact Hm.
Qed.

Lemma password_at_no_token (pos : nat) :
  Re.search genpass_re (password_at rand pos) = None.
Proof. apply search_genpass_password. Qed.

(** What the key loop makes of one entry. *)
Lemma materialize_entry_cases (d d' : parmdict) (pos pos' : nat) :
  materialize_entry rand d pos = Ok (d', pos') ->
  (has_token_b d = false /\ d' = d /\ pos' = pos)
  \/ (has_token_b d = true
      /\ d' = <["ParameterValue" := JString (password_at rand pos)]> d
      /\ pos' = pos + 8).
Proof.
  intros Hrun.
  destruct (materialize_entry_ok_well_formed rand _ _ _ _ Hrun) as [->|[v Hv]].
  - left. rewrite materialize_entry_empty in Hrun. injection Hrun as <- <-.
    repeat split.
  - unfold has_token_b. rewrite Hv.
    destruct (Re.search genpass_re v) as [g|] eqn:Hs; cbn [is_match].
    + right. rewrite (materialize_entry_token rand d pos v) in Hrun;
        [|exact Hv|now rewrite Hs].
      injection Hrun as <- <-. auto.
    + left. rewrite (materialize_entry_plain rand d pos v Hv Hs) in Hrun.
      injection Hrun as <- <-. auto.
Qed.

Lemma materialize_entry_result_plain (d d' : parmdict) (pos pos' : nat) :
  materialize_entry rand d pos = Ok (d', pos') -> has_token_b d' = false.
Proof.
  intros [(Hno & -> & _)|(_ & -> & _)]%materialize_entry_cases; [exact Hno|].
  unfold has_token_b. rewrite lookup_insert_eq.
  now rewrite password_at_no_token.
Qed.

Lemma materialize_entry_no_token (rand' : nat -> nat) (d : parmdict) (pos : nat) :
  well_formed d -> has_token_b d = false ->
  materialize_entry rand' d pos = Ok (d, pos).
Proof.
  intros [->|[v Hv]] Hno; [reflexivity|].
  apply (materialize_entry_plain rand' d pos v Hv).
  unfold has_token_b in Hno. rewrite Hv in Hno.
  now destruct (Re.search genpass_re v).
Qed.

Lemma materialize_entry_keeps_well_formed (d d' : parmdict) (pos pos' : nat) :
  materialize_entry rand d pos = Ok (d', pos') -> well_formed d'.
Proof.
  intros Hrun.
  pose proof (materialize_entry_ok_well_formed rand _ _ _ _ Hrun) as Hwf.
  apply materialize_entry_cases in Hrun as [(_ & -> & _)|(_ & -> & _)];
    [exact Hwf|].
  right. eexists. apply lookup_insert_eq.
Qed.

End MoreMaterializerFacts.

(** X2. An entry whose value contains a generation token, with or without
    text around it, gets its whole value replaced: the other fields stay,
    the new value has 8 pairwise distinct characters of the population of
    [genpassword] and is no token itself, and 8 draws are used. *)
Theorem materialize_entry_replaces_whole_value
    (rand : nat -> nat) (d : parmdict) (pos : nat) :
  has_token d ->
  exists pw,
    materialize_entry rand d pos = Ok (<["ParameterValue" := JString pw]> d, pos + 8)
    /\ String.length pw = 8
    /\ NoDup (chars pw)
    /\ (forall c, c ∈ chars pw -> c ∈ genpassword_population)
    /\ Re.search genpass_re pw = None.
Proof.
  intros (v & Hv & Hm). exists (password_at rand pos).
  split; [now apply (materialize_entry_token rand d pos v)|].
  split; [apply password_at_length|].
  unfold chars, password_at. rewrite list_ascii_of_string_of_list_ascii.
  split; [apply sample_pool_NoDup, genpassword_population_NoDup|].
  split; [intros c; apply sample_pool_subset|apply search_genpass_password].
Qed.

Lemma materialize_entry_replaces_whole_value_witness :
  exists pw,
    materialize_entry (fun n => 3 * n + 1)
      (entry "DbUrl" "db://admin:$[main_genpass_20]@host") 0
      = Ok (<["ParameterValue" := JString pw]>
              (entry "DbUrl" "db://admin:$[main_genpass_20]@host"), 0 + 8)
    /\ String.length pw = 8
    /\ NoDup (chars pw)
    /\ (forall c, c ∈ chars pw -> c ∈ genpassword_population)
    /\ Re.search genpass_re pw = None.
Proof.
  apply (materialize_entry_replaces_whole_value (fun n => 3 * n + 1)
           (entry "DbUrl" "db://admin:$[main_genpass_20]@host") 0).
  exists "db://admin:$[main_genpass_20]@host". split; vm_compute; reflexivity.
Defined.

(** X3. What the materializer returns holds no token any more, and running
    the materializer over it again, with any generator, returns it
    unchanged and uses no draw. *)
Theorem materialize_output_is_stable
    (rand : nat -> nat) (s_parms : list parmdict) :
  forall (pos pos' : nat) (out : list parmdict),
  materialize rand s_parms pos = Ok (out, pos') ->
  token_entries out = 0
  /\ forall (rand' : nat -> nat) (p : nat), materialize rand' out p = Ok (out, p).
Proof.
  induction s_parms as [|d rest IH]; intros pos pos' out Hrun.
  - injection Hrun as <- <-. split; [reflexivity|]. reflexivity.
  - cbn [materialize] in Hrun.
    destruct (materialize_entry rand d pos) as [[d1 pos1]|e] eqn:Hd;
      [|discriminate].
    cbn in Hrun.
    destruct (materialize rand rest pos1) as [[rest1 pos2]|e] eqn:Hrest;
      [|discriminate].
    cbn in Hrun. injection Hrun as <- <-.
    destruct (IH _ _ _ Hrest) as [Hcount Hagain].
    pose proof (materialize_entry_result_plain rand _ _ _ _ Hd) as Hplain.
    pose proof (materialize_entry_keeps_well_formed rand _ _ _ _ Hd) as Hwf.
    split.
    + unfold token_entries in *. rewrite filter_cons_False; [exact Hcount|].
      now rewrite Hplain.
    + intros rand' p. cbn [materialize].
      rewrite (materialize_entry_no_token rand' d1 p Hwf Hplain). cbn.
      rewrite Hagain. reflexivity.
Qed.

Lemma materialize_output_is_stable_witness :
  exists out pos',
    materialize (fun n => 7 * n + 3)
      [entry "KeyName" "deploy"; entry "Pwd" "$[alpha_genpass_8]"] 0
      = Ok (out, pos')
    /\ token_entries out = 0
    /\ forall (rand' : nat -> nat) (p : nat), materialize rand' out p = Ok (out, p).
Proof.
  eexists _, _. split; [vm_compute; reflexivity|].
  eapply (materialize_output_is_stable (fun n => 7 * n + 3)
           [entry "KeyName" "deploy"; entry "Pwd" "$[alpha_genpass_8]"] 0).
  vm_compute. reflexivity.
Defined.

(** X4. The materializer uses 8 draws for every entry that holds a token
    and none for the others, however many keys the entries have. *)
Theorem materialize_uses_eight_draws_per_token
    (rand : nat -> nat) (s_parms : list parmdict) :
  forall (pos pos' : nat) (out : list parmdict),
  materialize rand s_parms pos = Ok (out, pos') ->
  pos' = pos + 8 * token_entries s_parms /\ length out = length s_parms.
Proof.
  induction s_parms as [|d rest IH]; intros pos pos' out Hrun.
  - injection Hrun as <- <-. split; [cbn; lia|reflexivity].
  - cbn [materialize] in Hrun.
    destruct (materialize_entry rand d pos) as [[d1 pos1]|e] eqn:Hd;
      [|discriminate].
    cbn in Hrun.
    destruct (materialize rand rest pos1) as [[rest1 pos2]|e] eqn:Hrest;
      [|discriminate].
    cbn in Hrun. injection Hrun as <- <-.
    destruct (IH _ _ _ Hrest) as [-> Hlen].
    split; [|cbn; now rewrite Hlen].
    unfold token_entries in *.
    apply materialize_entry_cases in Hd as [(Hno & _ & ->)|(Hyes & _ & ->)].
    + rewrite filter_cons_False by now rewrite Hno. reflexivity.
    + rewrite filter_cons_True by exact Hyes. cbn [length]. lia.
Qed.

Lemma materialize_uses_eight_draws_per_token_witness :
  exists out pos',
    materialize (fun n => 7 * n + 3)
      [entry "A" "$[a_genpass_3]"; entry "KeyName" "deploy";
       entry "B" "x $[b_genpass_40] y"] 5
      = Ok (out, pos')
    /\ pos' = 5 + 8 * token_entries
                [entry "A" "$[a_genpass_3]"; entry "KeyName" "deploy";
                 entry "B" "x $[b_genpass_40] y"]
    /\ length out = 3.
Proof.
  eexists _, _. split; [vm_compute; reflexivity|].
  eapply (materialize_uses_eight_draws_per_token (fun n => 7 * n + 3)
           [entry "A" "$[a_genpass_3]"; entry "KeyName" "deploy";
            entry "B" "x $[b_genpass_40] y"] 5).
  vm_compute. reflexivity.
Defined.

Section MaterializerErrors.

Variable rand : nat -> nat.

Lemma materialize_entry_raises (d : parmdict) (pos : nat) (e : exn) :
  materialize_entry rand d pos = Raise e ->
  (e = KeyError \/ e = TypeError) /\ ~ well_formed d.
Proof.
  intros Hrun.
  assert (Hno : ~ well_formed d).
  { intros Hwf.
    destruct (materialize_entry_frame rand d pos Hwf) as (d' & pos' & Hok & _).
    congruence. }
  split; [|exact Hno].
  unfold materialize_entry in Hrun.
  destruct (size d) as [|n]; [discriminate|].
  cbn [for_range] in Hrun.
  destruct (genpass_step rand (d, pos)) as [st|e1] eqn:Hstep.
  - exfalso. apply Hno. right. unfold genpass_step in Hstep.
    destruct (d !! "ParameterValue") as [[v| | |]|]; try discriminate. eauto.
  - cbn [mbind result_bind] in Hrun. injection Hrun as <-.
    unfold genpass_step in Hstep.
    destruct (d !! "ParameterValue") as [[v| | |]|] eqn:Hv;
      [exfalso; apply Hno; right; eauto|..];
      injection Hstep as <-; auto.
Qed.

End MaterializerErrors.

(** X5. The materializer returns a document exactly when every entry is
    empty or has a string under ['ParameterValue']; otherwise it raises
    KeyError or TypeError. *)
Theorem materialize_returns_iff_well_formed
    (rand : nat -> nat) (s_parms : list parmdict) : forall (pos : nat),
  match materialize rand s_parms pos with
  | Ok _ => Forall well_formed s_parms
  | Raise e => (e = KeyError \/ e = TypeError) /\ ~ Forall well_formed s_parms
  end.
Proof.
  induction s_parms as [|d rest IH]; intros pos; [constructor|].
  cbn [materialize].
  destruct (materialize_entry rand d pos) as [[d1 pos1]|e] eqn:Hd.
  - cbn. specialize (IH pos1).
    pose proof (materialize_entry_ok_well_formed rand _ _ _ _ Hd) as Hwf.
    destruct (materialize rand rest pos1) as [[rest1 pos2]|e]; cbn.
    + now constructor.
    + destruct IH as [He Hno]. split; [exact He|].
      intros Hall. apply Hno. now apply Forall_cons in Hall as [_ ?].
  - cbn. destruct (materialize_entry_raises rand _ _ _ Hd) as [He Hno].
    split; [exact He|]. intros Hall. apply Hno.
    now apply Forall_cons in Hall as [? _].
Qed.

(** ** More on the polling loop *)

Section PollingAccounting.

Variable describe_stacks : string -> string -> nat -> describe_response.
Variable speed : Z.

Lemma answer_flag_none (r : describe_response) :
  answer_flag r = None -> r = DescribeStacks [].
Proof. destruct r as [|[|st rest]]; cbn; congruence. Qed.

(** One pass over the tracked stacks that does not raise. *)
Lemma for_stacks_accounting (l : list stackdata) :
  forall (cur act cur' act' : Z) (w w' : remote),
  for_stacks describe_stacks l speed cur act w = Ok (cur', act', w') ->
  (cur <= cur')%Z
  /\ (l <> [] \/ act = cur -> act' = cur')
  /\ slept w' = (slept w + speed * Z.of_nat (length l))%Z
  /\ forall k, calls_made w' k = calls_made w k + occurrences k l.
Proof.
  induction l as [|stack rest IH]; intros cur act cur' act' w w' Hrun.
  - cbn [for_stacks] in Hrun. injection Hrun as <- <- <-.
    split; [lia|]. split; [intros [?|?]; congruence|].
    split; [cbn; lia|]. intros k. cbn. lia.
  - cbn [for_stacks] in Hrun.
    pose proof (stackcheck_flag describe_stacks stack w) as Hflag.
    pose proof (calls_made_after_check describe_stacks speed stack w) as Hcalls.
    pose proof (stackcheck_world describe_stacks stack w) as Hworld.
    destruct (stackcheck describe_stacks (StackId stack) w) as [query w1].
    cbn [fst snd] in Hflag, Hcalls, Hworld.
    destruct (answer_flag (answer describe_stacks stack (calls_made w (key_of stack))))
      as [flag|] eqn:Hanswer; rewrite Hflag in Hrun;
      cbn [fmap option_fmap option_map] in Hrun; [|discriminate].
    pose proof (answer_flag_range _ _ Hanswer) as Hrange.
    destruct (IH _ _ _ _ _ _ Hrun) as (Hle & Hact & Hslept & Hcount).
    split; [lia|]. split; [auto|]. split.
    + rewrite Hslept. subst w1. cbn [sleep slept length]. lia.
    + intros k. rewrite Hcount, Hcalls. unfold occurrences.
      destruct (decide (k = key_of stack)) as [->|Hne].
      * rewrite filter_cons_True by reflexivity. cbn [length]. lia.
      * rewrite filter_cons_False by congruence. lia.
Qed.

Lemma for_stacks_raises (l : list stackdata) :
  forall (cur act : Z) (w : remote) (e : exn),
  for_stacks describe_stacks l speed cur act w = Raise e ->
  e = IndexError
  /\ exists stack n, stack ∈ l
       /\ answer describe_stacks stack n = DescribeStacks [].
Proof.
  induction l as [|stack rest IH]; intros cur act w e Hrun; [discriminate|].
  cbn [for_stacks] in Hrun.
  pose proof (stackcheck_flag describe_stacks stack w) as Hflag.
  destruct (stackcheck describe_stacks (StackId stack) w) as [query w1].
  cbn [fst] in Hflag.
  destruct (answer_flag (answer describe_stacks stack (calls_made w (key_of stack))))
    as [flag|] eqn:Hanswer; rewrite Hflag in Hrun;
    cbn [fmap option_fmap option_map] in Hrun.
  - destruct (IH _ _ _ _ Hrun) as (He & s & n & Hin & Hempty).
    split; [exact He|]. exists s, n. split; [now right|exact Hempty].
  - injection Hrun as <-. split; [reflexivity|].
    exists stack, (calls_made w (key_of stack)).
    split; [left|now apply answer_flag_none].
Qed.

Lemma while_active_accounting (stackids : list stackdata) (fuel : nat) :
  forall (active : Z) (done : nat) (w : remote) (e : poll_end),
  (0 < active)%Z ->
  while_active describe_stacks fuel stackids speed active done w = Some (Ok e) ->
  stackids <> [] /\ done < passes e /\ active_tests e = 0%Z
  /\ slept (world e)
     = (slept w + speed * Z.of_nat ((passes e - done) * length stackids))%Z
  /\ forall k, calls_made (world e) k
       = calls_made w k + (passes e - done) * occurrences k stackids.
Proof.
  induction fuel as [|fuel IH]; intros active done w e Hactive Hrun;
    cbn [while_active] in Hrun;
    destruct (Z.ltb_spec 0 active); try lia; [discriminate|].
  assert (Hne : stackids <> []).
  { intros ->. cbn [for_stacks] in Hrun.
    rewrite while_active_empty in Hrun by lia. discriminate. }
  destruct (for_stacks describe_stacks stackids speed 0 active w)
    as [[[cur' act'] w']|e'] eqn:Hpass; [|discriminate].
  destruct (for_stacks_accounting _ _ _ _ _ _ _ Hpass)
    as (Hle & Hact & Hslept & Hcount).
  rewrite (Hact (or_introl Hne)) in Hrun.
  destruct (Z.eq_dec cur' 0%Z) as [->|Hpos].
  - rewrite while_active_idle in Hrun by lia. injection Hrun as <-.
    cbn [passes active_tests world].
    split; [exact Hne|]. split; [lia|]. split; [reflexivity|].
    replace (S done - done) with 1 by lia. split.
    + rewrite Hslept. f_equal. f_equal. lia.
    + intros k. rewrite Hcount. lia.
  - destruct (IH cur' (S done) w' e) as (_ & Hlt & Hzero & Hs & Hc);
      [lia|exact Hrun|].
    split; [exact Hne|]. split; [lia|]. split; [exact Hzero|]. split.
    + rewrite Hs, Hslept.
      replace (passes e - done) with (S (passes e - S done)) by lia. lia.
    + intros k. rewrite Hc, Hcount.
      replace (passes e - done) with (S (passes e - S done)) by lia. lia.
Qed.

Lemma while_active_raises (stackids : list stackdata) (fuel : nat) :
  forall (active : Z) (done : nat) (w : remote) (e : exn),
  while_active describe_stacks fuel stackids speed active done w = Some (Raise e) ->
  e = IndexError
  /\ exists stack n, stack ∈ stackids
       /\ answer describe_stacks stack n = DescribeStacks [].
Proof.
  induction fuel as [|fuel IH]; intros active done w e Hrun;
    cbn [while_active] in Hrun;
    destruct (0 <? active)%Z; try discriminate.
  destruct (for_stacks describe_stacks stackids speed 0 active w)
    as [[[cur' act'] w']|e'] eqn:Hpass.
  - eapply IH, Hrun.
  - injection Hrun as <-. eapply for_stacks_raises, Hpass.
Qed.


End PollingAccounting.




(** X6. Whenever [get_stackstatus] returns, the tracked list is not empty,
    the loop has run at least once and ended with the counter at 0; every
    iteration has described every tracked stack again, terminal or not, and
    slept once per stack: [p] iterations over [n] stacks sleep
    [speed * p * n] seconds and describe a stack [p] times for each time it
    is listed. *)
Theorem get_stackstatus_accounting
    (describe_stacks : string -> string -> nat -> describe_response)
    (fuel : nat) (stackids : list stackdata) (speed : Z) (w : remote)
    (e : poll_end) :
  get_stackstatus describe_stacks fuel stackids speed w = Some (Ok e) ->
  stackids <> [] /\ 1 <= passes e /\ active_tests e = 0%Z
  /\ slept (world e)
     = (slept w + speed * Z.of_nat (passes e * length stackids))%Z
  /\ forall k, calls_made (world e) k
       = calls_made w k + passes e * occurrences k stackids.
Proof.
  intros Hrun. unfold get_stackstatus in Hrun.
  destruct (while_active_accounting describe_stacks speed stackids fuel
              1%Z 0 w e) as (Hne & Hlt & Hzero & Hs & Hc); [lia|exact Hrun|].
  rewrite Nat.sub_0_r in Hs.
  split; [exact Hne|]. split; [lia|]. split; [exact Hzero|].
  split; [exact Hs|]. intros k. rewrite Hc. now rewrite Nat.sub_0_r.
Qed.

Lemma get_stackstatus_accounting_witness :
  exists e,
    get_stackstatus completes_at_third_call 5
      [StackData sample_stack_id; StackData sample_stack_id] 4 (Remote ∅ 0)
      = Some (Ok e)
    /\ [StackData sample_stack_id; StackData sample_stack_id] <> []
    /\ 1 <= passes e /\ active_tests e = 0%Z
    /\ slept (world e)
       = (0 + 4 * Z.of_nat (passes e * 2))%Z
    /\ forall k, calls_made (world e) k
         = calls_made (Remote ∅ 0) k
           + passes e * occurrences k
               [StackData sample_stack_id; StackData sample_stack_id].
Proof.
  eexists. split; [vm_compute; reflexivity|].
  eapply (get_stackstatus_accounting completes_at_third_call 5
            [StackData sample_stack_id; StackData sample_stack_id] 4 (Remote ∅ 0)).
  vm_compute. reflexivity.
Defined.

Section EmptyAnswer.

Variable describe_stacks : string -> string -> nat -> describe_response.
Variable speed : Z.

Lemma for_stacks_app (l1 l2 : list stackdata) :
  forall (cur act : Z) (w : remote),
  for_stacks describe_stacks (l1 ++ l2) speed cur act w =
  match for_stacks describe_stacks l1 speed cur act w with
  | Ok (cur', act', w') => for_stacks describe_stacks l2 speed cur' act' w'
  | Raise e => Raise e
  end.
Proof.
  induction l1 as [|stack rest IH]; intros cur act w; [reflexivity|].
  cbn [app for_stacks].
  destruct (stackcheck describe_stacks (StackId stack) w) as [query w1].
  destruct (query !! 3%nat) as [[s| |flag]|]; try reflexivity. apply IH.
Qed.

Lemma for_stacks_empty_answer (stack : stackdata) (rest : list stackdata)
    (cur act : Z) (w : remote) :
  answer describe_stacks stack (calls_made w (key_of stack)) = DescribeStacks [] ->
  for_stacks describe_stacks (stack :: rest) speed cur act w = Raise IndexError.
Proof.
  intros Hempty. cbn [for_stacks].
  pose proof (stackcheck_flag describe_stacks stack w) as Hflag.
  destruct (stackcheck describe_stacks (StackId stack) w) as [query w1].
  cbn [fst] in Hflag. rewrite Hempty in Hflag. cbn in Hflag.
  now rewrite Hflag.
Qed.

End EmptyAnswer.

(** X7. An empty answer is an error, not a terminal state. When, in the
    first pass, the stacks before a tracked stack have answered and the
    describe call for this stack answers with an empty list under
    ['Stacks'], [stackcheck] returns an empty list, [stackquery[3]] raises
    IndexError and [get_stackstatus] passes it on to its caller, for a
    speed [time.sleep] accepts and whatever follows in the list. *)
Theorem empty_answer_raises_index_error
    (describe_stacks : string -> string -> nat -> describe_response)
    (fuel : nat) (before after : list stackdata) (stack : stackdata)
    (speed : Z) (w : remote) :
  (0 <= speed)%Z ->
  always_answers describe_stacks before ->
  answer describe_stacks stack
    (calls_made w (key_of stack) + occurrences (key_of stack) before)
    = DescribeStacks [] ->
  (stackcheck describe_stacks (StackId stack)
     (Remote (<[key_of stack :=
                  calls_made w (key_of stack) + occurrences (key_of stack) before]>
                (calls w)) (slept w))).1 = []
  /\ get_stackstatus describe_stacks (S fuel) (before ++ stack :: after) speed w
     = Some (Raise IndexError).
Proof.
  intros _ Hans Hempty. split.
  - revert Hempty. unfold answer, key_of, stack_key, stackcheck, calls_made.
    cbn [fst snd calls]. rewrite lookup_insert_eq. cbn [default from_option id].
    now intros ->.
  - unfold get_stackstatus. cbn [while_active].
    destruct (Z.ltb_spec 0 1); [|lia].
    rewrite for_stacks_app.
    destruct (for_stacks_pass describe_stacks speed before 0%Z 1%Z w Hans)
      as (cur' & act' & w' & Hrun & _).
    rewrite Hrun.
    destruct (for_stacks_accounting describe_stacks speed _ _ _ _ _ _ _ Hrun)
      as (_ & _ & _ & Hcalls).
    rewrite for_stacks_empty_answer; [reflexivity|].
    now rewrite Hcalls.
Qed.

Lemma empty_answer_raises_index_error_witness :
  (stackcheck sample_is_empty (StackId (StackData second_stack_id))
     (Remote (<[key_of (StackData second_stack_id) :=
                  calls_made (Remote ∅ 0) (key_of (StackData second_stack_id))
                  + occurrences (key_of (StackData second_stack_id))
                      [StackData sample_stack_id]]>
                (calls (Remote ∅ 0))) (slept (Remote ∅ 0)))).1 = []
  /\ get_stackstatus sample_is_empty 1
       ([StackData sample_stack_id]
          ++ StackData second_stack_id :: [StackData sample_stack_id])
       5 (Remote ∅ 0)
     = Some (Raise IndexError).
Proof.
  apply (empty_answer_raises_index_error sample_is_empty 0
           [StackData sample_stack_id] [StackData sample_stack_id]
           (StackData second_stack_id) 5 (Remote ∅ 0)).
  - lia.
  - intros s Hin%list_elem_of_singleton n. subst s. vm_compute. discriminate.
  - vm_compute. reflexivity.
Defined.

(** The same run, evaluated. *)
Example empty_answer_run :
  get_stackstatus sample_is_empty 1
    [StackData sample_stack_id; StackData second_stack_id;
     StackData sample_stack_id] 5 (Remote ∅ 0)
  = Some (Raise IndexError).
Proof. vm_compute. reflexivity. Qed.

(** ** More on the client cache *)

(** X9. A factory built without a logger cannot hand out any client: every
    [get] raises AttributeError at its first log call, before any lookup,
    and leaves the cache and the boto3 side as they are. *)
Theorem get_without_logger_raises
    (constructor_fails : nat -> bool) (env_access_key : option string)
    (environ : gmap string string) (fuel : nat) (f : ClientFactory.factory)
    (service role : string)
    (region access_key secret_key session_token : option string)
    (s3v4 : bool) (b : ClientFactory.boto) :
  ClientFactory.logger f = false ->
  ClientFactory.get constructor_fails env_access_key environ fuel f service
    region role access_key secret_key session_token s3v4 b
    = Some (Raise AttributeError, f, b).
Proof.
  intros Hlog.
  unfold ClientFactory.get, ClientFactory.effective_region,
    ClientFactory.cached, ClientFactory.log_debug.
  rewrite Hlog. now destruct (ClientFactory.truthy region).
Qed.

Lemma get_without_logger_raises_witness :
  ClientFactory.get ClientFactory.never_fails None ∅ 4 (ClientFactory.init false)
    "s3" (Some "us-west-2") "default_role" None None None false
    (ClientFactory.Boto 0 0 [])
    = Some (Raise AttributeError, ClientFactory.init false,
            ClientFactory.Boto 0 0 []).
Proof.
  apply (get_without_logger_raises ClientFactory.never_fails None ∅ 4
           (ClientFactory.init false) "s3" "default_role" (Some "us-west-2")
           None None None false (ClientFactory.Boto 0 0 [])).
  reflexivity.
Defined.

(** X10. Leaving the region out is the same as passing the value of
    AWS_DEFAULT_REGION: when the environment defines it, the two calls
    give the same result and the same state. *)
Theorem get_default_region_is_environment
    (constructor_fails : nat -> bool) (env_access_key : option string)
    (environ : gmap string string) (fuel : nat) (f : ClientFactory.factory)
    (service role region : string)
    (access_key secret_key session_token : option string)
    (s3v4 : bool) (b : ClientFactory.boto) :
  environ !! "AWS_DEFAULT_REGION" = Some region ->
  ClientFactory.get constructor_fails env_access_key environ fuel f service
    None role access_key secret_key session_token s3v4 b
  = ClientFactory.get constructor_fails env_access_key environ fuel f service
      (Some region) role access_key secret_key session_token s3v4 b.
Proof.
  intros Henv.
  unfold ClientFactory.get, ClientFactory.effective_region,
    ClientFactory.getitem.
  rewrite Henv. cbn [ClientFactory.truthy].
  destruct (negb (String.eqb region "")); [|reflexivity].
  cbn [default from_option id].
  unfold ClientFactory.log_debug at 1.
  destruct (ClientFactory.logger f) eqn:Hlog; cbn [mbind result_bind];
    [reflexivity|].
  unfold ClientFactory.cached, ClientFactory.log_debug. now rewrite Hlog.
Qed.

Lemma get_default_region_is_environment_witness :
  ClientFactory.get ClientFactory.never_fails None
    (<["AWS_DEFAULT_REGION" := "eu-west-1"]> ∅) 4 (ClientFactory.init true)
    "s3" None "default_role" None None None false (ClientFactory.Boto 0 0 [])
  = ClientFactory.get ClientFactory.never_fails None
      (<["AWS_DEFAULT_REGION" := "eu-west-1"]> ∅) 4 (ClientFactory.init true)
      "s3" (Some "eu-west-1") "default_role" None None None false
      (ClientFactory.Boto 0 0 []).
Proof.
  apply (get_default_region_is_environment ClientFactory.never_fails None
           (<["AWS_DEFAULT_REGION" := "eu-west-1"]> ∅) 4 (ClientFactory.init true)
           "s3" "default_role" "eu-west-1" None None None false
           (ClientFactory.Boto 0 0 [])).
  vm_compute. reflexivity.
Defined.

Section RetryBounds.

Import ClientFactory CacheVocabulary.

Variable constructor_fails : nat -> bool.
Variable env_access_key : option string.

Local Arguments session_client : simpl never.

Lemma seconds_app (l1 l2 : list Z) :
  seconds (l1 ++ l2) = (seconds l1 + seconds l2)%Z.
Proof. unfold seconds. induction l1 as [|x l1 IH]; cbn; [reflexivity|lia]. Qed.

Lemma seconds_of_backoffs (l : list Z) :
  l `prefix_of` backoffs -> (0 <= seconds l <= 70)%Z.
Proof.
  intros [k Hk]. unfold backoffs in Hk.
  destruct l as [|x1 [|x2 [|x3 [|x4 l]]]]; cbn in Hk; simplify_eq;
    unfold seconds; cbn; lia.
Qed.

Ltac try_attempt :=
  match goal with
  | |- context [constructor_fails ?n] =>
      destruct (constructor_fails n) eqn:?; cbn
  end.

Ltac settle_bounds :=
  eexists _, _, _; split; [reflexivity|]; cbn;
  split; [lia|];
  split; [first [symmetry; apply app_nil_r
                |rewrite <- ?app_assoc; reflexivity]|];
  eexists; cbn; reflexivity.

Lemma create_session_bounds (fuel : nat) (f : factory) (region : string)
    (access_key secret_key session_token : option string) (b : boto) :
  4 <= fuel ->
  exists r b' l,
    _create_session constructor_fails env_access_key fuel f region access_key
      secret_key session_token b = Some (r, b')
    /\ attempts b <= attempts b' <= attempts b + 4
    /\ sleeps b' = (sleeps b ++ l)%list
    /\ l `prefix_of` backoffs.
Proof.
  intros Hfuel. do 4 (destruct fuel as [|fuel]; [lia|]). clear Hfuel.
  unfold _create_session. cbn [create_session_loop].
  unfold log_debug.
  destruct (logger f);
    destruct (truthy access_key && truthy secret_key && truthy session_token);
    unfold new_session;
    (try_attempt; [|settle_bounds]); try settle_bounds;
    (try_attempt; [|settle_bounds]);
    (try_attempt; [|settle_bounds]);
    (try_attempt; settle_bounds).
Qed.

Lemma session_client_shape (f : factory) (role region service s3v4 : string) :
  (exists s, forall b,
     session_client constructor_fails f role region service s3v4 b
       = new_client constructor_fails s service s3v4 b)
  \/ (exists e, forall b,
     session_client constructor_fails f role region service s3v4 b
       = (Raise e, b)).
Proof.
  unfold session_client, getitem.
  destruct (_clients f !! role) as [rd|]; [|right; eauto].
  destruct (rd !! region) as [gd|]; [|right; eauto].
  destruct (gd !! "session") as [[s|m]|]; [left|right|right]; eauto.
Qed.

Lemma create_client_bounds (fuel : nat) (f : factory)
    (role region service s3v4 : string) (b : boto) :
  4 <= fuel ->
  exists r b' l,
    _create_client constructor_fails fuel f role region service s3v4 b
      = Some (r, b')
    /\ attempts b <= attempts b' <= attempts b + 4
    /\ sleeps b' = (sleeps b ++ l)%list
    /\ l `prefix_of` backoffs.
Proof.
  intros Hfuel. do 4 (destruct fuel as [|fuel]; [lia|]). clear Hfuel.
  unfold _create_client. cbn [create_client_loop]. unfold log_debug.
  destruct (session_client_shape f role region service s3v4)
    as [[s Hshape]|[e Hshape]].
  - destruct (logger f);
      (rewrite Hshape; unfold new_client; cbn; try_attempt; [|settle_bounds]);
      try settle_bounds;
      (rewrite Hshape; unfold new_client; cbn; try_attempt; [|settle_bounds]);
      (rewrite Hshape; unfold new_client; cbn; try_attempt; [|settle_bounds]);
      (rewrite Hshape; unfold new_client; cbn; try_attempt; settle_bounds).
  - destruct (logger f); rewrite Hshape; cbn; try settle_bounds.
    rewrite Hshape; cbn. rewrite Hshape; cbn. rewrite Hshape; cbn.
    settle_bounds.
Qed.

End RetryBounds.

Section RebuildFacts.

Import ClientFactory CacheVocabulary.

Variable constructor_fails : nat -> bool.
Variable env_access_key : option string.

Lemma role_entry_insert (c : clients_dict) (role : string) (rd : role_dict) :
  role_entry (<[role := rd]> c) role = rd.
Proof. unfold role_entry. now rewrite lookup_insert_eq. Qed.

Lemma role_entry_set_slot (c : clients_dict) (role region key : string) (v : slot) :
  role_entry (set_slot c role region key v) role =
    <[region := <[key := v]> (region_entry c role region)]> (role_entry c role).
Proof. apply role_entry_insert. Qed.

Lemma untouched_refl (c : clients_dict) (role region : string) :
  untouched_elsewhere c c role region.
Proof. split; auto. Qed.

Lemma untouched_trans (c1 c2 c3 : clients_dict) (role region : string) :
  untouched_elsewhere c1 c2 role region ->
  untouched_elsewhere c2 c3 role region ->
  untouched_elsewhere c1 c3 role region.
Proof.
  intros [H1 H2] [H3 H4]. split.
  - intros r Hr. now rewrite H3, H1.
  - intros g Hg. now rewrite H4, H2.
Qed.

Lemma untouched_set_slot (c : clients_dict) (role region key : string) (v : slot) :
  untouched_elsewhere c (set_slot c role region key v) role region.
Proof.
  split.
  - intros r Hr. unfold set_slot. now rewrite lookup_insert_ne.
  - intros g Hg. rewrite role_entry_set_slot. now rewrite lookup_insert_ne.
Qed.

Lemma untouched_prepare (c : clients_dict) (role region service : string) :
  untouched_elsewhere c (prepare c role region service) role region.
Proof.
  unfold prepare.
  set (c1 := match c !! role with
             | Some _ => c
             | None => <[role := ∅]> c
             end).
  assert (H1 : untouched_elsewhere c c1 role region).
  { subst c1. destruct (c !! role) eqn:Hrole; [apply untouched_refl|].
    split.
    - intros r Hr. now rewrite lookup_insert_ne.
    - intros g Hg. rewrite role_entry_insert. unfold role_entry.
      rewrite Hrole. cbn. now rewrite !lookup_empty. }
  cbv zeta.
  set (c2 := match role_entry c1 role !! region with
             | Some _ => c1
             | None => <[role := <[region := ∅]> (role_entry c1 role)]> c1
             end).
  assert (H2 : untouched_elsewhere c1 c2 role region).
  { subst c2. destruct (role_entry c1 role !! region); [apply untouched_refl|].
    split.
    - intros r Hr. now rewrite lookup_insert_ne.
    - intros g Hg. rewrite role_entry_insert. now rewrite lookup_insert_ne. }
  eapply untouched_trans; [exact H1|]. eapply untouched_trans; [exact H2|].
  destruct (role_entry c2 role !! service);
    [apply untouched_refl|apply untouched_set_slot].
Qed.

(** With [service] not among the keys of the role's dict, the third test
    of the handler puts an empty dict in place of whatever was cached for
    the service. *)
Lemma prepare_resets_service (c : clients_dict) (role region service : string) :
  role_entry c role !! service = None -> service <> region ->
  region_entry (prepare c role region service) role region !! service
    = Some (SlotClients ∅).
Proof.
  intros Hfree Hne. unfold prepare.
  set (c1 := match c !! role with
             | Some _ => c
             | None => <[role := ∅]> c
             end).
  assert (H1 : role_entry c1 role !! service = None).
  { subst c1. destruct (c !! role) eqn:Hrole; [exact Hfree|].
    rewrite role_entry_insert. apply lookup_empty. }
  cbv zeta.
  set (c2 := match role_entry c1 role !! region with
             | Some _ => c1
             | None => <[role := <[region := ∅]> (role_entry c1 role)]> c1
             end).
  assert (H2 : role_entry c2 role !! service = None).
  { subst c2. destruct (role_entry c1 role !! region); [exact H1|].
    rewrite role_entry_insert. now rewrite lookup_insert_ne. }
  rewrite H2. rewrite region_entry_set_slot. apply lookup_insert_eq.
Qed.

Lemma rebuild_unfold (fuel : nat) (f : factory) (role region service s3v4 : string)
    (access_key secret_key session_token : option string) (b : boto) :
  rebuild constructor_fails env_access_key fuel f role region service s3v4
    access_key secret_key session_token b =
  match log_debug f with
  | Raise e => Some (Raise e, f, b)
  | Ok _ =>
      let c := prepare (_clients f) role region service in
      let with_session : option (result unit * factory * boto) :=
        match region_entry c role region !! "session" with
        | None =>
            match _create_session constructor_fails env_access_key fuel
                    (set_clients f c) region access_key secret_key
                    session_token b with
            | None => None
            | Some (Ok s, b1) =>
                Some (Ok tt,
                      set_clients f (set_slot c role region "session" (SlotSession s)),
                      b1)
            | Some (Raise e, b1) => Some (Raise e, set_clients f c, b1)
            end
        | Some _ => Some (Ok tt, set_clients f c, b)
        end in
      match with_session with
      | None => None
      | Some (Raise e, f1, b1) => Some (Raise e, f1, b1)
      | Some (Ok _, f1, b1) =>
          match _create_client constructor_fails fuel f1 role region service
                  s3v4 b1 with
          | None => None
          | Some (Raise e, b2) => Some (Raise e, f1, b2)
          | Some (Ok client, b2) =>
              match region_entry (_clients f1) role region !! service with
              | None => Some (Raise KeyError, f1, b2)
              | Some (SlotSession _) => Some (Raise TypeError, f1, b2)
              | Some (SlotClients m) =>
                  Some (Ok client,
                        set_clients f1
                          (set_slot (_clients f1) role region service
                             (SlotClients (<[s3v4 := client]> m))),
                        b2)
              end
          end
      end
  end.
Proof. reflexivity. Qed.

(** The cache a rebuild leaves behind, whatever its result. *)
Lemma rebuild_state (fuel : nat) (f f1 : factory)
    (role region service s3v4 : string)
    (access_key secret_key session_token : option string) (b b1 : boto)
    (r : result client) :
  rebuild constructor_fails env_access_key fuel f role region service s3v4
    access_key secret_key session_token b = Some (r, f1, b1) ->
  logger f1 = logger f
  /\ (_clients f1 = _clients f
      \/ exists c4,
           (c4 = prepare (_clients f) role region service
            \/ exists s,
                 region_entry (prepare (_clients f) role region service)
                   role region !! "session" = None
                 /\ c4 = set_slot (prepare (_clients f) role region service)
                           role region "session" (SlotSession s))
           /\ (_clients f1 = c4
               \/ exists m cl,
                    r = Ok cl
                    /\ region_entry c4 role region !! service = Some (SlotClients m)
                    /\ _clients f1 = set_slot c4 role region service
                                       (SlotClients (<[s3v4 := cl]> m)))).
Proof.
  rewrite rebuild_unfold. unfold set_clients.
  set (P := prepare (_clients f) role region service).
  intros Hrun. cbv zeta in Hrun.
  repeat case_match; simplify_eq; cbn [logger _clients] in *;
    (split; [reflexivity|]); eauto 12.
Qed.

Lemma rebuild_ok_state (fuel : nat) (f f1 : factory)
    (role region service s3v4 : string)
    (access_key secret_key session_token : option string) (b b1 : boto)
    (cl : client) :
  rebuild constructor_fails env_access_key fuel f role region service s3v4
    access_key secret_key session_token b = Some (Ok cl, f1, b1) ->
  exists c4 m,
    (c4 = prepare (_clients f) role region service
     \/ exists s,
          region_entry (prepare (_clients f) role region service)
            role region !! "session" = None
          /\ c4 = set_slot (prepare (_clients f) role region service)
                    role region "session" (SlotSession s))
    /\ region_entry c4 role region !! service = Some (SlotClients m)
    /\ _clients f1 = set_slot c4 role region service
                       (SlotClients (<[s3v4 := cl]> m)).
Proof.
  rewrite rebuild_unfold. unfold set_clients.
  set (P := prepare (_clients f) role region service).
  intros Hrun. cbv zeta in Hrun.
  repeat case_match; simplify_eq; cbn [logger _clients] in *; eauto 12.
Qed.

End RebuildFacts.

Section GetFacts.

Import ClientFactory CacheVocabulary.

Variable constructor_fails : nat -> bool.
Variable env_access_key : option string.
Variable environ : gmap string string.

Ltac settle_leaf :=
  eexists _, _, _, [], []; split; [reflexivity|];
  split; [lia|]; split; [now rewrite !app_nil_r|];
  split; [apply prefix_nil|]; split; [apply prefix_nil|]; cbn; lia.

Lemma rebuild_bounds (fuel : nat) (f : factory)
    (role region service s3v4 : string)
    (access_key secret_key session_token : option string) (b : boto) :
  4 <= fuel ->
  exists r f1 b1 l1 l2,
    rebuild constructor_fails env_access_key fuel f role region service s3v4
      access_key secret_key session_token b = Some (r, f1, b1)
    /\ attempts b <= attempts b1 <= attempts b + 8
    /\ sleeps b1 = (sleeps b ++ l1 ++ l2)%list
    /\ l1 `prefix_of` backoffs /\ l2 `prefix_of` backoffs
    /\ (seconds (l1 ++ l2) <= 140)%Z.
Proof.
  intros Hfuel. rewrite rebuild_unfold.
  destruct (log_debug f); [|settle_leaf]. cbv zeta.
  set (P := prepare (_clients f) role region service).
  destruct (region_entry P role region !! "session") as [held|].
  - destruct (create_client_bounds constructor_fails fuel (set_clients f P)
                role region service s3v4 b Hfuel)
      as (r & b' & l & -> & Hatt & Hsl & Hpre).
    pose proof (seconds_of_backoffs _ Hpre) as Hsec.
    assert (Hgoal : forall (x : result client) (g : factory),
      exists r0 f1 b1 l1 l2,
        Some (x, g, b') = Some (r0, f1, b1)
        /\ attempts b <= attempts b1 <= attempts b + 8
        /\ sleeps b1 = (sleeps b ++ l1 ++ l2)%list
        /\ l1 `prefix_of` backoffs /\ l2 `prefix_of` backoffs
        /\ (seconds (l1 ++ l2) <= 140)%Z).
    { intros x g. exists x, g, b', [], l. split; [reflexivity|].
      split; [lia|]. split; [exact Hsl|].
      split; [apply prefix_nil|]. split; [exact Hpre|]. cbn [app]. lia. }
    destruct r as [cl|e]; [|apply Hgoal].
    destruct (region_entry (_clients (set_clients f P)) role region !! service)
      as [[s|m]|]; apply Hgoal.
  - destruct (create_session_bounds constructor_fails env_access_key fuel
                (set_clients f P) region access_key secret_key session_token
                b Hfuel)
      as (r & b' & l1 & -> & Hatt & Hsl & Hpre).
    pose proof (seconds_of_backoffs _ Hpre) as Hsec.
    destruct r as [s|e].
    + set (f' := set_clients f (set_slot P role region "session" (SlotSession s))).
      destruct (create_client_bounds constructor_fails fuel f'
                  role region service s3v4 b' Hfuel)
        as (r2 & b'' & l2 & -> & Hatt2 & Hsl2 & Hpre2).
      pose proof (seconds_of_backoffs _ Hpre2) as Hsec2.
      assert (Hgoal : forall (x : result client) (g : factory),
        exists r0 f1 b1 k1 k2,
          Some (x, g, b'') = Some (r0, f1, b1)
          /\ attempts b <= attempts b1 <= attempts b + 8
          /\ sleeps b1 = (sleeps b ++ k1 ++ k2)%list
          /\ k1 `prefix_of` backoffs /\ k2 `prefix_of` backoffs
          /\ (seconds (k1 ++ k2) <= 140)%Z).
      { intros x g. exists x, g, b'', l1, l2. split; [reflexivity|].
        split; [lia|]. split; [now rewrite Hsl2, Hsl, app_assoc|].
        split; [exact Hpre|]. split; [exact Hpre2|].
        rewrite seconds_app. lia. }
      destruct r2 as [cl|e]; [|apply Hgoal].
      destruct (region_entry (_clients f') role region !! service)
        as [[s'|m]|]; apply Hgoal.
    + exists (Raise e), (set_clients f P), b', l1, []. split; [reflexivity|].
      split; [lia|]. split; [now rewrite app_nil_r|].
      split; [exact Hpre|]. split; [apply prefix_nil|].
      rewrite app_nil_r. lia.
Qed.

Lemma get_bounds (fuel : nat) (f : factory) (service role : string)
    (region access_key secret_key session_token : option string)
    (s3v4 : bool) (b : boto) :
  4 <= fuel ->
  exists r f1 b1 l1 l2,
    get constructor_fails env_access_key environ fuel f service region role
      access_key secret_key session_token s3v4 b = Some (r, f1, b1)
    /\ attempts b <= attempts b1 <= attempts b + 8
    /\ sleeps b1 = (sleeps b ++ l1 ++ l2)%list
    /\ l1 `prefix_of` backoffs /\ l2 `prefix_of` backoffs
    /\ (seconds (l1 ++ l2) <= 140)%Z.
Proof.
  intros Hfuel. unfold get.
  destruct (effective_region environ f region) as [g|e]; [|settle_leaf].
  destruct (cached f role g service _ access_key) as [cl|e]; [settle_leaf|].
  destruct e; try settle_leaf. now apply rebuild_bounds.
Qed.

Lemma get_state (fuel : nat) (f f1 : factory) (service role region : string)
    (region_arg access_key secret_key session_token : option string)
    (s3v4 : bool) (b b1 : boto) (r : result client) :
  effective_region environ f region_arg = Ok region ->
  get constructor_fails env_access_key environ fuel f service region_arg role
    access_key secret_key session_token s3v4 b = Some (r, f1, b1) ->
  logger f1 = logger f
  /\ untouched_elsewhere (_clients f) (_clients f1) role region.
Proof.
  intros Hregion. unfold get. rewrite Hregion.
  destruct (cached f role region service _ access_key) as [cl|e].
  - intros [= _ <- _]. split; [reflexivity|apply untouched_refl].
  - destruct e; try (intros [= _ <- _]; split; [reflexivity|apply untouched_refl]).
    intros Hrun. apply rebuild_state in Hrun as [Hlog Hstate].
    split; [exact Hlog|].
    destruct Hstate as [->|(c4 & Hc4 & Hfinal)]; [apply untouched_refl|].
    assert (H4 : untouched_elsewhere (_clients f) c4 role region).
    { destruct Hc4 as [->|(s & _ & ->)]; [apply untouched_prepare|].
      eapply untouched_trans; [apply untouched_prepare|apply untouched_set_slot]. }
    destruct Hfinal as [->|(m & cl & _ & _ & ->)]; [exact H4|].
    eapply untouched_trans; [exact H4|apply untouched_set_slot].
Qed.

Lemma cached_key_error_has_logger (f : factory) (role region service s3v4 : string)
    (access_key : option string) :
  cached f role region service s3v4 access_key = Raise KeyError -> logger f = true.
Proof.
  unfold cached, log_debug. destruct (logger f); [reflexivity|discriminate].
Qed.

End GetFacts.

(** X11. With fuel for four iterations [get] always comes back, whatever
    the cache, the arguments and the failures of boto3: it makes at most 8
    constructor calls (4 for the session, 4 for the client) and its sleeps
    are a beginning of 5, 20, 45 seconds for the session followed by a
    beginning of 5, 20, 45 seconds for the client, at most 140 seconds. *)
Theorem get_returns_within_bounds
    (constructor_fails : nat -> bool) (env_access_key : option string)
    (environ : gmap string string) (fuel : nat) (f : ClientFactory.factory)
    (service role : string)
    (region access_key secret_key session_token : option string)
    (s3v4 : bool) (b : ClientFactory.boto) :
  4 <= fuel ->
  exists r f1 b1 l1 l2,
    ClientFactory.get constructor_fails env_access_key environ fuel f service
      region role access_key secret_key session_token s3v4 b = Some (r, f1, b1)
    /\ ClientFactory.attempts b <= ClientFactory.attempts b1
         <= ClientFactory.attempts b + 8
    /\ ClientFactory.sleeps b1 = (ClientFactory.sleeps b ++ l1 ++ l2)%list
    /\ l1 `prefix_of` CacheVocabulary.backoffs
    /\ l2 `prefix_of` CacheVocabulary.backoffs
    /\ (CacheVocabulary.seconds (l1 ++ l2) <= 140)%Z.
Proof. apply get_bounds. Qed.

Lemma get_returns_within_bounds_witness :
  exists r f1 b1 l1 l2,
    ClientFactory.get (fun _ => true) None ∅ 4 (ClientFactory.init true) "s3"
      (Some "us-east-1") "default_role" None None None false
      (ClientFactory.Boto 0 0 []) = Some (r, f1, b1)
    /\ 0 <= ClientFactory.attempts b1 <= 0 + 8
    /\ ClientFactory.sleeps b1 = ([] ++ l1 ++ l2)%list
    /\ l1 `prefix_of` CacheVocabulary.backoffs
    /\ l2 `prefix_of` CacheVocabulary.backoffs
    /\ (CacheVocabulary.seconds (l1 ++ l2) <= 140)%Z.
Proof.
  apply (get_returns_within_bounds (fun _ => true) None ∅ 4
           (ClientFactory.init true) "s3" "default_role" (Some "us-east-1")
           None None None false (ClientFactory.Boto 0 0 [])).
  lia.
Defined.

(** X12. A [get] for one role and region changes nothing that is cached
    under another role or under another region of the same role, whether
    it hits the cache, rebuilds or fails; the logger is kept. *)
Theorem get_leaves_other_regions_alone
    (constructor_fails : nat -> bool) (env_access_key : option string)
    (environ : gmap string string) (fuel : nat)
    (f f1 : ClientFactory.factory) (service role region : string)
    (region_arg access_key secret_key session_token : option string)
    (s3v4 : bool) (b b1 : ClientFactory.boto)
    (r : result ClientFactory.client) :
  ClientFactory.effective_region environ f region_arg = Ok region ->
  ClientFactory.get constructor_fails env_access_key environ fuel f service
    region_arg role access_key secret_key session_token s3v4 b
    = Some (r, f1, b1) ->
  ClientFactory.logger f1 = ClientFactory.logger f
  /\ CacheVocabulary.untouched_elsewhere (ClientFactory._clients f)
       (ClientFactory._clients f1) role region.
Proof. apply get_state. Qed.

Lemma get_leaves_other_regions_alone_witness :
  exists r f1 b1,
    ClientFactory.get ClientFactory.never_fails None ∅ 4
      ClientFactory.factory_with_session "s3" (Some "eu-west-1") "default_role"
      None None None false (ClientFactory.Boto 0 1 []) = Some (r, f1, b1)
    /\ ClientFactory.logger f1 = ClientFactory.logger ClientFactory.factory_with_session
    /\ CacheVocabulary.untouched_elsewhere
         (ClientFactory._clients ClientFactory.factory_with_session)
         (ClientFactory._clients f1) "default_role" "eu-west-1".
Proof.
  eexists _, _, _. split; [vm_compute; reflexivity|].
  eapply (get_leaves_other_regions_alone ClientFactory.never_fails None ∅ 4
            ClientFactory.factory_with_session _ "s3" "default_role" "eu-west-1"
            (Some "eu-west-1") None None None false (ClientFactory.Boto 0 1 [])).
  - reflexivity.
  - vm_compute. reflexivity.
Defined.

(** X13. A [get] that misses the cache empties the dict of the service
    before it stores the new client (the handler looks the service name up
    among the region names of the role): afterwards the dict of the service
    holds the returned client and nothing else, so a client cached for the
    other signature version of the same service is gone and the next [get]
    for it misses again. *)
Theorem get_miss_drops_other_clients_of_service
    (constructor_fails : nat -> bool) (env_access_key : option string)
    (environ : gmap string string) (fuel : nat)
    (f f1 : ClientFactory.factory) (service role region : string)
    (region_arg access_key secret_key session_token : option string)
    (s3v4 : bool) (b b1 : ClientFactory.boto) (cl : ClientFactory.client) :
  ClientFactory.effective_region environ f region_arg = Ok region ->
  ClientFactory.role_entry (ClientFactory._clients f) role !! service = None ->
  service <> region ->
  ClientFactory.cached f role region service
    (if s3v4 then "s3v4" else "default_sig_version") access_key
    = Raise KeyError ->
  ClientFactory.get constructor_fails env_access_key environ fuel f service
    region_arg role access_key secret_key session_token s3v4 b
    = Some (Ok cl, f1, b1) ->
  ClientFactory.region_entry (ClientFactory._clients f1) role region !! service
    = Some (ClientFactory.SlotClients
              {[ (if s3v4 then "s3v4" else "default_sig_version") := cl ]})
  /\ forall other key,
       other <> (if s3v4 then "s3v4" else "default_sig_version") ->
       ClientFactory.cached f1 role region service other key = Raise KeyError.
Proof.
  intros Hregion Hfree Hne Hmiss. unfold ClientFactory.get.
  rewrite Hregion, Hmiss. intros Hrun.
  pose proof (cached_key_error_has_logger _ _ _ _ _ _ Hmiss) as Hlog.
  pose proof (rebuild_state _ _ _ _ _ _ _ _ _ _ _ _ _ _ _ Hrun) as [Hlog1 _].
  apply rebuild_ok_state in Hrun as (c4 & m & Hc4 & Hm & Hfinal).
  pose proof (prepare_resets_service _ _ _ _ Hfree Hne) as Hreset.
  assert (m = ∅) as ->.
  { destruct Hc4 as [->|(s & Hnone & ->)]; [congruence|].
    rewrite region_entry_set_slot in Hm.
    rewrite lookup_insert_ne in Hm by (intros <-; congruence). congruence. }
  assert (Hslot :
    ClientFactory.region_entry (ClientFactory._clients f1) role region !! service
    = Some (ClientFactory.SlotClients
              {[ (if s3v4 then "s3v4" else "default_sig_version") := cl ]})).
  { rewrite Hfinal, region_entry_set_slot, lookup_insert_eq.
    now rewrite insert_empty. }
  split; [exact Hslot|].
  intros other key Hother.
  unfold ClientFactory.cached, ClientFactory.log_debug, ClientFactory.getitem.
  rewrite Hlog1, Hlog. cbn [mbind result_bind].
  rewrite Hfinal. unfold ClientFactory.set_slot at 1.
  rewrite lookup_insert_eq. cbn [mbind result_bind].
  rewrite lookup_insert_eq. cbn [mbind result_bind].
  rewrite lookup_insert_eq. cbn [mbind result_bind ClientFactory.slot_getitem].
  unfold ClientFactory.getitem.
  rewrite (lookup_insert_ne (∅ : gmap string ClientFactory.client) _ other cl)
    by (intros Heq; apply Hother; now rewrite Heq).
  now rewrite lookup_empty.
Qed.

Lemma get_miss_drops_other_clients_of_service_witness :
  exists c2 f2 b2,
    ClientFactory.get ClientFactory.never_fails None ∅ 4
      CacheVocabulary.after_first_get.1
      "s3" (Some "us-east-1") "default_role" None None None true
      CacheVocabulary.after_first_get.2
      = Some (Ok c2, f2, b2)
    /\ ClientFactory.region_entry (ClientFactory._clients f2)
         "default_role" "us-east-1" !! "s3"
       = Some (ClientFactory.SlotClients {[ "s3v4" := c2 ]})
    /\ forall other key, other <> "s3v4" ->
         ClientFactory.cached f2 "default_role" "us-east-1" "s3" other key
           = Raise KeyError.
Proof.
  eexists _, _, _. split; [vm_compute; reflexivity|].
  eapply (get_miss_drops_other_clients_of_service ClientFactory.never_fails
            None ∅ 4 CacheVocabulary.after_first_get.1 _ "s3" "default_role"
            "us-east-1" (Some "us-east-1") None None None true
            CacheVocabulary.after_first_get.2).
  - reflexivity.
  - vm_compute. reflexivity.
  - discriminate.
  - vm_compute. reflexivity.
  - vm_compute. reflexivity.
Defined.

(** ** Stack names and the stack id *)

Example sig_is_tCaT : sig = "tCaT".
Proof. reflexivity. Qed.

Section RegexFacts.

Lemma chars_app (s t : string) : chars (s ++ t) = (chars s ++ chars t)%list.
Proof.
  unfold chars. induction s as [|a s IH]; simpl; [reflexivity|].
  now rewrite IH.
Qed.

Lemma greedy_zero {R} (c : Re.cclass) (s : list ascii)
    (k : list ascii -> option R) :
  Re.greedy c (Some 0) s k = k s.
Proof. destruct s as [|a s]; cbn; [reflexivity|]. now rewrite andb_false_r. Qed.

Lemma match_atoms_one {R} (c : Re.cclass) (p : list Re.atom) (a : ascii)
    (s : list ascii) (k : list ascii -> option R) :
  Re.match_atoms (Re.one c :: p) (a :: s) k =
    if Re.accepts c a then Re.match_atoms p s k else None.
Proof.
  cbn [Re.match_atoms Re.one Re.a_class Re.a_min Re.exactly Re.extra Re.a_max].
  destruct (Re.accepts c a); [|reflexivity].
  cbn [Nat.sub]. exact (greedy_zero c s (fun s2 => Re.match_atoms p s2 k)).
Qed.

Lemma match_atoms_star {R} (c : Re.cclass) (p : list Re.atom)
    (s : list ascii) (k : list ascii -> option R) :
  Re.match_atoms (Re.star c :: p) s k =
    Re.greedy c None s (fun s2 => Re.match_atoms p s2 k).
Proof. reflexivity. Qed.

Lemma match_atoms_one_nil {R} (c : Re.cclass) (p : list Re.atom)
    (k : list ascii -> option R) :
  Re.match_atoms (Re.one c :: p) [] k = None.
Proof. reflexivity. Qed.

(** An unbounded greedy repetition falls back to the place where it
    started when the continuation fails everywhere further on. *)
Lemma greedy_fallback {R} (c : Re.cclass) (s : list ascii)
    (k : list ascii -> option R) :
  (forall x s', s = (x ++ s')%list -> x <> [] -> k s' = None) ->
  Re.greedy c None s k = k s.
Proof.
  induction s as [|a t IH]; intros Hnone; [reflexivity|].
  cbn [Re.greedy Re.allows Re.spend].
  destruct (Re.accepts c a); cbn [andb]; [|reflexivity].
  rewrite IH.
  - now rewrite (Hnone [a] t).
  - intros x s' -> Hx. apply (Hnone (a :: x) s'); [reflexivity|discriminate].
Qed.

(** It stops at the only place where the continuation succeeds. *)
Lemma greedy_unique {R} (c : Re.cclass) (s1 s2 : list ascii)
    (k : list ascii -> option R) (r : R) :
  Forall (fun a => Re.accepts c a = true) s1 ->
  k s2 = Some r ->
  (forall x s', s2 = (x ++ s')%list -> x <> [] -> k s' = None) ->
  Re.greedy c None (s1 ++ s2)%list k = Some r.
Proof.
  intros Hs1 Hk Hnone. induction Hs1 as [|a s1 Ha _ IH].
  - cbn [app]. now rewrite greedy_fallback.
  - cbn [app Re.greedy Re.allows Re.spend]. rewrite Ha. cbn [andb].
    now rewrite IH.
Qed.

Lemma starts_with_app (p q : list ascii) : Re.starts_with p (p ++ q)%list = true.
Proof.
  induction p as [|a p IH]; [reflexivity|].
  cbn. now rewrite Ascii.eqb_refl, IH.
Qed.

Lemma starts_with_head (a : ascii) (p before : list ascii) :
  (forall y rest, before = y :: rest -> y <> a) ->
  Re.starts_with (a :: p) before = false.
Proof.
  intros Hhead. destruct before as [|y rest]; [reflexivity|].
  cbn. destruct (Ascii.eqb_spec a y) as [->|_]; [|reflexivity].
  now destruct (Hhead y rest eq_refl).
Qed.

(** Positions at which no match starts are skipped. *)
Lemma search_from_skip (r : Re.regex) (pre : list ascii) :
  forall before s,
  (forall pre1 x pre2, pre = (pre1 ++ x :: pre2)%list ->
     Re.match_at r (rev pre1 ++ before)%list (x :: pre2 ++ s)%list = None) ->
  Re.search_from r before (pre ++ s)%list
    = Re.search_from r (rev pre ++ before)%list s.
Proof.
  induction pre as [|a pre IH]; intros before s Hnone; [reflexivity|].
  cbn [app Re.search_from].
  rewrite (Hnone [] a pre eq_refl : Re.match_at r before (a :: pre ++ s)%list = None).
  rewrite IH.
  - cbn [rev]. now rewrite <- app_assoc.
  - intros pre1 x pre2 ->.
    specialize (Hnone (a :: pre1) x pre2 eq_refl).
    cbn [rev] in Hnone. now rewrite <- app_assoc in Hnone.
Qed.

End RegexFacts.

Section StackNameFacts.

Lemma accepts_dot (a : ascii) : a <> newline -> Re.accepts Re.Dot a = true.
Proof.
  intros Hne. cbn [Re.accepts]. unfold Re.code.
  destruct (Nat.eqb_spec (nat_of_ascii a) 10) as [Heq|_]; [|reflexivity].
  exfalso. apply Hne. unfold newline. rewrite <- Heq.
  symmetry. apply ascii_nat_embedding.
Qed.

Lemma nonempty_last {A} (l : list A) :
  l <> [] -> exists l' z, l = (l' ++ [z])%list.
Proof.
  induction l as [|a l IH]; [congruence|]. intros _.
  destruct l as [|b l]; [exists [], a; reflexivity|].
  destruct IH as (l' & z & ->); [discriminate|].
  exists (a :: l'), z. reflexivity.
Qed.

(** The continuation of [.*] in [stack_name_re]: one more character, and
    then a slash ahead. *)
Lemma name_tail_none (t : list ascii) (y : ascii) :
  (forall h rest, t = h :: rest -> h <> "/"%char) ->
  Re.match_atoms [Re.one Re.Dot] (y :: t)
    (fun rest => if Re.starts_with (Re.lookahead stack_name_re) rest
                 then Some rest else None) = None.
Proof.
  intros Hhead. rewrite match_atoms_one.
  destruct (Re.accepts Re.Dot y); [|reflexivity].
  cbn [Re.match_atoms].
  change (Re.lookahead stack_name_re) with ["/"%char].
  now rewrite starts_with_head.
Qed.

Lemma name_match_at (before R' U : list ascii) (z : ascii) :
  Re.starts_with (rev (Re.lookbehind stack_name_re)) before = true ->
  Forall (fun a => Re.accepts Re.Dot a = true) R' ->
  Re.accepts Re.Dot z = true ->
  "/"%char ∉ U ->
  Re.match_at stack_name_re before
    ("t" :: "C" :: "a" :: "T" :: R' ++ z :: "/" :: U)%char%list
    = Some ("/"%char :: U).
Proof.
  intros Hbehind HR' Hz HU. unfold Re.match_at. rewrite Hbehind.
  change (Re.body stack_name_re)
    with [Re.one (Re.Lit "t"); Re.one (Re.Lit "C"); Re.one (Re.Lit "a");
          Re.one (Re.Lit "T"); Re.star Re.Dot; Re.one Re.Dot].
  rewrite !match_atoms_one. cbn [Re.accepts]. rewrite !Ascii.eqb_refl.
  rewrite match_atoms_star.
  apply greedy_unique; [exact HR'| |].
  - cbv beta. rewrite match_atoms_one, Hz. cbn [Re.match_atoms].
    change (Re.lookahead stack_name_re) with ["/"%char].
    cbn [Re.starts_with]. now rewrite Ascii.eqb_refl.
  - intros x s' Hsplit Hx.
    destruct x as [|x0 x']; [congruence|]. injection Hsplit as _ Hrest.
    destruct s' as [|y t]; [reflexivity|]. cbv beta.
    apply name_tail_none. intros h rest -> Hh. apply HU. subst h.
    destruct x' as [|x1 x'']; cbn [app] in Hrest.
    + injection Hrest as _ HU'. subst U. left.
    + injection Hrest as _ HU'. subst U. apply elem_of_app. right. right. left.
Qed.

Lemma search_from_stack_name (A R U : list ascii) :
  "/"%char ∉ A -> R <> [] -> newline ∉ R -> "/"%char ∉ U ->
  Re.search_from stack_name_re []
    (A ++ list_ascii_of_string ":stack/"
       ++ ("t" :: "C" :: "a" :: "T" :: R)%char ++ "/"%char :: U)%list
    = Some ("t" :: "C" :: "a" :: "T" :: R)%char.
Proof.
  intros HA HR Hnl HU.
  destruct (nonempty_last R HR) as (R' & z & ->).
  assert (Hdot : forall a, a ∈ (R' ++ [z])%list -> Re.accepts Re.Dot a = true).
  { intros a Ha. apply accepts_dot. intros ->. now apply Hnl. }
  rewrite app_assoc.
  rewrite search_from_skip.
  - rewrite app_nil_r.
    replace (("t" :: "C" :: "a" :: "T" :: R' ++ [z])%char ++ "/"%char :: U)%list
      with ("t" :: "C" :: "a" :: "T" :: R' ++ z :: "/" :: U)%char%list
      by (cbn [app]; now rewrite <- app_assoc).
    cbn [Re.search_from].
    rewrite name_match_at.
    + f_equal. cbn [length].
      replace (S (S (S (S (length (R' ++ z :: "/"%char :: U)))))
               - S (length U))
        with (length ("t" :: "C" :: "a" :: "T" :: R' ++ [z])%char%list)
        by (cbn [length]; rewrite !length_app; cbn [length]; lia).
      replace ("t" :: "C" :: "a" :: "T" :: R' ++ z :: "/" :: U)%char%list
        with (("t" :: "C" :: "a" :: "T" :: R' ++ [z])%char ++ "/"%char :: U)%list
        by (cbn [app]; now rewrite <- app_assoc).
      apply take_app_length.
    + rewrite rev_app_distr. apply starts_with_app.
    + apply Forall_forall. intros a Ha. apply Hdot, elem_of_app. now left.
    + apply Hdot, elem_of_app. right. left.
    + exact HU.
  - intros pre1 x pre2 Hsplit. rewrite app_nil_r.
    unfold Re.match_at.
    change (rev (Re.lookbehind stack_name_re))
      with ("/" :: "k" :: "c" :: "a" :: "t" :: "s" :: [":"])%char.
    rewrite starts_with_head; [reflexivity|].
    intros y rest Hrev ->.
    assert (Hin : "/"%char ∈ pre1).
    { apply list_elem_of_In, in_rev. rewrite Hrev. left. reflexivity. }
    change (list_ascii_of_string ":stack/")
      with ((":" :: "s" :: "t" :: "a" :: "c" :: ["k"])%char ++ ["/"%char])%list
      in Hsplit.
    rewrite app_assoc in Hsplit.
    destruct (nonempty_last (x :: pre2)) as (m & last & Hm); [discriminate|].
    rewrite Hm, app_assoc in Hsplit.
    apply app_inj_tail in Hsplit as [Hsplit _].
    assert (Hin' : "/"%char ∈ (A ++ (":" :: "s" :: "t" :: "a" :: "c" :: ["k"])%char)%list)
      by (rewrite Hsplit; apply elem_of_app; now left).
    apply elem_of_app in Hin' as [Hin'|Hin']; [now apply HA|].
    apply (bool_decide_pack _) in Hin'. vm_compute in Hin'. exact Hin'.
Qed.

End StackNameFacts.

(** X8. What [stackcheck] reads off a stack id is the name [stackcreate]
    made up: for a stack id of the form [<arn>:stack/<name>/<uuid>] with no
    slash in the ARN part and in the uuid, and a name built from a prefix,
    a test name and a run id without newlines, the stack name expression
    finds exactly that name, hence the describe call asks for it. *)
Theorem stackcheck_recovers_stack_name
    (arn_prefix sprefix test id uuid : string) :
  "/"%char ∉ chars arn_prefix ->
  "/"%char ∉ chars uuid ->
  newline ∉ chars sprefix -> newline ∉ chars test ->
  newline ∉ chars (first_four id) ->
  regxfind stack_name_re (stack_arn arn_prefix (stackname sprefix test id) uuid)
    = stackname sprefix test id.
Proof.
  intros Harn Huuid Hp Ht Hi.
  unfold regxfind, Re.search, stack_arn.
  fold (chars (arn_prefix ++ ":stack/" ++ stackname sprefix test id ++ "/" ++ uuid)).
  rewrite !chars_app.
  assert (Hname : chars (stackname sprefix test id) =
            ("t" :: "C" :: "a" :: "T" :: "-"%char ::
               chars sprefix ++ "-"%char :: chars test
               ++ "-"%char :: chars (first_four id))%char%list).
  { unfold stackname. rewrite !chars_app. reflexivity. }
  rewrite Hname.
  change (chars ":stack/") with (list_ascii_of_string ":stack/").
  change (chars "/" ++ chars uuid)%list with ("/"%char :: chars uuid).
  rewrite search_from_stack_name; [|exact Harn|discriminate| |exact Huuid].
  - cbn [fmap option_fmap option_map]. rewrite <- Hname. unfold chars.
    now rewrite string_of_list_ascii_of_string.
  - intros Hin. apply elem_of_cons in Hin as [Hin|Hin]; [discriminate|].
    apply elem_of_app in Hin as [Hin|Hin]; [now apply Hp|].
    apply elem_of_cons in Hin as [Hin|Hin]; [discriminate|].
    apply elem_of_app in Hin as [Hin|Hin]; [now apply Ht|].
    apply elem_of_cons in Hin as [Hin|Hin]; [discriminate|now apply Hi].
Qed.

Lemma stackcheck_recovers_stack_name_witness :
  regxfind stack_name_re
    (stack_arn "arn:aws:cloudformation:us-west-2:123456789012"
       (stackname "tag" "projectx-senario-1"
          "9f3ac2d1-7a55-4c1e-9d2e-0b6f5a4e3d21")
       "51af3dc0-da77-11e4-872e-1234567db123")
  = stackname "tag" "projectx-senario-1" "9f3ac2d1-7a55-4c1e-9d2e-0b6f5a4e3d21".
Proof.
  apply (stackcheck_recovers_stack_name
           "arn:aws:cloudformation:us-west-2:123456789012" "tag"
           "projectx-senario-1" "9f3ac2d1-7a55-4c1e-9d2e-0b6f5a4e3d21"
           "51af3dc0-da77-11e4-872e-1234567db123");
    intros Hin; apply (bool_decide_pack _) in Hin; vm_compute in Hin; exact Hin.
Defined.

(** The name of that example, and the region [stackcheck] reads off the
    same stack id. *)
Example stackname_example :
  stackname "tag" "projectx-senario-1" "9f3ac2d1-7a55-4c1e-9d2e-0b6f5a4e3d21"
    = "tCaT-tag-projectx-senario-1-9f3a"
  /\ regxfind region_re
       (stack_arn "arn:aws:cloudformation:us-west-2:123456789012"
          "tCaT-tag-projectx-senario-1-9f3a"
          "51af3dc0-da77-11e4-872e-1234567db123") = "us-west-2".
Proof. split; vm_compute; reflexivity. Qed.

(** ** The command line, once more *)

(** X14. [main] of tcat.py never gets to the credentials check: for every
    command line it ends with an exception, the exit of the argument
    handling with status 0 or 2 or the TypeError of calling the namespace,
    and it issues no network call. *)
Theorem main_never_reaches_the_network (argc : nat) (c : Cli.command_line) :
  Cli.no_network (Cli.main argc c).1
  /\ ((Cli.main argc c).2 = Raise (SystemExit 0)
      \/ (Cli.main argc c).2 = Raise (SystemExit 2)
      \/ (Cli.main argc c).2 = Raise TypeError).
Proof.
  unfold Cli.main, Cli.TaskCat_init, Cli.interface, Cli.no_network.
  destruct c as [message|[|] a]; cbn [Cli.parse_args]; [cbn; auto..|].
  destruct (argc =? 1)%nat; [cbn; auto|].
  destruct (Cli.example_yaml a); [cbn; auto|].
  destruct (Cli.boto_profile a); cbn [Cli.is_some];
    [destruct (Cli.aws_access_key a), (Cli.aws_secret_key a)|]; cbn; auto.
Qed.

(** ** The configuration file *)

Section ConfigFacts.

Import Config.

Lemma mem_spec (k : string) (l : list string) : mem k l = true <-> k ∈ l.
Proof.
  unfold mem. rewrite existsb_exists. split.
  - intros (x & Hin & Heq). apply String.eqb_eq in Heq as ->.
    now apply list_elem_of_In.
  - intros Hin. exists k. split; [now apply list_elem_of_In|apply String.eqb_refl].
Qed.

Lemma for_each_ok {A} (l : list A) (body : A -> result unit) :
  for_each l body = Ok tt <-> forall x, x ∈ l -> body x = Ok tt.
Proof.
  induction l as [|a l IH]; cbn [for_each].
  - split; [intros _ x Hx; inversion Hx|reflexivity].
  - destruct (body a) as [[]|e] eqn:Ha; cbn [mbind result_bind].
    + rewrite IH. split.
      * intros Hall x [->|Hx]%elem_of_cons; auto.
      * intros Hall x Hx. apply Hall. now right.
    + split; [discriminate|]. intros Hall.
      specialize (Hall a (list_elem_of_here _ _)). congruence.
Qed.

Lemma for_each_raise {A} (l : list A) (body : A -> result unit) (e : exn) :
  for_each l body = Raise e -> exists x, x ∈ l /\ body x = Raise e.
Proof.
  induction l as [|a l IH]; cbn [for_each]; [discriminate|].
  destruct (body a) as [[]|e'] eqn:Ha; cbn [mbind result_bind].
  - intros (x & Hx & Hb)%IH. exists x. split; [now right|exact Hb].
  - intros [= ->]. exists a. split; [left|exact Ha].
Qed.

Lemma check_global_key_raise (cfg : yaml) (key : string) (e : exn) :
  check_global_key cfg key = Raise e -> exits_with_one e.
Proof.
  unfold check_global_key, subscript, keys, exits_with_one.
  intros Hrun n ->.
  repeat (case_match; cbn [mbind result_bind] in Hrun; simplify_eq);
    try reflexivity.
Qed.

Lemma check_test_key_raise (cfg : yaml) (defined key : string) (e : exn) :
  check_test_key cfg defined key = Raise e -> exits_with_one e.
Proof.
  unfold check_test_key, subscript, keys, exits_with_one.
  intros Hrun n ->.
  repeat (case_match; cbn [mbind result_bind] in Hrun; simplify_eq);
    try reflexivity.
Qed.

Lemma check_test_raise (cfg : yaml) (defined : string) (e : exn) :
  check_test cfg defined = Raise e -> exits_with_one e.
Proof.
  unfold check_test. intros Hrun.
  destruct (subscript cfg "tests") as [tests|e1] eqn:Ht;
    cbn [mbind result_bind] in Hrun;
    [|injection Hrun as <-; intros n ->; unfold subscript in Ht;
      repeat case_match; simplify_eq].
  destruct (subscript tests defined) as [t|e1] eqn:Hd;
    cbn [mbind result_bind] in Hrun;
    [|injection Hrun as <-; intros n ->; unfold subscript in Hd;
      repeat case_match; simplify_eq].
  destruct (keys t) as [parms|e1] eqn:Hk;
    cbn [mbind result_bind] in Hrun;
    [|injection Hrun as <-; intros n ->; unfold keys in Hk;
      repeat case_match; simplify_eq].
  apply for_each_raise in Hrun as (_ & _ & Hrun).
  apply for_each_raise in Hrun as (key & _ & Hrun).
  eapply check_test_key_raise, Hrun.
Qed.

Lemma check_config_raise (cfg : yaml) (e : exn) :
  check_config cfg = Raise e -> exits_with_one e.
Proof.
  unfold check_config. intros Hrun.
  destruct (for_each required_global_keys (check_global_key cfg))
    as [[]|e1] eqn:Hg; cbn [mbind result_bind] in Hrun.
  - destruct (subscript cfg "tests") as [tests|e1] eqn:Ht;
      cbn [mbind result_bind] in Hrun;
      [|injection Hrun as <-; intros n ->; unfold subscript in Ht;
        repeat case_match; simplify_eq].
    destruct (keys tests) as [names|e1] eqn:Hk;
      cbn [mbind result_bind] in Hrun;
      [|injection Hrun as <-; intros n ->; unfold keys in Hk;
        repeat case_match; simplify_eq].
    destruct (for_each names (check_test cfg)) as [[]|e1] eqn:Hn;
      cbn [mbind result_bind] in Hrun; [discriminate|].
    injection Hrun as <-.
    apply for_each_raise in Hn as (name & _ & Hn).
    eapply check_test_raise, Hn.
  - injection Hrun as <-.
    apply for_each_raise in Hg as (key & _ & Hg).
    eapply check_global_key_raise, Hg.
Qed.

Lemma check_global_key_ok (top : list (string * yaml)) (key : string) :
  check_global_key (YMap top) key = Ok tt <->
  exists g, assoc "global" top = Some (YMap g) /\ key ∈ map fst g.
Proof.
  unfold check_global_key, subscript, keys.
  destruct (assoc "global" top) as [[| | | | |g]|]; cbn [mbind result_bind];
    try (split; [discriminate|intros (g' & [=] & _)]).
  destruct (mem key (map fst g)) eqn:Hm.
  - split; [|reflexivity]. intros _. exists g. split; [reflexivity|].
    now apply mem_spec.
  - split; [discriminate|]. intros (g' & [= <-] & Hin).
    apply mem_spec in Hin. congruence.
Qed.

Lemma check_test_key_ok (top tests fields : list (string * yaml))
    (defined key : string) :
  assoc "tests" top = Some (YMap tests) ->
  assoc defined tests = Some (YMap fields) ->
  check_test_key (YMap top) defined key = Ok tt <-> key ∈ map fst fields.
Proof.
  intros Ht Hd. unfold check_test_key. cbn [subscript].
  rewrite Ht. cbn [mbind result_bind subscript]. rewrite Hd.
  cbn [mbind result_bind keys].
  rewrite <- mem_spec. destruct (mem key (map fst fields)); split;
    congruence.
Qed.

Lemma check_test_ok (top tests : list (string * yaml)) (defined : string) :
  assoc "tests" top = Some (YMap tests) ->
  check_test (YMap top) defined = Ok tt <->
  exists t, assoc defined tests = Some t /\ acceptable_test t.
Proof.
  intros Ht. unfold check_test. cbn [subscript]. rewrite Ht.
  cbn [mbind result_bind subscript].
  destruct (assoc defined tests) as [t|] eqn:Hd; cbn [mbind result_bind];
    [|split; [discriminate|intros (t & [=] & _)]].
  unfold acceptable_test.
  destruct t as [| | | | |fields]; cbn [mbind result_bind keys];
    try (split; [discriminate|intros (t & [= <-] & (f & [=] & _))]).
  rewrite for_each_ok. split.
  - intros Hall. exists (YMap fields). split; [reflexivity|].
    exists fields. split; [reflexivity|].
    destruct fields as [|[k v] fields']; [now left|right].
    specialize (Hall k (list_elem_of_here _ _)).
    rewrite for_each_ok in Hall.
    split; eapply (check_test_key_ok top tests _ defined _ Ht Hd), Hall;
      unfold required_test_parameters; set_solver.
  - intros (t & [= <-] & (f & [= <-] & Hcase)) parm Hparm.
    destruct Hcase as [->|[H1 H2]]; [inversion Hparm|].
    apply for_each_ok. intros key Hkey.
    apply (check_test_key_ok top tests fields defined key Ht Hd).
    unfold required_test_parameters in Hkey.
    apply elem_of_cons in Hkey as [->|Hkey]; [exact H1|].
    apply elem_of_cons in Hkey as [->|Hkey]; [exact H2|inversion Hkey].
Qed.

Lemma check_config_ok (cfg : yaml) (names : list string) :
  check_config cfg = Ok names <-> accepted cfg names.
Proof.
  unfold accepted. split.
  - unfold check_config. intros Hrun.
    destruct (for_each required_global_keys (check_global_key cfg))
      as [[]|e1] eqn:Hg; cbn [mbind result_bind] in Hrun; [|discriminate].
    destruct (subscript cfg "tests") as [tv|e1] eqn:Ht;
      cbn [mbind result_bind] in Hrun; [|discriminate].
    destruct (keys tv) as [names'|e1] eqn:Hk;
      cbn [mbind result_bind] in Hrun; [|discriminate].
    destruct (for_each names' (check_test cfg)) as [[]|e1] eqn:Hn;
      cbn [mbind result_bind] in Hrun; [|discriminate].
    injection Hrun as <-.
    destruct cfg as [| | | | |top]; try discriminate.
    destruct tv as [| | | | |tests]; try discriminate.
    injection Hk as <-.
    unfold subscript in Ht.
    destruct (assoc "tests" top) as [tv|] eqn:Ht'; [|discriminate].
    injection Ht as ->.
    rewrite for_each_ok in Hg. rewrite for_each_ok in Hn.
    destruct (proj1 (check_global_key_ok top "regions")) as (g & Hglobal & _).
    { apply Hg. unfold required_global_keys. set_solver. }
    exists top, g, tests. split; [reflexivity|]. split; [exact Hglobal|].
    split.
    + intros k Hk.
      destruct (proj1 (check_global_key_ok top k) (Hg k Hk)) as (g' & Hg' & Hin).
      congruence.
    + split; [exact Ht'|]. split; [reflexivity|].
      intros name Hname. apply (check_test_ok top tests name Ht'), Hn, Hname.
  - intros (top & g & tests & -> & Hglobal & Hkeys & Ht & -> & Htests).
    unfold check_config.
    assert (Hg : for_each required_global_keys (check_global_key (YMap top)) = Ok tt).
    { apply for_each_ok. intros k Hk. apply check_global_key_ok. eauto. }
    rewrite Hg. cbn [mbind result_bind]. unfold subscript, keys. rewrite Ht.
    cbn [mbind result_bind].
    assert (Hn : for_each (map fst tests) (check_test (YMap top)) = Ok tt).
    { apply for_each_ok. intros name Hname.
      apply (check_test_ok top tests name Ht), Htests, Hname. }
    now rewrite Hn.
Qed.

End ConfigFacts.

(** X15. [validate_yaml] returns the names of all tests, as [keys()]
    lists them (the order in which the dict iterates, which need not be that
    of the file), exactly when [global] is a mapping with the five required
    keys and every test is a mapping that has both [template_file] and
    [parameter_input] or has no key at all (a test without keys is never
    checked); a missing or unreadable file and every other document end the
    program with exit status 1. *)
Theorem validate_yaml_outcomes (yaml_file : Config.config_file) :
  match Config.validate_yaml yaml_file with
  | Ok names =>
      exists cfg, yaml_file = Config.Parsed cfg /\ Config.accepted cfg names
  | Raise e =>
      e = SystemExit 1
      /\ forall cfg names, yaml_file = Config.Parsed cfg ->
           ~ Config.accepted cfg names
  end.
Proof.
  destruct yaml_file as [| |cfg]; cbn [Config.validate_yaml];
    try (split; [reflexivity|discriminate]).
  destruct (Config.check_config cfg) as [names|e] eqn:Hrun.
  - exists cfg. split; [reflexivity|]. now apply check_config_ok.
  - assert (Hno : forall cfg' names, Config.Parsed cfg = Config.Parsed cfg' ->
              ~ Config.accepted cfg' names).
    { intros cfg' names [= <-] Hacc. apply check_config_ok in Hacc. congruence. }
    pose proof (check_config_raise cfg e Hrun) as Hone.
    destruct e; (split; [|exact Hno]); try reflexivity.
    now rewrite (Hone status eq_refl).
Qed.

(** The example configuration of the program passes, and so does a
    document whose only test has no key at all. *)
Example validate_example_config :
  Config.validate_yaml (Config.Parsed example_config)
    = Ok ["projectx-senario-1"; "projetx-main-senario-all-regions"].
Proof. reflexivity. Qed.

Section GlobalRegionFacts.

Import Config.

Lemma assoc_in_keys (k : string) (fields : list (string * yaml)) (v : yaml) :
  assoc k fields = Some v -> k ∈ map fst fields.
Proof.
  induction fields as [|[k' v'] fields IH]; cbn [assoc map fst]; [discriminate|].
  destruct (String.eqb_spec k k') as [->|_]; [left|right; auto].
Qed.

Lemma region_keys_pos (ks : list string) (k : string) :
  k ∈ ks -> str_contains "region" k = true -> 1 <= region_keys ks.
Proof.
  intros Hin Hk. unfold region_keys.
  assert (Hf : k ∈ filter (fun k => str_contains "region" k = true) ks)
    by (apply list_elem_of_filter; auto).
  destruct (filter _ ks); [inversion Hf|cbn; lia].
Qed.

Lemma global_region_loop_repeats (g : list (string * yaml)) (regions : yaml)
    (items : list yaml) (ks : list string) :
  assoc "regions" g = Some regions ->
  iter_items regions = Ok items ->
  forall acc u, exists u',
    global_region_loop (YMap g) ks acc u
      = Returns ((acc ++ repeated (region_keys ks) items)%list, u').
Proof.
  intros Hr Hi. induction ks as [|k ks IH]; intros acc u.
  - exists u. cbn. now rewrite app_nil_r.
  - cbn [global_region_loop subscript]. unfold region_keys.
    destruct (str_contains "region" k) eqn:Hk.
    + rewrite filter_cons_True by exact Hk. rewrite Hr, Hi.
      destruct (IH (acc ++ items)%list
                  (match items with [] => u | _ :: _ => true end)) as [u' ->].
      exists u'. cbn [length repeated]. now rewrite <- app_assoc.
    + rewrite filter_cons_False by now rewrite Hk. apply IH.
Qed.

Lemma global_region_loop_fails (g : list (string * yaml)) (regions : yaml)
    (e : exn) (ks : list string) :
  assoc "regions" g = Some regions ->
  iter_items regions = Raise e ->
  1 <= region_keys ks ->
  forall acc u, global_region_loop (YMap g) ks acc u = ThrowsUnboundLocalError.
Proof.
  intros Hr Hi. induction ks as [|k ks IH]; intros Hpos acc u.
  - cbn in Hpos. lia.
  - cbn [global_region_loop subscript]. unfold region_keys in Hpos.
    destruct (str_contains "region" k) eqn:Hk.
    + now rewrite Hr, Hi.
    + rewrite filter_cons_False in Hpos by now rewrite Hk. now apply IH.
Qed.

End GlobalRegionFacts.

(** X16. [get_global_region] goes through the keys of [global] and adds
    the whole list under [regions] once for every key whose name contains
    the text "region": with [n] such keys the result is the region list
    [n] times over, and [n] is at least 1 because [regions] is such a
    key. *)
Theorem get_global_region_repeats_per_key
    (top g : list (string * Config.yaml)) (regions : Config.yaml)
    (items : list Config.yaml) (use_global : bool) :
  Config.assoc "global" top = Some (Config.YMap g) ->
  Config.assoc "regions" g = Some regions ->
  Config.iter_items regions = Ok items ->
  1 <= Config.region_keys (map fst g)
  /\ exists use_global',
       Config.get_global_region (Config.YMap top) use_global
         = Config.Returns
             (Config.repeated (Config.region_keys (map fst g)) items,
              use_global').
Proof.
  intros Hg Hr Hi. split.
  - eapply region_keys_pos; [eapply assoc_in_keys, Hr|reflexivity].
  - unfold Config.get_global_region. cbn [Config.subscript]. rewrite Hg.
    cbn [Config.keys].
    destruct (global_region_loop_repeats g regions items (map fst g) Hr Hi []
                use_global) as [u' ->].
    now exists u'.
Qed.

Lemma get_global_region_repeats_per_key_witness :
  1 <= Config.region_keys ["default_region"; "regions"; "owner"]
  /\ exists use_global',
       Config.get_global_region
         (Config.YMap
            [("global",
              Config.YMap
                [("default_region", Config.YStr "us-east-1");
                 ("regions",
                  Config.YSeq [Config.YStr "us-east-1"; Config.YStr "us-west-2"]);
                 ("owner", Config.YStr "me")])]) false
         = Config.Returns
             (Config.repeated
                (Config.region_keys ["default_region"; "regions"; "owner"])
                [Config.YStr "us-east-1"; Config.YStr "us-west-2"],
              use_global').
Proof.
  apply (get_global_region_repeats_per_key
           [("global",
             Config.YMap
               [("default_region", Config.YStr "us-east-1");
                ("regions",
                 Config.YSeq [Config.YStr "us-east-1"; Config.YStr "us-west-2"]);
                ("owner", Config.YStr "me")])]
           [("default_region", Config.YStr "us-east-1");
            ("regions",
             Config.YSeq [Config.YStr "us-east-1"; Config.YStr "us-west-2"]);
            ("owner", Config.YStr "me")]
           (Config.YSeq [Config.YStr "us-east-1"; Config.YStr "us-west-2"])
           [Config.YStr "us-east-1"; Config.YStr "us-west-2"] false);
    reflexivity.
Defined.

(** Two keys with "region" in their name: every region comes twice. *)
Example global_regions_twice :
  Config.get_global_region
    (Config.YMap
       [("global",
         Config.YMap
           [("default_region", Config.YStr "us-east-1");
            ("regions",
             Config.YSeq [Config.YStr "us-east-1"; Config.YStr "us-west-2"]);
            ("owner", Config.YStr "me")])]) false
  = Config.Returns
      ([Config.YStr "us-east-1"; Config.YStr "us-west-2";
        Config.YStr "us-east-1"; Config.YStr "us-west-2"], true).
Proof. vm_compute. reflexivity. Qed.

Example global_regions_of_example_config :
  Config.get_global_region example_config false
  = Config.Returns
      ([Config.YStr "us-east-1"; Config.YStr "us-west-1"; Config.YStr "us-west-2"],
       true).
Proof. vm_compute. reflexivity. Qed.

(** X17. On a document that [validate_yaml] has let through,
    [get_global_region] never fails for a missing key: it returns the
    regions, repeated as above, when what stands under [regions] can be
    iterated, and it raises UnboundLocalError (from its own error message)
    when it cannot, as for a [regions] key left empty. *)
Theorem get_global_region_after_validation
    (cfg : Config.yaml) (names : list string) (use_global : bool) :
  Config.validate_yaml (Config.Parsed cfg) = Ok names ->
  exists top g regions,
    cfg = Config.YMap top
    /\ Config.assoc "global" top = Some (Config.YMap g)
    /\ Config.assoc "regions" g = Some regions
    /\ match Config.iter_items regions with
       | Ok items =>
           exists use_global',
             Config.get_global_region cfg use_global
               = Config.Returns
                   (Config.repeated (Config.region_keys (map fst g)) items,
                    use_global')
       | Raise _ =>
           Config.get_global_region cfg use_global
             = Config.ThrowsUnboundLocalError
       end.
Proof.
  intros Hrun. cbn [Config.validate_yaml] in Hrun.
  destruct (Config.check_config cfg) as [names'|e] eqn:Hcheck;
    [|destruct e; discriminate].
  apply check_config_ok in Hcheck
    as (top & g & tests & -> & Hg & Hkeys & _).
  assert (Hin : "regions" ∈ map fst g).
  { apply Hkeys. unfold Config.required_global_keys.
    do 4 apply elem_of_cons, or_intror. apply elem_of_cons. now left. }
  assert (Hr : exists regions, Config.assoc "regions" g = Some regions).
  { clear -Hin. induction g as [|[k v] g IH]; [inversion Hin|].
    cbn [Config.assoc]. destruct (String.eqb_spec "regions" k) as [_|Hne]; eauto.
    apply IH. cbn in Hin. apply elem_of_cons in Hin as [Heq|Hin]; congruence. }
  destruct Hr as [regions Hr].
  exists top, g, regions. repeat (split; [assumption || reflexivity|]).
  assert (Hpos : 1 <= Config.region_keys (map fst g)).
  { eapply region_keys_pos; [exact Hin|reflexivity]. }
  unfold Config.get_global_region. cbn [Config.subscript]. rewrite Hg.
  cbn [Config.keys].
  destruct (Config.iter_items regions) as [items|e] eqn:Hi.
  - destruct (global_region_loop_repeats g regions items (map fst g) Hr Hi []
                use_global) as [u' ->].
    now exists u'.
  - now apply (global_region_loop_fails g regions e).
Qed.

Lemma get_global_region_after_validation_witness :
  exists top g regions,
    example_config = Config.YMap top
    /\ Config.assoc "global" top = Some (Config.YMap g)
    /\ Config.assoc "regions" g = Some regions
    /\ match Config.iter_items regions with
       | Ok items =>
           exists use_global',
             Config.get_global_region example_config false
               = Config.Returns
                   (Config.repeated (Config.region_keys (map fst g)) items,
                    use_global')
       | Raise _ =>
           Config.get_global_region example_config false
             = Config.ThrowsUnboundLocalError
       end.
Proof.
  apply (get_global_region_after_validation example_config
           ["projectx-senario-1"; "projetx-main-senario-all-regions"] false).
  reflexivity.
Defined.

(** ** Published assets *)

Section AssetFacts.

Import Assets.

Lemma first_url_none (location : option string) (s3bucket key : string)
    (objs : list (gmap string string)) :
  first_url location s3bucket key objs = None <->
  forall o k, o ∈ objs -> o !! "Key" = Some k -> str_contains key k = false.
Proof.
  induction objs as [|o objs IH]; cbn [first_url].
  - split; [intros _ o k Ho; inversion Ho|reflexivity].
  - destruct (o !! "Key") as [k|] eqn:Hk.
    + destruct (str_contains key k) eqn:Hc.
      * split; [discriminate|]. intros Hall.
        specialize (Hall o k (list_elem_of_here _ _) Hk). congruence.
      * rewrite IH. split.
        -- intros Hall o' k' [->|Ho]%elem_of_cons Hk'; [congruence|eauto].
        -- intros Hall o' k' Ho. apply Hall. now right.
    + rewrite IH. split.
      * intros Hall o' k' [->|Ho]%elem_of_cons Hk'; [congruence|eauto].
      * intros Hall o' k' Ho. apply Hall. now right.
Qed.

Lemma first_url_some (location : option string) (s3bucket key url : string)
    (objs : list (gmap string string)) :
  first_url location s3bucket key objs = Some url ->
  exists pre o post k,
    objs = (pre ++ o :: post)%list
    /\ o !! "Key" = Some k
    /\ str_contains key k = true
    /\ url = object_url location s3bucket k
    /\ forall o' k', o' ∈ pre -> o' !! "Key" = Some k' ->
         str_contains key k' = false.
Proof.
  induction objs as [|o objs IH]; cbn [first_url]; [discriminate|].
  destruct (o !! "Key") as [k|] eqn:Hk.
  - destruct (str_contains key k) eqn:Hc.
    + intros [= <-]. exists [], o, objs, k. repeat split; auto.
      intros o' k' Ho. inversion Ho.
    + intros (pre & o1 & post & k1 & -> & Hk1 & Hc1 & Hurl & Hpre)%IH.
      exists (o :: pre), o1, post, k1. repeat split; auto.
      intros o' k' [->|Ho]%elem_of_cons Hk'; [congruence|eauto].
  - intros (pre & o1 & post & k1 & -> & Hk1 & Hc1 & Hurl & Hpre)%IH.
    exists (o :: pre), o1, post, k1. repeat split; auto.
    intros o' k' [->|Ho]%elem_of_cons Hk'; [congruence|eauto].
Qed.

End AssetFacts.

(** X18. [get_s3_url] looks for the name as a part of the listed keys, not
    for the key itself: it returns the URL of the first listed object whose
    key contains the name, [None] when no listed key contains it, and it
    raises TypeError when the listing has no ['Contents'] at all. *)
Theorem get_s3_url_outcomes (s3 : Assets.bucket) (s3bucket key : string) :
  match Assets.get_s3_url s3 s3bucket key with
  | Raise e => e = TypeError /\ Assets.contents s3 = None
  | Ok None =>
      exists objs, Assets.contents s3 = Some objs
        /\ forall o k, o ∈ objs -> o !! "Key" = Some k ->
             str_contains key k = false
  | Ok (Some url) =>
      exists pre o post k,
        Assets.contents s3 = Some (pre ++ o :: post)%list
        /\ o !! "Key" = Some k
        /\ str_contains key k = true
        /\ url = Assets.object_url (Assets.location_constraint s3) s3bucket k
        /\ forall o' k', o' ∈ pre -> o' !! "Key" = Some k' ->
             str_contains key k' = false
  end.
Proof.
  unfold Assets.get_s3_url.
  destruct (Assets.contents s3) as [objs|]; [|split; reflexivity].
  destruct (Assets.first_url _ s3bucket key objs) as [url|] eqn:Hfirst.
  - apply first_url_some in Hfirst
      as (pre & o & post & k & -> & Hk & Hc & Hurl & Hpre).
    exists pre, o, post, k. auto.
  - exists objs. split; [reflexivity|].
    exact (proj1 (first_url_none _ _ _ _) Hfirst).
Qed.

(** A template name that is part of an earlier key gets the URL of that
    other object. *)
Example get_s3_url_takes_first_match :
  Assets.get_s3_url
    (Assets.Bucket (Some "us-west-2")
       (Some [ {[ "Key" := "projectx/old-projectx.template" ]};
               {[ "Key" := "projectx/projectx.template" ]} ]))
    "projectx-templates" "projectx.template"
  = Ok (Some "https://s3-us-west-2.amazonaws.com/projectx-templates/projectx/old-projectx.template").
Proof. vm_compute. reflexivity. Qed.

(** ** [if_stackexists] *)

(** [if_stackexists] answers "yes" when the describe call succeeds;
    when it raises, the answer is "no" only in verbose mode, and otherwise
    the function itself raises UnboundLocalError, because [exists] is
    assigned inside [if self.verbose]. *)
Lemma if_stackexists_outcomes (verbose : bool) (answer : describe_response) :
  (Config.if_stackexists verbose answer = Config.Returns "yes"
     <-> exists stacks, answer = DescribeStacks stacks)
  /\ (Config.if_stackexists verbose answer = Config.Returns "no"
     <-> answer = DescribeRaises /\ verbose = true)
  /\ (Config.if_stackexists verbose answer = Config.ThrowsUnboundLocalError
     <-> answer = DescribeRaises /\ verbose = false).
Proof.
  destruct answer as [|stacks], verbose; cbn [Config.if_stackexists];
    repeat split; try discriminate; try (intros [? ?]; discriminate);
    try (intros [? [=]]); eauto.
Qed.

(** ** Test definitions *)

(** One step of a computation in [result] or [outcome]: the binds, the
    subscripts and the iteration, with the object left as it is written. *)
Ltac outcome_step :=
  cbn [mbind Launch.outcome_bind result_bind Launch.lift Config.subscript
       Config.keys Config.iter_items Launch.contains_key].

Tactic Notation "outcome_step" "in" hyp(H) :=
  cbn [mbind Launch.outcome_bind result_bind Launch.lift Config.subscript
       Config.keys Config.iter_items Launch.contains_key] in H.

Section DefineTestsFacts.

Import Config Launch.

Variable repr : yaml -> string.
Variable s3 : string -> yaml -> nat -> result Assets.bucket.

Lemma outcome_bind_returns {A} (m : outcome A) : (m ≫= Returns) = m.
Proof. now destruct m. Qed.

Lemma for_tdefs_skip (ks : list string) (yamlc : yaml) (test : string)
    (self : taskcat) :
  test ∉ ks -> for_tdefs repr s3 ks yamlc test self = Returns self.
Proof.
  induction ks as [|k ks IH]; intros Hno; [reflexivity|].
  cbn [for_tdefs]. apply not_elem_of_cons in Hno as [Hne Hno].
  destruct (String.eqb_spec k test) as [->|_]; [congruence|auto].
Qed.

Lemma for_tdefs_once (ks : list string) (yamlc : yaml) (test : string)
    (self : taskcat) :
  NoDup ks -> test ∈ ks ->
  for_tdefs repr s3 ks yamlc test self = define_test repr s3 yamlc test self.
Proof.
  induction ks as [|k ks IH]; intros Hnd Hin; [inversion Hin|].
  apply NoDup_cons in Hnd as [Hk Hnd]. cbn [for_tdefs].
  destruct (String.eqb_spec k test) as [->|Hne].
  - rewrite <- (outcome_bind_returns (define_test repr s3 yamlc test self)) at 2.
    destruct (define_test repr s3 yamlc test self) as [self'| |]; cbn;
      [|reflexivity..].
    now apply for_tdefs_skip.
  - apply elem_of_cons in Hin as [->|Hin]; [congruence|auto].
Qed.

Lemma define_tests_once (yamlc : yaml) (tests : list (string * yaml))
    (test : string) (self : taskcat) :
  subscript yamlc "tests" = Ok (YMap tests) ->
  NoDup (map fst tests) -> test ∈ map fst tests ->
  define_tests repr s3 yamlc test self = define_test repr s3 yamlc test self.
Proof.
  intros Ht Hnd Hin. unfold define_tests. rewrite Ht. cbn.
  now apply for_tdefs_once.
Qed.

Lemma mem_assoc (k : string) (fields : list (string * yaml)) :
  mem k (map fst fields) = bool_decide (is_Some (assoc k fields)).
Proof.
  induction fields as [|[k' v] fields IH]; cbn [map fst assoc].
  - reflexivity.
  - unfold mem in *. cbn [existsb].
    destruct (String.eqb k k'); cbn [orb]; [|exact IH].
    symmetry. apply bool_decide_eq_true. eauto.
Qed.

Lemma get_s3_url_state (self self' : taskcat) (key : yaml) (o_url : option string) :
  get_s3_url repr s3 self key = Ok (o_url, self') -> self' = s3_called self.
Proof.
  unfold get_s3_url. intros Hrun.
  destruct (s3 _ _ _) as [answer|e]; [|discriminate]. cbn in Hrun.
  destruct (match key with YStr k => _ | _ => _ end) as [u|e]; [|discriminate].
  cbn in Hrun. congruence.
Qed.

End DefineTestsFacts.

(** X19. [define_tests] for a name that is no key of [tests] raises
    nothing and changes nothing: the object keeps the bucket, the project,
    the files, the paths and the regions it had before. *)
Theorem define_tests_unknown_test_changes_nothing
    (repr : Config.yaml -> string)
    (s3 : string -> Config.yaml -> nat -> result Assets.bucket)
    (yamlc : Config.yaml) (tests : list (string * Config.yaml))
    (test : string) (self : Launch.taskcat) :
  Config.subscript yamlc "tests" = Ok (Config.YMap tests) ->
  test ∉ map fst tests ->
  Launch.define_tests repr s3 yamlc test self = Config.Returns self.
Proof.
  intros Ht Hno. unfold Launch.define_tests. rewrite Ht. cbn.
  now apply for_tdefs_skip.
Qed.

Lemma define_tests_unknown_test_changes_nothing_witness :
  Launch.define_tests (fun _ => "") (fun _ _ _ => Raise RemoteError)
    example_config "projectx-senario-2" Launch.init
  = Config.Returns Launch.init.
Proof.
  eapply (define_tests_unknown_test_changes_nothing _ _ example_config).
  - reflexivity.
  - apply (bool_decide_unpack _). vm_compute. reflexivity.
Defined.

(** X20. The regions [define_tests] leaves on the object, for a test that
    is defined: the items of the test's own [regions]; the regions of
    [get_global_region] when the test has no [regions] key; and, when the
    key is there without a value, the regions the object had before the
    call, whatever test they were set for. *)
Theorem define_tests_region_choice
    (repr : Config.yaml -> string)
    (s3 : string -> Config.yaml -> nat -> result Assets.bucket)
    (yamlc : Config.yaml) (tests fields : list (string * Config.yaml))
    (test : string) (self self' : Launch.taskcat) :
  Config.subscript yamlc "tests" = Ok (Config.YMap tests) ->
  NoDup (map fst tests) ->
  Config.assoc test tests = Some (Config.YMap fields) ->
  Launch.define_tests repr s3 yamlc test self = Config.Returns self' ->
  match Config.assoc "regions" fields with
  | Some Config.YNull =>
      Launch.test_region self' = Launch.test_region self
      /\ Launch._use_global self' = Launch._use_global self
  | Some r =>
      Config.iter_items r = Ok (Launch.test_region self')
      /\ Launch._use_global self' = Launch._use_global self
  | None =>
      Config.get_global_region yamlc (Launch._use_global self)
        = Config.Returns (Launch.test_region self', Launch._use_global self')
  end.
Proof.
  intros Ht Hnd Hdef Hrun.
  rewrite (define_tests_once repr s3 yamlc tests test self Ht Hnd) in Hrun
    by (eapply assoc_in_keys, Hdef).
  unfold Launch.define_test in Hrun. rewrite Ht in Hrun. outcome_step in Hrun.
  rewrite Hdef in Hrun. outcome_step in Hrun.
  destruct (Config.assoc "template_file" fields) as [t|]; [|discriminate].
  destruct (Config.assoc "parameter_input" fields) as [p|]; [|discriminate].
  outcome_step in Hrun.
  destruct (Config.subscript yamlc "global") as [g|e]; [|discriminate].
  outcome_step in Hrun.
  destruct (Config.subscript g "project") as [n|e]; [|discriminate].
  outcome_step in Hrun.
  destruct (Config.subscript g "s3bucket") as [b|e]; [|discriminate].
  outcome_step in Hrun.
  destruct (Launch.get_s3_url repr s3 _ t) as [[u1 self1]|e] eqn:H1;
    [|discriminate].
  apply get_s3_url_state in H1 as ->. outcome_step in Hrun.
  destruct (Launch.get_s3_url repr s3 _ p) as [[u2 self2]|e] eqn:H2;
    [|discriminate].
  apply get_s3_url_state in H2 as ->. outcome_step in Hrun.
  rewrite mem_assoc in Hrun.
  destruct (Config.assoc "regions" fields) as [r|] eqn:Hr.
  - rewrite bool_decide_eq_true_2 in Hrun by eauto. outcome_step in Hrun.
    destruct r as [|bv|z|s|items|fs]; outcome_step in Hrun;
      try discriminate; injection Hrun as <-; split; reflexivity.
  - rewrite bool_decide_eq_false_2 in Hrun by (now intros [? ?]).
    outcome_step in Hrun.
    destruct (Config.get_global_region yamlc _) as [[l u]| |];
      outcome_step in Hrun; try discriminate.
    now injection Hrun as <-.
Qed.

Lemma define_tests_region_choice_witness :
  exists self',
    Launch.define_tests (fun _ => "") example_s3 empty_regions_config "second"
      (Launch.set_test_region [Config.YStr "eu-west-1"] Launch.init)
      = Config.Returns self'
    /\ Launch.test_region self' = [Config.YStr "eu-west-1"]
    /\ Launch._use_global self' = false.
Proof.
  eexists. split; [vm_compute; reflexivity|].
  eapply (define_tests_region_choice (fun _ => "") example_s3
            empty_regions_config empty_regions_tests
            [("parameter_input", Config.YStr "second.json");
             ("regions", Config.YNull);
             ("template_file", Config.YStr "second.template")]
            "second"
            (Launch.set_test_region [Config.YStr "eu-west-1"] Launch.init)).
  - reflexivity.
  - apply (bool_decide_unpack _). vm_compute. reflexivity.
  - reflexivity.
  - vm_compute. reflexivity.
Defined.

(** ** Stack launch *)

Section LaunchFacts.

Import Config Launch.

Variable rand : nat -> nat.
Variable repr : yaml -> string.
Variable s3 : string -> yaml -> nat -> result Assets.bucket.
Variable uuid4 : nat -> string.
Variable fetch : option string -> nat -> result (list parmdict).
Variable create_stack : request -> nat -> result stackdata.

Lemma materialize_well_formed_returns (s_parms : list parmdict) :
  Forall well_formed s_parms ->
  forall pos, exists out pos', materialize rand s_parms pos = Ok (out, pos').
Proof.
  induction 1 as [|d rest Hd _ IH]; intros pos; [eexists _, _; reflexivity|].
  cbn [materialize].
  destruct (materialize_entry rand d pos) as [[d1 pos1]|e] eqn:Hrun.
  - cbn. destruct (IH pos1) as (out & pos' & ->). cbn. eauto.
  - apply materialize_entry_raises in Hrun as [_ Hno]. contradiction.
Qed.


Lemma answered_app (k : nat) (r1 r2 : list request) (s1 s2 : list stackdata) :
  answered create_stack k r1 s1 ->
  answered create_stack (k + length r1) r2 s2 ->
  answered create_stack k (r1 ++ r2)%list (s1 ++ s2)%list.
Proof.
  revert k s1. induction r1 as [|req r1 IH]; intros k [|sd s1]; cbn;
    try contradiction.
  - intros _. now rewrite Nat.add_0_r.
  - intros [Hreq Hrest] H2. split; [exact Hreq|].
    apply IH; [exact Hrest|]. now replace (S k + length r1) with (k + S (length r1)) by lia.
Qed.

Lemma answered_length (k : nat) (reqs : list request) (s : list stackdata) :
  answered create_stack k reqs s -> length s = length reqs.
Proof.
  revert k s. induction reqs as [|req reqs IH]; intros k [|sd s]; cbn;
    try contradiction; [reflexivity|].
  intros [_ H]. f_equal. eapply IH, H.
Qed.

(** The configuration and the answers of S3 under which every test of a
    list can be defined. *)
Variables (top g tests : list (string * yaml)) (n b : yaml).
Hypothesis Hglobal : assoc "global" top = Some (YMap g).
Hypothesis Hproject : assoc "project" g = Some n.
Hypothesis Hbucket : assoc "s3bucket" g = Some b.
Hypothesis Htests : assoc "tests" top = Some (YMap tests).
Hypothesis Hnodup : NoDup (map fst tests).
Hypothesis s3_lists : forall bucket prefix k, exists answer objs,
  s3 bucket prefix k = Ok answer /\ Assets.contents answer = Some objs.

Lemma get_s3_url_listed (self : taskcat) (k : string) :
  exists o_url, get_s3_url repr s3 self (YStr k) = Ok (o_url, s3_called self).
Proof.
  unfold get_s3_url.
  destruct (s3_lists (get_s3bucket repr self) (project self) (s3_calls self))
    as (answer & objs & -> & Hc).
  outcome_step. unfold Assets.get_s3_url. rewrite Hc. outcome_step. eauto.
Qed.

Lemma define_tests_launchable (test : string) (tdef : yaml)
    (regions : list yaml) (self : taskcat) :
  assoc test tests = Some tdef ->
  launchable g tdef regions ->
  exists self' ts ps,
    define_tests repr s3 (YMap top) test self = Returns self'
    /\ test_region self' = regions
    /\ capabilities self' = capabilities self
    /\ requests self' = requests self
    /\ uuids self' = uuids self
    /\ _template_file self' = YStr ts
    /\ _parameter_file self' = Some (YStr ps)
    /\ verbose self' = verbose self
    /\ defult_region self' = defult_region self
    /\ validations self' = validations self
    /\ opened self' = opened self
    /\ s3_calls self' = S (S (s3_calls self)).
Proof.
  intros Hdef (fields & ts & ps & -> & Ht & Hp & Hregions).
  rewrite (define_tests_once repr s3 (YMap top) tests test self)
    by (cbn [subscript]; rewrite ?Htests; eauto using assoc_in_keys).
  unfold define_test. outcome_step. rewrite Htests. outcome_step.
  rewrite Hdef. outcome_step. rewrite Ht, Hp. outcome_step.
  rewrite Hglobal. outcome_step. rewrite Hproject, Hbucket. outcome_step.
  match goal with
  | |- context [get_s3_url repr s3 ?s (YStr ts)] =>
      destruct (get_s3_url_listed s ts) as [u1 ->]
  end.
  outcome_step.
  match goal with
  | |- context [get_s3_url repr s3 ?s (YStr ps)] =>
      destruct (get_s3_url_listed s ps) as [u2 ->]
  end.
  outcome_step. rewrite mem_assoc. unfold regions_of in Hregions.
  destruct (assoc "regions" fields) as [r|] eqn:Hr.
  - rewrite bool_decide_eq_true_2 by eauto. outcome_step.
    destruct r as [|bv|z|s|items|fs]; try discriminate.
    injection Hregions as <-. outcome_step.
    eexists _, ts, ps. repeat split.
  - rewrite bool_decide_eq_false_2 by (now intros [? ?]). outcome_step.
    destruct (assoc "regions" g) as [[|bv|z|s|items|fs]|] eqn:Hgr;
      try discriminate.
    injection Hregions as <-.
    unfold get_global_region. outcome_step. rewrite Hglobal. outcome_step.
    match goal with
    | |- context [global_region_loop (YMap g) (map fst g) [] ?u] =>
        destruct (global_region_loop_repeats g (YSeq items) items (map fst g)
                    Hgr eq_refl [] u) as [u' ->]
    end.
    outcome_step. eexists _, ts, ps. repeat split.
Qed.

(** One launch that succeeds. *)
Lemma launch_ok (stackname : string) (region : yaml) (self : taskcat) :
  (forall path k, exists doc, fetch path k = Ok doc /\ Forall well_formed doc) ->
  (forall req k, exists sd, create_stack req k = Ok sd) ->
  exists sd req pos,
    launch rand fetch create_stack stackname region self
      = Ok (sd, launched req (set_draws pos self))
    /\ create_stack req (launches self) = Ok sd
    /\ Region req = region /\ StackName req = stackname
    /\ DisableRollback req = true /\ Capabilities req = capabilities self.
Proof.
  intros Hfetch Hcreate. unfold launch.
  destruct (Hfetch (parameter_path self) (launches self)) as (doc & -> & Hwf).
  outcome_step.
  destruct (materialize_well_formed_returns doc Hwf (draws self))
    as (out & pos & ->).
  outcome_step.
  destruct (Hcreate (Request region stackname true (template_path self) out
                       (capabilities self)) (launches self)) as [sd Hsd].
  rewrite Hsd. outcome_step. eexists sd, _, pos. split; [reflexivity|].
  repeat split. exact Hsd.
Qed.

Lemma for_regions_ok (stackname : string) :
  (forall path k, exists doc, fetch path k = Ok doc /\ Forall well_formed doc) ->
  (forall req k, exists sd, create_stack req k = Ok sd) ->
  forall (regions : list yaml) (stackids : list stackdata) (self : taskcat),
  exists new reqs self',
    for_regions rand fetch create_stack regions stackname stackids self
      = Ok ((stackids ++ new)%list, self')
    /\ requests self' = (requests self ++ reqs)%list
    /\ Forall2 (fun req region =>
                  Region req = region /\ StackName req = stackname
                  /\ DisableRollback req = true
                  /\ Capabilities req = capabilities self) reqs regions
    /\ answered create_stack (launches self) reqs new
    /\ capabilities self' = capabilities self
    /\ uuids self' = uuids self.
Proof.
  intros Hfetch Hcreate.
  induction regions as [|region regions IH]; intros stackids self.
  - exists [], [], self. cbn. rewrite !app_nil_r. repeat split. constructor.
  - cbn [for_regions].
    destruct (launch_ok stackname region self Hfetch Hcreate)
      as (sd & req & pos & -> & Hsd & Hreq).
    destruct (IH (stackids ++ [sd])%list (launched req (set_draws pos self)))
      as (new & reqs & self' & -> & Hreqs & Hall & Hans & Hcaps & Huuids).
    exists (sd :: new), (req :: reqs), self'.
    rewrite <- app_assoc. cbn [app]. split; [reflexivity|].
    split; [rewrite Hreqs; cbn; now rewrite <- app_assoc|].
    split; [constructor; [exact Hreq|exact Hall]|].
    split; [|split; [exact Hcaps|exact Huuids]].
    cbn [answered]. split; [exact Hsd|].
    unfold launches in *. cbn in Hans. rewrite length_app in Hans. cbn in Hans.
    now rewrite Nat.add_1_r in Hans.
Qed.

Lemma for_tests_ok (sprefix : string) :
  (forall path k, exists doc, fetch path k = Ok doc /\ Forall well_formed doc) ->
  (forall req k, exists sd, create_stack req k = Ok sd) ->
  forall (test_list : list string),
  (forall test, test ∈ test_list ->
     exists tdef regions,
       assoc test tests = Some tdef /\ launchable g tdef regions) ->
  forall (stackids : list stackdata) (self : taskcat),
  exists new reqs self',
    for_tests rand repr s3 uuid4 fetch create_stack test_list (YMap top)
      sprefix stackids self = Returns ((stackids ++ new)%list, self')
    /\ requests self' = (requests self ++ reqs)%list
    /\ Forall2 (sent sprefix uuid4 (capabilities self)) reqs
         (plan g tests test_list (uuids self))
    /\ answered create_stack (launches self) reqs new
    /\ capabilities self' = capabilities self
    /\ uuids self' = uuids self + length test_list.
Proof.
  intros Hfetch Hcreate.
  induction test_list as [|test rest IH]; intros Hall stackids self.
  - exists [], [], self. cbn. rewrite !app_nil_r, Nat.add_0_r.
    repeat split. constructor.
  - destruct (Hall test) as (tdef & regions & Hdef & Hl); [now left|].
    cbn [for_tests].
    destruct (define_tests_launchable test tdef regions (uuid_taken self)
                Hdef Hl)
      as (self1 & ts & ps & -> & Hregions & Hcaps1 & Hreqs1 & Huuids1 & _).
    cbn [mbind outcome_bind].
    destruct (for_regions_ok (stackname sprefix test (uuid4 (uuids self)))
                Hfetch Hcreate (test_region self1) stackids self1)
      as (new1 & reqs1 & self2 & -> & Hreqs2 & Hsent1 & Hans1 & Hcaps2 & Huuids2).
    cbn [lift mbind outcome_bind].
    destruct (IH (fun t Ht => Hall t (list_elem_of_further _ _ _ Ht))
                (stackids ++ new1)%list self2)
      as (new2 & reqs2 & self3 & -> & Hreqs3 & Hsent2 & Hans2 & Hcaps3 & Huuids3).
    exists (new1 ++ new2)%list, (reqs1 ++ reqs2)%list, self3.
    cbn in Hcaps1, Hreqs1, Huuids1.
    split; [now rewrite app_assoc|].
    split; [rewrite Hreqs3, Hreqs2, Hreqs1; now rewrite app_assoc|].
    split; [|split; [|split]].
    + cbn [plan]. apply Forall2_app.
      * rewrite Hdef. cbn.
        destruct Hl as (fields & ts' & ps' & -> & _ & _ & ->). cbn.
        rewrite Hregions in Hsent1.
        apply Forall2_fmap_r.
        eapply Forall2_impl; [exact Hsent1|].
        intros req region (? & ? & ? & ?). unfold sent. cbn.
        repeat split; congruence.
      * rewrite Huuids2, Huuids1 in Hsent2. rewrite Hcaps2, Hcaps1 in Hsent2.
        exact Hsent2.
    + apply answered_app.
      * unfold launches in *. now rewrite Hreqs1 in Hans1.
      * unfold launches in *. rewrite Hreqs2, Hreqs1, length_app in Hans2.
        exact Hans2.
    + congruence.
    + rewrite Huuids3, Huuids2, Huuids1. cbn. lia.
Qed.

End LaunchFacts.

(** X21. With a configuration whose tests give their template and
    parameter file as text and their regions as a sequence (their own, or
    the one of [global]), an S3 that lists the bucket, parameter documents
    that can be materialized and a service that accepts every request,
    [stackcreate] returns one record for every pair of a test and one of its
    regions, in that order: the records are the answers to the requests,
    each sent once, with rollback disabled and with [CAPABILITY_IAM] added
    to the capabilities; all regions of a test share one stack name, made
    of the one uuid drawn for the test. *)
Theorem stackcreate_one_stack_per_test_and_region
    (rand : nat -> nat) (repr : Config.yaml -> string)
    (s3 : string -> Config.yaml -> nat -> result Assets.bucket)
    (uuid4 : nat -> string)
    (fetch : option string -> nat -> result (list parmdict))
    (create_stack : Launch.request -> nat -> result stackdata)
    (top g tests : list (string * Config.yaml)) (n b : Config.yaml)
    (test_list : list string) (sprefix : string) (self : Launch.taskcat) :
  Config.assoc "global" top = Some (Config.YMap g) ->
  Config.assoc "project" g = Some n ->
  Config.assoc "s3bucket" g = Some b ->
  Config.assoc "tests" top = Some (Config.YMap tests) ->
  NoDup (map fst tests) ->
  (forall test, test ∈ test_list ->
     exists tdef regions,
       Config.assoc test tests = Some tdef /\ Launch.launchable g tdef regions) ->
  (forall bucket prefix k, exists answer objs,
     s3 bucket prefix k = Ok answer /\ Assets.contents answer = Some objs) ->
  (forall path k, exists doc, fetch path k = Ok doc /\ Forall well_formed doc) ->
  (forall req k, exists sd, create_stack req k = Ok sd) ->
  exists stackids reqs self',
    Launch.stackcreate rand repr s3 uuid4 fetch create_stack (Config.YMap top)
      test_list sprefix self = Config.Returns (stackids, self')
    /\ length stackids = length (Launch.plan g tests test_list (Launch.uuids self))
    /\ Launch.requests self' = (Launch.requests self ++ reqs)%list
    /\ Forall2 (Launch.sent sprefix uuid4
                  (Launch.capabilities self ++ ["CAPABILITY_IAM"])%list)
         reqs (Launch.plan g tests test_list (Launch.uuids self))
    /\ Launch.answered create_stack (Launch.launches self) reqs stackids.
Proof.
  intros Hg Hn Hb Ht Hnd Hall Hs3 Hfetch Hcreate. unfold Launch.stackcreate.
  destruct (for_tests_ok rand repr s3 uuid4 fetch create_stack top g tests n b
              Hg Hn Hb Ht Hnd Hs3 sprefix Hfetch Hcreate test_list Hall []
              (Launch.set_capabilities "CAPABILITY_IAM" self))
    as (new & reqs & self' & Hrun & Hreqs & Hsent & Hans & _ & _).
  exists new, reqs, self'. cbn in Hrun, Hreqs, Hsent, Hans.
  split; [exact Hrun|].
  split; [|split; [exact Hreqs|split; [exact Hsent|exact Hans]]].
  rewrite (answered_length _ _ _ _ Hans). eapply Forall2_length, Hsent.
Qed.

Lemma stackcreate_one_stack_per_test_and_region_witness :
  exists stackids self',
    Launch.stackcreate (fun k => k) (fun _ => "") example_s3 example_uuid4
      example_fetch example_create_stack example_config
      ["projectx-senario-1"; "projetx-main-senario-all-regions"] "tag"
      Launch.init
      = Config.Returns (stackids, self')
    /\ length stackids = 5
    /\ length (Launch.requests self') = 5.
Proof.
  destruct (stackcreate_one_stack_per_test_and_region
              (fun k => k) (fun _ => "") example_s3 example_uuid4
              example_fetch example_create_stack
              [("global", Config.YMap example_global);
               ("tests", Config.YMap example_tests)]
              example_global example_tests
              (Config.YStr "projectx") (Config.YStr "projectx-templates")
              ["projectx-senario-1"; "projetx-main-senario-all-regions"]
              "tag" Launch.init)
    as (stackids & reqs & self' & Hrun & Hlen & Hreqs & Hsent & _).
  - reflexivity.
  - reflexivity.
  - reflexivity.
  - reflexivity.
  - apply (bool_decide_unpack _). vm_compute. reflexivity.
  - intros test [->|[->|Hin]%elem_of_cons]%elem_of_cons;
      [| |inversion Hin];
      eexists _, _; (split; [reflexivity|]);
      eexists _, _, _; repeat split; reflexivity.
  - intros bucket prefix k. eexists _, _. split; reflexivity.
  - intros path k. eexists. split; [reflexivity|].
    do 2 (apply Forall_cons; split; [right; eexists; reflexivity|]).
    constructor.
  - intros req k. eexists. reflexivity.
  - exists stackids, self'. split; [exact Hrun|]. split; [exact Hlen|].
    rewrite Hreqs. cbn [Launch.requests Launch.init app].
    rewrite (Forall2_length _ _ _ Hsent). reflexivity.
Defined.

(** ** Failing launches *)

Section LaunchOutcomes.

Import Config Launch.

Variable rand : nat -> nat.
Variable repr : yaml -> string.
Variable s3 : string -> yaml -> nat -> result Assets.bucket.
Variable uuid4 : nat -> string.
Variable fetch : option string -> nat -> result (list parmdict).
Variable create_stack : request -> nat -> result stackdata.

Hypothesis fetch_no_exit :
  forall path k status, fetch path k <> Raise (SystemExit status).
Hypothesis create_no_exit :
  forall req k status, create_stack req k <> Raise (SystemExit status).



Variables (top g tests : list (string * yaml)) (n b : yaml).
Hypothesis Hglobal : assoc "global" top = Some (YMap g).
Hypothesis Hproject : assoc "project" g = Some n.
Hypothesis Hbucket : assoc "s3bucket" g = Some b.
Hypothesis Htests : assoc "tests" top = Some (YMap tests).
Hypothesis Hnodup : NoDup (map fst tests).
Hypothesis s3_lists : forall bucket prefix k, exists answer objs,
  s3 bucket prefix k = Ok answer /\ Assets.contents answer = Some objs.


End LaunchOutcomes.



(** The refused request of the first region ends the run. *)
Example refused_launch_exits :
  Launch.stackcreate (fun k => k) (fun _ => "") example_s3 example_uuid4
    example_fetch refusing_create_stack example_config
    ["projectx-senario-1"] "tag" Launch.init
  = Config.Throws (SystemExit 1).
Proof. vm_compute. reflexivity. Qed.

(** The second test, whose [regions] key has no value, is launched in the
    region of the first, and under its own stack name. *)
Example empty_regions_launch_in_previous_regions :
  match Launch.stackcreate (fun k => k) (fun _ => "") example_s3 example_uuid4
          example_fetch example_create_stack empty_regions_config
          ["first"; "second"] "tag" Launch.init with
  | Config.Returns (_, self') =>
      map (fun req => (Launch.StackName req, Launch.Region req))
        (Launch.requests self')
      = [("tCaT-tag-first-9f3c", Config.YStr "eu-west-1");
         ("tCaT-tag-second-c41d", Config.YStr "eu-west-1")]
  | _ => False
  end.
Proof. vm_compute. reflexivity. Qed.

(** The example configuration gives five launches; the two regions of the
    first test share a stack name, and every launch has passwords of its
    own. *)
Example example_config_launches :
  match Launch.stackcreate (fun k => k) (fun _ => "") example_s3 example_uuid4
          example_fetch example_create_stack example_config
          ["projectx-senario-1"; "projetx-main-senario-all-regions"] "tag"
          Launch.init with
  | Config.Returns (stackids, self') =>
      map (fun req => (Launch.StackName req, Launch.Region req))
        (Launch.requests self')
      = [("tCaT-tag-projectx-senario-1-9f3c", Config.YStr "us-west-1");
         ("tCaT-tag-projectx-senario-1-9f3c", Config.YStr "us-east-1");
         ("tCaT-tag-projetx-main-senario-all-regions-c41d", Config.YStr "us-east-1");
         ("tCaT-tag-projetx-main-senario-all-regions-c41d", Config.YStr "us-west-1");
         ("tCaT-tag-projetx-main-senario-all-regions-c41d", Config.YStr "us-west-2")]
      /\ Launch.draws self' = 40
      /\ Launch.template_path self'
         = Some "https://s3-us-west-2.amazonaws.com/projectx-templates/projectx/projectx.template"
  | _ => False
  end.
Proof. vm_compute. repeat split. Qed.

(** ** Validation *)

Section ValidationFacts.

Import Config Launch Validation.

Variable repr : yaml -> string.
Variable s3 : string -> yaml -> nat -> result Assets.bucket.
Variable validate : string -> option string -> nat -> result answer.
Variable urlopen : option string -> nat -> result string.
Variable json_load : string -> result unit.

Variables (top g tests : list (string * yaml)) (n b : yaml).
Hypothesis Hglobal : assoc "global" top = Some (YMap g).
Hypothesis Hproject : assoc "project" g = Some n.
Hypothesis Hbucket : assoc "s3bucket" g = Some b.
Hypothesis Htests : assoc "tests" top = Some (YMap tests).
Hypothesis Hnodup : NoDup (map fst tests).
Hypothesis s3_lists : forall bucket prefix k, exists answer objs,
  s3 bucket prefix k = Ok answer /\ Assets.contents answer = Some objs.

Lemma validate_call_ok (P : answer -> Prop) (self : taskcat) (ts : string) :
  _template_file self = YStr ts ->
  (forall region url k, exists a, validate region url k = Ok a /\ P a) ->
  exists url a,
    validate_call repr s3 validate self
      = Ok (a, validated (defult_region self, url) (s3_called self))
    /\ P a.
Proof.
  intros Hts Hv. unfold validate_call. rewrite Hts.
  destruct (get_s3_url_listed repr s3 s3_lists self ts) as [url ->].
  outcome_step.
  destruct (Hv (defult_region (s3_called self)) url
              (length (validations (s3_called self)))) as (a & -> & Ha).
  outcome_step. now exists url, a.
Qed.



(** The regions of [global] at the beginning of [validate_template]. *)
Lemma global_regions_set (regions : yaml) (items : list yaml) (self : taskcat) :
  assoc "regions" g = Some regions ->
  iter_items regions = Ok items ->
  exists u,
    get_global_region (YMap top) (_use_global self)
      = Returns (repeated (region_keys (map fst g)) items, u).
Proof.
  intros Hr Hi. unfold get_global_region. outcome_step. rewrite Hglobal.
  outcome_step.
  destruct (global_region_loop_repeats g regions items (map fst g) Hr Hi []
              (_use_global self)) as [u ->].
  now exists u.
Qed.

Lemma for_templates_undescribed (test : string) (rest : list string)
    (self : taskcat) :
  (exists tdef regions,
     assoc test tests = Some tdef /\ launchable g tdef regions) ->
  (forall region url k, exists a,
     validate region url k = Ok a /\ Description a = None) ->
  for_templates repr s3 validate (test :: rest) (YMap top) self
    = Throws (SystemExit 1).
Proof.
  intros (tdef & regions & Hdef & Hl) Hv. cbn [for_templates].
  destruct (define_tests_launchable repr s3 top g tests n b Hglobal Hproject
              Hbucket Htests Hnodup s3_lists test tdef regions self Hdef Hl)
    as (self1 & ts & ps & -> & _ & _ & _ & _ & Hts & _).
  outcome_step. unfold validate_one.
  destruct (validate_call_ok _ self1 ts Hts Hv) as (url1 & a1 & -> & _).
  outcome_step.
  destruct (validate_call_ok _ (validated (defult_region self1, url1)
                                  (s3_called self1)) ts Hts Hv)
    as (url2 & a2 & -> & Hd).
  outcome_step. rewrite Hd. reflexivity.
Qed.

End ValidationFacts.



(** X24. A template the service accepts but whose answer has no
    ['Description'] is reported as one that cannot be validated:
    [validate_template] ends the run with exit status 1 at the first test,
    after both validation calls have succeeded. *)
Theorem validate_template_needs_description
    (repr : Config.yaml -> string)
    (s3 : string -> Config.yaml -> nat -> result Assets.bucket)
    (validate : string -> option string -> nat -> result Validation.answer)
    (top g tests : list (string * Config.yaml))
    (n b regions tdef : Config.yaml) (items test_regions : list Config.yaml)
    (test : string) (rest : list string) (self : Launch.taskcat) :
  Config.assoc "global" top = Some (Config.YMap g) ->
  Config.assoc "project" g = Some n ->
  Config.assoc "s3bucket" g = Some b ->
  Config.assoc "regions" g = Some regions ->
  Config.iter_items regions = Ok items ->
  Config.assoc "tests" top = Some (Config.YMap tests) ->
  NoDup (map fst tests) ->
  Config.assoc test tests = Some tdef ->
  Launch.launchable g tdef test_regions ->
  (forall bucket prefix k, exists answer objs,
     s3 bucket prefix k = Ok answer /\ Assets.contents answer = Some objs) ->
  (forall region url k, exists a,
     validate region url k = Ok a /\ Validation.Description a = None) ->
  Validation.validate_template repr s3 validate (Config.YMap top)
    (test :: rest) self = Config.Throws (SystemExit 1).
Proof.
  intros Hg Hn Hb Hr Hi Ht Hnd Hdef Hl Hs3 Hv.
  unfold Validation.validate_template.
  destruct (global_regions_set top g Hg regions items self Hr Hi) as [u ->].
  outcome_step.
  rewrite (for_templates_undescribed repr s3 validate top g tests n b Hg Hn Hb
             Ht Hnd Hs3 test rest _ (ex_intro _ tdef (ex_intro _ test_regions
                                                        (conj Hdef Hl))) Hv).
  reflexivity.
Qed.

Lemma validate_template_needs_description_witness :
  Validation.validate_template (fun _ => "") example_s3 undescribed_validate
    example_config ["projectx-senario-1"; "projetx-main-senario-all-regions"]
    Launch.init
  = Config.Throws (SystemExit 1).
Proof.
  eapply (validate_template_needs_description
            (fun _ => "") example_s3 undescribed_validate
            [("global", Config.YMap example_global);
             ("tests", Config.YMap example_tests)]
            example_global example_tests
            (Config.YStr "projectx") (Config.YStr "projectx-templates")
            (Config.YSeq [Config.YStr "us-east-1"; Config.YStr "us-west-1";
                          Config.YStr "us-west-2"])
            _
            [Config.YStr "us-east-1"; Config.YStr "us-west-1";
             Config.YStr "us-west-2"]
            [Config.YStr "us-west-1"; Config.YStr "us-east-1"]).
  - reflexivity.
  - reflexivity.
  - reflexivity.
  - reflexivity.
  - reflexivity.
  - reflexivity.
  - apply (bool_decide_unpack _). vm_compute. reflexivity.
  - reflexivity.
  - eexists _, _, _. repeat split; reflexivity.
  - intros bucket prefix k. eexists _, _. split; reflexivity.
  - intros region url k. eexists. split; reflexivity.
Defined.

(** ** Parameter files *)

Section ParameterOutcomes.

Import Config Launch Validation.

Variable repr : yaml -> string.
Variable s3 : string -> yaml -> nat -> result Assets.bucket.
Variable urlopen : option string -> nat -> result string.
Variable json_load : string -> result unit.

Variables (top g tests : list (string * yaml)) (n b : yaml).
Hypothesis Hglobal : assoc "global" top = Some (YMap g).
Hypothesis Hproject : assoc "project" g = Some n.
Hypothesis Hbucket : assoc "s3bucket" g = Some b.
Hypothesis Htests : assoc "tests" top = Some (YMap tests).
Hypothesis Hnodup : NoDup (map fst tests).
Hypothesis s3_lists : forall bucket prefix k, exists answer objs,
  s3 bucket prefix k = Ok answer /\ Assets.contents answer = Some objs.

Lemma for_parameters_cases (test_list : list string) :
  (forall test, test ∈ test_list ->
     exists tdef regions,
       assoc test tests = Some tdef /\ launchable g tdef regions) ->
  forall (self : taskcat),
  length (defined_objects repr s3 test_list (YMap top) self) = length test_list
  /\ match for_parameters repr s3 urlopen json_load test_list (YMap top) self with
     | Returns self' =>
         opened self' = opened self + length test_list
         /\ Forall (accepts_parameters urlopen json_load)
              (defined_objects repr s3 test_list (YMap top) self)
     | Throws e =>
         exists before o after,
           defined_objects repr s3 test_list (YMap top) self
             = (before ++ o :: after)%list
           /\ Forall (accepts_parameters urlopen json_load) before
           /\ rejects_parameters urlopen json_load o e
     | ThrowsUnboundLocalError => False
     end.
Proof.
  induction test_list as [|test rest IH]; intros Hall self.
  - cbn. split; [reflexivity|]. split; [lia|constructor].
  - destruct (Hall test) as (tdef & regions & Hdef & Hl); [now left|].
    cbn [for_parameters defined_objects].
    destruct (define_tests_launchable repr s3 top g tests n b Hglobal Hproject
                Hbucket Htests Hnodup s3_lists test tdef regions self Hdef Hl)
      as (o & ts & ps & -> & _ & _ & _ & _ & _ & Hps & _ & _ & _ & Hopened & _).
    outcome_step.
    destruct (IH (fun t Ht => Hall t (list_elem_of_further _ _ _ Ht))
                (url_opened o)) as [Hlen Hrest].
    split; [cbn [length]; now rewrite Hlen|].
    destruct (urlopen (parameter_path o) (opened o)) as [text|e] eqn:Hopen;
      outcome_step.
    2:{ exists [], o, (defined_objects repr s3 rest (YMap top) (url_opened o)).
        split; [reflexivity|]. split; [constructor|]. now left. }
    assert (Hfile : get_parameter_file (url_opened o) = Ok (YStr ps))
      by (unfold get_parameter_file; cbn [_parameter_file url_opened];
          now rewrite Hps).
    unfold validate_json.
    destruct (json_load text) as [[]|e] eqn:Hload.
    + outcome_step. rewrite Hfile. outcome_step.
      assert (Hacc : accepts_parameters urlopen json_load o)
        by (exists text; auto).
      destruct (for_parameters repr s3 urlopen json_load rest (YMap top)
                  (url_opened o)) as [self'|e|].
      * destruct Hrest as [Ho Hall']. split; [|now constructor].
        rewrite Ho. cbn [opened url_opened length]. lia.
      * destruct Hrest as (before & o' & after & -> & Hbefore & Hrej).
        exists (o :: before), o', after.
        split; [reflexivity|]. split; [now constructor|exact Hrej].
      * exact Hrest.
    + destruct e; outcome_step;
        try (exists [], o,
               (defined_objects repr s3 rest (YMap top) (url_opened o));
             split; [reflexivity|]; split; [constructor|];
             right; exists text; split; [exact Hopen|];
             right; split; [exact Hload|discriminate]).
      rewrite Hfile. outcome_step.
      exists [], o, (defined_objects repr s3 rest (YMap top) (url_opened o)).
      split; [reflexivity|]. split; [constructor|].
      right. exists text. split; [exact Hopen|]. left. auto.
Qed.

End ParameterOutcomes.

(** X25. Under a configuration as for the launch, [validate_parameters]
    opens the parameter file of every test, at the path [define_tests] has
    left on the object, and reads it as JSON. It returns [True] only when
    every one of these files was opened and read; otherwise the first file
    that fails ends the run: with exit status 1 when its text is no JSON
    (ValueError of [json.load], the only exception [validate_json] catches),
    with the exception of [urlopen] itself when it cannot be opened, or with
    the exception of [json.load] when that is not ValueError; the last two
    leave the program as they are, not as an exit. Nothing but the syntax of
    the files is checked. *)
Theorem validate_parameters_outcomes
    (repr : Config.yaml -> string)
    (s3 : string -> Config.yaml -> nat -> result Assets.bucket)
    (urlopen : option string -> nat -> result string)
    (json_load : string -> result unit)
    (top g tests : list (string * Config.yaml)) (n b : Config.yaml)
    (test_list : list string) (self : Launch.taskcat) :
  Config.assoc "global" top = Some (Config.YMap g) ->
  Config.assoc "project" g = Some n ->
  Config.assoc "s3bucket" g = Some b ->
  Config.assoc "tests" top = Some (Config.YMap tests) ->
  NoDup (map fst tests) ->
  (forall test, test ∈ test_list ->
     exists tdef regions,
       Config.assoc test tests = Some tdef /\ Launch.launchable g tdef regions) ->
  (forall bucket prefix k, exists answer objs,
     s3 bucket prefix k = Ok answer /\ Assets.contents answer = Some objs) ->
  let objects :=
    Validation.defined_objects repr s3 test_list (Config.YMap top) self in
  length objects = length test_list
  /\ match Validation.validate_parameters repr s3 urlopen json_load
             (Config.YMap top) test_list self with
     | Config.Returns (status, self') =>
         status = true
         /\ Launch.opened self' = Launch.opened self + length test_list
         /\ Forall (Validation.accepts_parameters urlopen json_load) objects
     | Config.Throws e =>
         exists before o after,
           objects = (before ++ o :: after)%list
           /\ Forall (Validation.accepts_parameters urlopen json_load) before
           /\ Validation.rejects_parameters urlopen json_load o e
     | Config.ThrowsUnboundLocalError => False
     end.
Proof.
  intros Hg Hn Hb Ht Hnd Hall Hs3 objects.
  unfold Validation.validate_parameters.
  destruct (for_parameters_cases repr s3 urlopen json_load top g tests n b
              Hg Hn Hb Ht Hnd Hs3 test_list Hall self) as [Hlen Hloop].
  split; [exact Hlen|]. fold objects in Hloop.
  destruct (Validation.for_parameters _ _ _ _ _ _ _) as [self'|e|];
    outcome_step; [|exact Hloop..].
  destruct Hloop as [Hopened Hacc]. auto.
Qed.

Lemma validate_parameters_outcomes_witness :
  exists self',
    Validation.validate_parameters (fun _ => "") example_s3 example_urlopen
      example_json_load example_config
      ["projectx-senario-1"; "projetx-main-senario-all-regions"] Launch.init
      = Config.Returns (true, self')
    /\ Launch.opened self' = 2
    /\ Forall (Validation.accepts_parameters example_urlopen example_json_load)
         (Validation.defined_objects (fun _ => "") example_s3
            ["projectx-senario-1"; "projetx-main-senario-all-regions"]
            example_config Launch.init).
Proof.
  assert (Hrun := validate_parameters_outcomes
            (fun _ => "") example_s3 example_urlopen example_json_load
            [("global", Config.YMap example_global);
             ("tests", Config.YMap example_tests)]
            example_global example_tests
            (Config.YStr "projectx") (Config.YStr "projectx-templates")
            ["projectx-senario-1"; "projetx-main-senario-all-regions"]
            Launch.init).
  cbv zeta in Hrun.
  destruct (Validation.validate_parameters _ _ _ _ _ _ _)
    as [[status self']|e|] eqn:Hout; [|vm_compute in Hout; discriminate..].
  destruct Hrun as (_ & -> & Hopened & Hacc).
  - reflexivity.
  - reflexivity.
  - reflexivity.
  - reflexivity.
  - apply (bool_decide_unpack _). vm_compute. reflexivity.
  - intros test [->|[->|Hin]%elem_of_cons]%elem_of_cons;
      [| |inversion Hin];
      eexists _, _; (split; [reflexivity|]);
      eexists _, _, _; repeat split; reflexivity.
  - intros bucket prefix k. eexists _, _. split; reflexivity.
  - exists self'. split; [reflexivity|]. split; [exact Hopened|exact Hacc].
Defined.

(** A parameter file that is no JSON ends the run; a URL that cannot be
    opened raises what [urlopen] raises. *)
Example validate_parameters_bad_json :
  Validation.validate_parameters (fun _ => "") example_s3
    (fun _ _ => Ok "[{") example_json_load example_config
    ["projectx-senario-1"] Launch.init
  = Config.Throws (SystemExit 1).
Proof. vm_compute. reflexivity. Qed.

Example validate_parameters_unreachable :
  Validation.validate_parameters (fun _ => "") example_s3
    (fun _ _ => Raise RemoteError) example_json_load example_config
    ["projectx-senario-1"] Launch.init
  = Config.Throws RemoteError.
Proof. vm_compute. reflexivity. Qed.
